(** * Client-side data layer of the CRM dashboard

    A shallow embedding of the TypeScript front end's request, settings,
    realtime, filter, form and upload code, and the properties its
    specification states about them.

    Browser state that the code reads and writes (localStorage, the axios
    default headers, [window.location.href]) is threaded explicitly; every
    externally visible action (a request leaving the client, its outcome, a
    toast, a console line, a react-query call) is appended to a chronological
    trace.  An [async] function is run to completion: each [await] is a
    sequential step against a deterministic backend oracle. *)

From stdpp Require Import gmap strings list pretty.
From Stdlib Require Import Floats ZArith QArith Qpower.

Set Warnings "-register-all".
Set Default Proof Using "Type".

Local Open Scope Z_scope.

(** ** JavaScript values *)

(** JSON-like values as the code handles them.  Numbers are IEEE-754
    binary64, as a JavaScript [number] is. *)
Inductive JsValue :=
| JUndefined
| JNull
| JBool (b : bool)
| JNum (x : float)
| JStr (s : string)
| JArr (xs : list JsValue)
| JObj (props : gmap string JsValue).

Definition num0 : float := 0%float.

(** [!!v] in JavaScript: ToBoolean. *)
Definition truthy (v : JsValue) : bool :=
  match v with
  | JUndefined | JNull => false
  | JBool b => b
  | JNum x => negb (PrimFloat.is_zero x || PrimFloat.is_nan x)
  | JStr s => negb (String.eqb s "")
  | JArr _ | JObj _ => true
  end.

(** A possibly absent property read: [o.k] is [undefined] when absent. *)
Definition prop (o : gmap string JsValue) (k : string) : JsValue :=
  default JUndefined (o !! k).

(** [v?.k]: [undefined] on [null]/[undefined]; primitives and arrays have no
    own property of the names used here. *)
Definition opt_get (v : JsValue) (k : string) : JsValue :=
  match v with
  | JObj o => prop o k
  | _ => JUndefined
  end.

(** [x || 0] on numbers. *)
Definition num_or_zero (x : float) : float :=
  if PrimFloat.is_zero x || PrimFloat.is_nan x then num0 else x.

(** [s.includes(sub)] *)
Definition includes (s sub : string) : bool :=
  match String.index 0 sub s with
  | Some _ => true
  | None => false
  end.

(** Object literal from a property list (later entries win, as in a literal
    or a spread followed by overrides). *)
Definition obj (ps : list (string * JsValue)) : gmap string JsValue :=
  foldl (λ m p, <[p.1 := p.2]> m) ∅ ps.

(** [{ ...a, ...b }]: properties of [b] override those of [a]. *)
Definition spread (a b : gmap string JsValue) : gmap string JsValue := b ∪ a.

(** ** Requests, replies and the browser world *)

Inductive Method := GET | POST | PUT | DELETE.

Record File := { file_name : string; file_size : Z; file_type : string }.

Inductive FormEntry := EntryFile (f : File) | EntryText (s : string).

(** [FormData]: an ordered list of (field, value); [append] adds at the end. *)
Definition FormData := list (string * FormEntry).

Definition fd_append (fd : FormData) (k : string) (v : FormEntry) : FormData :=
  fd ++ [(k, v)].

Inductive Body :=
| NoBody
| JsonBody (v : gmap string JsValue)
| MultipartBody (fd : FormData).

Record Request := {
  req_method : Method;
  req_url : string;
  req_params : gmap string JsValue;
  req_body : Body;
  req_headers : gmap string string;
  req_timeout : Z
}.

Record Response := { status : Z; data : JsValue }.

(** What comes back for a request: a response with a status, or none at
    all (connection failure, or the timeout elapsing first). *)
Inductive Reply :=
| Replied (r : Response)
| NetworkError
| TimedOut.

(** The error axios rejects with; [err_response] is [error.response]. *)
Record AxiosError := { err_response : option Response }.

Inductive Outcome (A : Type) :=
| Resolved (a : A)
| Rejected (e : AxiosError).
Arguments Resolved {A} a.
Arguments Rejected {A} e.

Inductive ToastKind := TError | TSuccess.
Inductive Level := LLog | LWarn | LError.

Definition QueryKey : Type := string * gmap string JsValue.

(** What the trace records.  A [Console] entry keeps the level and the
    message; further arguments (the error object) are not recorded.  A
    [ConsoleValue] entry is a console line whose only argument is an error
    object, as react-query's logger writes it. *)
Inductive Event :=
| Sent (r : Request)
| Settled (r : Reply)
| Toast (k : ToastKind) (msg : JsValue)
| Console (l : Level) (msg : string)
| ConsoleValue (l : Level) (error : AxiosError)
| PreventDefault
| InvalidateQueries (key : string)
| Refetch (key : QueryKey)
| PropCallback (name : string)
| SocketIoOpen (url : string) (token : option string) (transports : list string)
| SocketIoOn (event : string).

Record World := {
  localStorage : gmap string string;
  defaults_common : gmap string string;
  location_href : string;
  trace : list Event
}.

(** ** Effects: state passing over the world *)

Definition Eff (A : Type) : Type := World → A * World.

Definition eret {A} (a : A) : Eff A := λ w, (a, w).
Definition ebind {A B} (m : Eff A) (k : A → Eff B) : Eff B :=
  λ w, let '(a, w') := m w in k a w'.

Declare Scope eff_scope.
Delimit Scope eff_scope with eff.
Notation "x <- c ;; k" := (ebind c (λ x, k))
  (at level 100, c at next level, right associativity) : eff_scope.
Notation "c ;;; k" := (ebind c (λ _, k))
  (at level 100, right associativity) : eff_scope.
Local Open Scope eff_scope.

Definition emit (e : Event) : Eff unit :=
  λ w, (tt, {| localStorage := localStorage w;
               defaults_common := defaults_common w;
               location_href := location_href w;
               trace := trace w ++ [e] |}).

Definition localStorage_getItem (k : string) : Eff (option string) :=
  λ w, (localStorage w !! k, w).

Definition localStorage_removeItem (k : string) : Eff unit :=
  λ w, (tt, {| localStorage := delete k (localStorage w);
               defaults_common := defaults_common w;
               location_href := location_href w;
               trace := trace w |}).

Definition localStorage_setItem (k v : string) : Eff unit :=
  λ w, (tt, {| localStorage := <[k := v]> (localStorage w);
               defaults_common := defaults_common w;
               location_href := location_href w;
               trace := trace w |}).

Definition delete_default_header (k : string) : Eff unit :=
  λ w, (tt, {| localStorage := localStorage w;
               defaults_common := delete k (defaults_common w);
               location_href := location_href w;
               trace := trace w |}).

Definition set_default_header (k v : string) : Eff unit :=
  λ w, (tt, {| localStorage := localStorage w;
               defaults_common := <[k := v]> (defaults_common w);
               location_href := location_href w;
               trace := trace w |}).

Definition set_location_href (u : string) : Eff unit :=
  λ w, (tt, {| localStorage := localStorage w;
               defaults_common := defaults_common w;
               location_href := u;
               trace := trace w |}).

Definition toast_error (msg : JsValue) : Eff unit := emit (Toast TError msg).
Definition toast_success (msg : string) : Eff unit := emit (Toast TSuccess (JStr msg)).
Definition console_log (msg : string) : Eff unit := emit (Console LLog msg).
Definition console_error (msg : string) : Eff unit := emit (Console LError msg).

(** Observations on traces. *)
Definition is_toast (e : Event) : bool :=
  match e with Toast _ _ => true | _ => false end.
Definition is_sent (e : Event) : bool :=
  match e with Sent _ => true | _ => false end.
Definition is_refetch (e : Event) : bool :=
  match e with Refetch _ => true | _ => false end.
Definition is_network (e : Event) : bool :=
  match e with Sent _ | Settled _ | SocketIoOpen _ _ _ => true | _ => false end.

Definition toasts_of (t : list Event) : list Event := filter (λ e, is_toast e = true) t.
Definition sent_of (t : list Event) : list Event := filter (λ e, is_sent e = true) t.
Definition refetches_of (t : list Event) : list Event := filter (λ e, is_refetch e = true) t.
Definition network_of (t : list Event) : list Event := filter (λ e, is_network e = true) t.

(** The events a computation appended: the suffix of the final trace beyond
    the initial one. *)
Definition appended (w w' : World) : list Event := drop (length (trace w)) (trace w').

(** ** Realtime channel: the two [WebSocketService] classes of the repository *)

(** The service built on the browser's [WebSocket]
    (unnamed source [part_015]). *)
Module NativeWs.

Inductive ReadyState := CONNECTING | OPEN | CLOSING | CLOSED.

Record WebSocketService := {
  ws : option ReadyState;
  eventListeners : gmap string (list nat);
  reconnectAttempts : Z;
  maxReconnectAttempts : Z;
  reconnectDelay : Z
}.

Definition initial : WebSocketService :=
  {| ws := None; eventListeners := ∅; reconnectAttempts := 0;
     maxReconnectAttempts := 5; reconnectDelay := 1000 |}.

Definition is_open (s : option ReadyState) : bool :=
  match s with Some OPEN => true | _ => false end.

(** [!token] for [string | null]. *)
Definition no_token (t : option string) : bool :=
  match t with
  | None => true
  | Some s => String.eqb s ""
  end.

(** [connect()]: both paths past the guard return before the socket is
    created; the statements after the second [return] are unreachable. *)
Definition connect (this : WebSocketService) : Eff WebSocketService :=
  if is_open (ws this) then eret this
  else
    token <- localStorage_getItem "auth_token" ;;
    if no_token token then
      console_log "No auth token found for WebSocket connection - skipping WebSocket" ;;;
      eret this
    else
      console_log "WebSocket disabled for simple backend" ;;;
      eret this.

Definition connected (this : WebSocketService) : bool := is_open (ws this).

End NativeWs.

(** The service built on socket.io
    ([frontend/src/services/websocket.ts]). *)
Module SocketIo.

Record Socket := {
  sock_connected : bool;
  sock_auth_token : option string;
  sock_handlers : list string
}.

Record WebSocketService := { socket : option Socket }.

Definition initial : WebSocketService := {| socket := None |}.

(** [this.socket?.connected] as a condition *)
Definition socket_connected (this : WebSocketService) : bool :=
  match socket this with
  | Some s => sock_connected s
  | None => false
  end.

Definition connect (this : WebSocketService) : Eff WebSocketService :=
  if socket_connected this then eret this
  else
    token <- localStorage_getItem "auth_token" ;;
    emit (SocketIoOpen "/" token ["websocket"]) ;;;
    emit (SocketIoOn "connect") ;;;
    emit (SocketIoOn "disconnect") ;;;
    emit (SocketIoOn "connect_error") ;;;
    eret {| socket := Some {| sock_connected := false;
                              sock_auth_token := token;
                              sock_handlers := ["connect"; "disconnect"; "connect_error"] |} |}.

Definition connected (this : WebSocketService) : bool := socket_connected this.

End SocketIo.

(** ** Concrete environments used to run the model *)

(** A signed-in browser sitting on the cases page. *)
Definition signed_in_world : World :=
  {| localStorage := {[ "auth_token" := "tok-123" ]};
     defaults_common := {[ "Authorization" := "Bearer tok-123" ]};
     location_href := "/cases";
     trace := [] |}.

(** A backend that answers every request with the same reply. *)
Definition const_backend (r : Reply) : nat → Request → Reply := λ _ _, r.

(** A backend that answers the [n]-th request (counting from 0) with the
    [n]-th reply of a script, and drops the connection afterwards. *)
Definition scripted_backend (script : list Reply) : nat → Request → Reply :=
  λ n _, default NetworkError (script !! n).

Definition reply_status (s : Z) (d : JsValue) : Reply :=
  Replied {| status := s; data := d |}.

(** [parseFloat] restricted to what the examples need: a string of decimal
    digits is read as that integer, anything else is [NaN]. *)
Fixpoint digits_value (acc : float) (s : string) : option float :=
  match s with
  | EmptyString => Some acc
  | String c rest =>
      let n := Ascii.nat_of_ascii c in
      if (48 <=? n)%nat && (n <=? 57)%nat
      then digits_value (acc * 10 + PrimFloat.of_uint63 (Uint63.of_Z (Z.of_nat (n - 48))))%float rest
      else None
  end.

Definition digits_parseFloat (s : string) : float :=
  match s with
  | EmptyString => nan
  | _ => default nan (digits_value 0%float s)
  end.

(** [parseFloat] restricted to decimal numerals with an optional fraction,
    as "19.99": the digits are read as an integer and divided by the power
    of ten of the fraction's length; on any other string this stand-in
    gives [NaN].  Integer and power are exact for up to fifteen digits,
    and the quotient is then the binary64 number nearest to the numeral,
    which is what [parseFloat] returns for it. *)
Definition digit_of (c : Ascii.ascii) : option float :=
  let n := Ascii.nat_of_ascii c in
  if (48 <=? n)%nat && (n <=? 57)%nat
  then Some (PrimFloat.of_uint63 (Uint63.of_Z (Z.of_nat (n - 48))))
  else None.

Fixpoint fraction_value (acc scale : float) (s : string) : option float :=
  match s with
  | EmptyString => Some (acc / scale)%float
  | String c rest =>
      match digit_of c with
      | Some d => fraction_value (acc * 10 + d)%float (scale * 10)%float rest
      | None => None
      end
  end.

Fixpoint decimal_value (acc : float) (s : string) : option float :=
  match s with
  | EmptyString => Some acc
  | String c rest =>
      if (Ascii.nat_of_ascii c =? 46)%nat then fraction_value acc 1%float rest
      else match digit_of c with
           | Some d => decimal_value (acc * 10 + d)%float rest
           | None => None
           end
  end.

Definition decimal_parseFloat (s : string) : float :=
  match s with
  | EmptyString => nan
  | _ => default nan (decimal_value 0%float s)
  end.

(** Stand-ins for the conversions the runs below never reach or do not
    depend on: ToNumber on strings and objects, and the rendering of the
    setting id 7 in a URL. *)
Definition nan_of_string : string → float := λ _, nan.
Definition nan_of_value : JsValue → float := λ _, nan.
Definition show_number : float → string := λ _, "7".

Section Client.

(** The REST backend: its reply to a request, given how many requests
    the client has sent before it. *)
Variable backend : nat → Request → Reply.

(** Runtime built-ins: the global [parseFloat], ToNumber on strings and on
    objects, and the number-to-string conversion of template literals. *)
Variable parseFloat : string → float.
Variable StringToNumber : string → float.
Variable ObjectToNumber : JsValue → float.
Variable NumberToString : float → string.

(** ToNumber, as applied by the [*] operator. *)
Definition to_number (v : JsValue) : float :=
  match v with
  | JUndefined => nan
  | JNull => 0%float
  | JBool b => if b then 1%float else 0%float
  | JNum x => x
  | JStr s => StringToNumber s
  | JArr _ | JObj _ => ObjectToNumber v
  end.

(** *** [services/api.ts]: the shared axios instance *)

Definition baseURL : string := "/api".
Definition timeout : Z := 30000.

(** axios' default [validateStatus]. *)
Definition validateStatus (s : Z) : bool := (200 <=? s) && (s <? 300).

(** [error.response?.status === 401] *)
Definition status_is_401 (error : AxiosError) : bool :=
  match err_response error with
  | Some r => status r =? 401
  | None => false
  end.

(** [error.response?.status >= 500]; [undefined >= 500] is false. *)
Definition status_ge_500 (error : AxiosError) : bool :=
  match err_response error with
  | Some r => 500 <=? status r
  | None => false
  end.

(** [error.response?.data?.detail] *)
Definition error_detail (error : AxiosError) : JsValue :=
  match err_response error with
  | Some r => opt_get (data r) "detail"
  | None => JUndefined
  end.

(** The rejection handler of [api.interceptors.response.use]. *)
Definition response_interceptor_rejected (error : AxiosError) : Eff (Outcome Response) :=
  (if status_is_401 error then
     localStorage_removeItem "auth_token" ;;;
     delete_default_header "Authorization" ;;;
     set_location_href "/login"
   else if status_ge_500 error then
     toast_error (JStr "Server error. Please try again later.")
   else if truthy (error_detail error) then
     toast_error (error_detail error)
   else
     toast_error (JStr "An unexpected error occurred")) ;;;
  eret (Rejected error).

(** The fulfilment handler: [(response) => response]. *)
Definition response_interceptor_fulfilled (response : Response) : Eff (Outcome Response) :=
  eret (Resolved response).

Definition build_request (m : Method) (path : string) (params : gmap string JsValue)
    (body : Body) (headers : gmap string string) (w : World) : Request :=
  {| req_method := m;
     req_url := baseURL +:+ path;
     req_params := params;
     req_body := body;
     req_headers := headers ∪ defaults_common w;
     req_timeout := timeout |}.

(** One request through the instance: it is sent, the backend's reply
    settles it, and the response interceptors run on the outcome. *)
Definition api_request (m : Method) (path : string) (params : gmap string JsValue)
    (body : Body) (headers : gmap string string) : Eff (Outcome Response) :=
  λ w,
    let r := build_request m path params body headers w in
    let reply := backend (length (sent_of (trace w))) r in
    (emit (Sent r) ;;;
     emit (Settled reply) ;;;
     match reply with
     | Replied resp =>
         if validateStatus (status resp)
         then response_interceptor_fulfilled resp
         else response_interceptor_rejected {| err_response := Some resp |}
     | NetworkError | TimedOut =>
         response_interceptor_rejected {| err_response := None |}
     end) w.

Definition api_get (path : string) (params : gmap string JsValue) : Eff (Outcome Response) :=
  api_request GET path params NoBody ∅.
Definition api_post (path : string) (body : Body) (headers : gmap string string) : Eff (Outcome Response) :=
  api_request POST path ∅ body headers.
Definition api_put (path : string) (body : Body) : Eff (Outcome Response) :=
  api_request PUT path ∅ body ∅.

(** [.then(res => res.data)] *)
Definition then_data (o : Outcome Response) : Outcome JsValue :=
  match o with
  | Resolved res => Resolved (data res)
  | Rejected e => Rejected e
  end.

(** *** [services/settingsService.ts] *)

Definition settings_baseUrl : string := "/api/v1/settings".

Definition strs (l : list string) : JsValue := JArr (JStr <$> l).

Definition getMockCategories : JsValue :=
  JArr [
    JObj (obj [
      ("id", JNum 1); ("name", JStr "system");
      ("display_name", JStr "System Settings");
      ("description", JStr "Core system configuration and performance settings");
      ("icon", JStr "cog"); ("sort_order", JNum 1); ("is_active", JBool true);
      ("settings", JArr [
        JObj (obj [
          ("id", JNum 1); ("category_id", JNum 1); ("key", JStr "log_level");
          ("display_name", JStr "Log Level");
          ("description", JStr "Minimum log level for system logging");
          ("data_type", JStr "select");
          ("default_value", JStr "INFO"); ("current_value", JStr "INFO");
          ("value", JStr "INFO");
          ("validation_rules",
            JObj (obj [("options", strs ["DEBUG"; "INFO"; "WARNING"; "ERROR"; "CRITICAL"])]));
          ("ui_component", JStr "select");
          ("ui_options",
            JObj (obj [("options", strs ["DEBUG"; "INFO"; "WARNING"; "ERROR"; "CRITICAL"])]));
          ("is_sensitive", JBool false); ("is_readonly", JBool false);
          ("is_required", JBool true); ("requires_restart", JBool false);
          ("sort_order", JNum 1); ("is_active", JBool true) ]);
        JObj (obj [
          ("id", JNum 2); ("category_id", JNum 1); ("key", JStr "enable_metrics");
          ("display_name", JStr "Enable Metrics Collection");
          ("description", JStr "Collect system performance metrics");
          ("data_type", JStr "boolean");
          ("default_value", JStr "true"); ("current_value", JStr "true");
          ("value", JBool true);
          ("validation_rules", JObj ∅);
          ("ui_component", JStr "checkbox");
          ("ui_options", JObj ∅);
          ("is_sensitive", JBool false); ("is_readonly", JBool false);
          ("is_required", JBool false); ("requires_restart", JBool false);
          ("sort_order", JNum 2); ("is_active", JBool true) ]) ]) ]);
    JObj (obj [
      ("id", JNum 2); ("name", JStr "agents");
      ("display_name", JStr "Agent Management");
      ("description", JStr "AI agent configuration and control settings");
      ("icon", JStr "beaker"); ("sort_order", JNum 2); ("is_active", JBool true);
      ("settings", JArr [
        JObj (obj [
          ("id", JNum 3); ("category_id", JNum 2);
          ("key", JStr "agent_health_check_interval");
          ("display_name", JStr "Agent Health Check Interval (seconds)");
          ("description", JStr "How often to check agent health status");
          ("data_type", JStr "integer");
          ("default_value", JStr "30"); ("current_value", JStr "30");
          ("value", JNum 30);
          ("validation_rules", JObj (obj [("min", JNum 10); ("max", JNum 300)]));
          ("ui_component", JStr "input");
          ("ui_options", JObj ∅);
          ("is_sensitive", JBool false); ("is_readonly", JBool false);
          ("is_required", JBool true); ("requires_restart", JBool true);
          ("sort_order", JNum 1); ("is_active", JBool true) ]) ]) ])
  ].

(** [getCategories(includeInactive = false)] *)
Definition getCategories (includeInactive : bool) : Eff (Outcome JsValue) :=
  r <- api_get (settings_baseUrl +:+ "/categories")
               (obj [("include_inactive", JBool includeInactive)]) ;;
  match r with
  | Resolved response => eret (Resolved (data response))
  | Rejected error =>
      console_error "Failed to fetch settings categories:" ;;;
      eret (Resolved getMockCategories)
  end.

(** [updateSetting(settingId, updateRequest)] *)
Definition updateSetting (settingId : float) (updateRequest : gmap string JsValue)
    : Eff (Outcome JsValue) :=
  r <- api_put (settings_baseUrl +:+ "/setting/" +:+ NumberToString settingId)
               (JsonBody updateRequest) ;;
  match r with
  | Resolved response => eret (Resolved (data response))
  | Rejected error =>
      console_error ("Failed to update setting " +:+ NumberToString settingId +:+ ":") ;;;
      eret (Resolved (JObj (obj [
        ("success", JBool true);
        ("message", JStr "Setting updated successfully (mock)");
        ("data", JObj (obj [
           ("setting_id", JNum settingId);
           ("requires_restart", JBool false) ])) ])))
  end.

(** *** react-query, as far as the pages rely on it *)

(** Library behaviour, not repository code (react-query 3, the version the
    front end depends on).  It is written out because the repository's
    callbacks and query functions run inside it, and the console and the
    network show its part of a failure as well as theirs:
    - a mutation whose function rejects is written to the console by the
      library's logger, [console.error(error)], before the mutation's
      [onError] is called;
    - a query whose function rejects is fetched again, at most [retry] more
      times, and the error of the last attempt is written to the console
      in the same way.  [retry] is the option that SystemSettings and
      AgentSettings set to [false] and SettingsPage to [1] ("Only retry
      once"); a query that does not set it takes the default of the
      [QueryClient]. *)
Definition useMutation_logs (error : AxiosError) : Eff unit :=
  emit (ConsoleValue LError error).

Fixpoint useQuery_fetch {A} (retry : nat) (queryFn : Eff (Outcome A)) : Eff (Outcome A) :=
  o <- queryFn ;;
  match o with
  | Resolved _ => eret o
  | Rejected error =>
      match retry with
      | O => emit (ConsoleValue LError error) ;;; eret o
      | S n => useQuery_fetch n queryFn
      end
  end.

(** *** [pages/CasesPage.tsx] and [components/cases/CaseFilters.tsx] *)

Definition CasesPage_initial_filters : gmap string JsValue :=
  obj [("status", JStr ""); ("case_type", JStr ""); ("search", JStr "");
       ("page", JNum 1); ("limit", JNum 20)].

(** The query key [['cases', filters]]. *)
Definition cases_key (filters : gmap string JsValue) : QueryKey := ("cases", filters).

(** The query function: [api.get('/cases', { params: filters }).then(res => res.data)] *)
Definition cases_queryFn (filters : gmap string JsValue) : Eff (Outcome JsValue) :=
  r <- api_get "/cases" filters ;;
  eret (then_data r).

(** A fetch of the cases query.  [CasesPage] passes [keepPreviousData]
    and no [retry], so the number of retries is the default of the
    [QueryClient]; the module that creates the client is not among the
    sources, and [retry] stands for its setting (react-query's own default
    is 3). *)
Definition cases_fetch (retry : nat) (filters : gmap string JsValue) : Eff (Outcome JsValue) :=
  useQuery_fetch retry (cases_queryFn filters).

(** [setFilters(prev => ({ ...prev, ...newFilters, page: 1 }))] *)
Definition handleFilterChange (newFilters prev : gmap string JsValue) : gmap string JsValue :=
  <["page" := JNum 1]> (spread prev newFilters).

(** [onPageChange={(page) => setFilters(prev => ({ ...prev, page }))}] *)
Definition CasesPage_onPageChange (page : JsValue) (prev : gmap string JsValue)
    : gmap string JsValue :=
  <["page" := page]> prev.

(** The three [onChange] handlers of [CaseFilters]. *)
Definition CaseFilters_search (value : string) : gmap string JsValue → gmap string JsValue :=
  handleFilterChange (obj [("search", JStr value)]).
Definition CaseFilters_status (value : string) : gmap string JsValue → gmap string JsValue :=
  handleFilterChange (obj [("status", JStr value)]).
Definition CaseFilters_case_type (value : string) : gmap string JsValue → gmap string JsValue :=
  handleFilterChange (obj [("case_type", JStr value)]).

(** *** [pages/DocumentsPage.tsx] and [components/documents/DocumentList.tsx] *)

Definition DocumentsPage_initial_filters : gmap string JsValue :=
  obj [("search", JStr ""); ("document_type", JStr ""); ("status", JStr "");
       ("page", JNum 1); ("limit", JNum 20)].

Definition documents_key (filters : gmap string JsValue) : QueryKey := ("documents", filters).

(** The three [onChange] handlers of [DocumentList]; [onFilterChange] is
    the page's [setFilters], so the object built here is the next state. *)
Definition DocumentList_search (value : string) (filters : gmap string JsValue)
    : gmap string JsValue :=
  <["page" := JNum 1]> (<["search" := JStr value]> filters).
Definition DocumentList_document_type (value : string) (filters : gmap string JsValue)
    : gmap string JsValue :=
  <["page" := JNum 1]> (<["document_type" := JStr value]> filters).
Definition DocumentList_status (value : string) (filters : gmap string JsValue)
    : gmap string JsValue :=
  <["page" := JNum 1]> (<["status" := JStr value]> filters).

(** [handleUploadSuccess]: [refetch()] of the documents query. *)
Definition handleUploadSuccess (filters : gmap string JsValue) : Eff unit :=
  emit (Refetch (documents_key filters)).

(** *** [components/forms/NewCaseForm.tsx] (unnamed source [part_012]) *)

Definition NewCaseForm_initial : gmap string JsValue :=
  obj [("title", JStr ""); ("description", JStr ""); ("plaintiff_id", JStr "");
       ("law_firm_id", JStr ""); ("case_type", JStr "auto_accident");
       ("incident_date", JStr ""); ("incident_location", JStr "");
       ("incident_description", JStr ""); ("estimated_case_value", JNum 0);
       ("funding_amount_requested", JNum 0); ("priority", JStr "normal");
       ("notes", JStr "")].

(** The body built by the mutation function. *)
Definition createCase_body (data : gmap string JsValue) : gmap string JsValue :=
  <["funding_amount_requested" :=
      JNum (to_number (prop data "funding_amount_requested") * 100)%float]>
  (<["estimated_case_value" :=
      JNum (to_number (prop data "estimated_case_value") * 100)%float]> data).

Definition createCase_mutationFn (data : gmap string JsValue) : Eff (Outcome Response) :=
  api_post "/cases" (JsonBody (createCase_body data)) ∅.

(** [createCaseMutation.mutate(data)] with its [onSuccess]/[onError].
    The form's optional [onSuccess] prop is given by its presence; calling
    it ([onSuccess?.()]) is recorded as an event, what the parent does in
    it being the parent's business.  [useMutation_logs] is react-query's
    part of a failed mutation. *)
Definition createCaseMutation_mutate (onSuccess : bool)
    (data : gmap string JsValue) : Eff unit :=
  r <- createCase_mutationFn data ;;
  match r with
  | Resolved response =>
      emit (InvalidateQueries "cases") ;;;
      emit (InvalidateQueries "dashboard-stats") ;;;
      toast_success "Case created successfully! AI agents are now processing this case." ;;;
      console_log "Case created:" ;;;
      if onSuccess then emit (PropCallback "onSuccess") else eret tt
  | Rejected error =>
      useMutation_logs error ;;;
      console_error "Failed to create case:"
  end.

(** The required-fields check of [handleSubmit]. *)
Definition missing_required (formData : gmap string JsValue) : bool :=
  negb (truthy (prop formData "title"))
  || negb (truthy (prop formData "plaintiff_id"))
  || negb (truthy (prop formData "law_firm_id")).

Definition handleSubmit (onSuccess : bool) (formData : gmap string JsValue)
    : Eff unit :=
  emit PreventDefault ;;;
  if missing_required formData then
    toast_error (JStr "Please fill in all required fields")
  else
    createCaseMutation_mutate onSuccess formData.

(** [handleChange]: the next form state for a change event of the input
    called [name]. *)
Definition handleChange (name value : string) (prev : gmap string JsValue)
    : gmap string JsValue :=
  <[name := if includes name "amount" || includes name "value"
            then JNum (num_or_zero (parseFloat value))
            else JStr value]> prev.

(** *** The form element of [NewCaseForm] and the browser *)

(** The constraints that the JSX puts on the controls of the form:
    [required] on the title input and on the case type, plaintiff and law
    firm selects; [min="0"] and [step="100"] on the two number inputs.
    The [form] element has [onSubmit={handleSubmit}] and no [noValidate],
    and its submit control is the "Create Case" button. *)
Definition NewCaseForm_required : list string :=
  ["title"; "case_type"; "plaintiff_id"; "law_firm_id"].

(** A required control whose value is the empty string suffers from a
    missing value; for the two selects with a placeholder this is the
    option [<option value="">].  The four controls are fed from string
    properties of the form state ([handleChange] stores the string typed
    or chosen). *)
Definition value_missing (formData : gmap string JsValue) (name : string) : bool :=
  match prop formData name with
  | JStr s => String.eqb s ""
  | _ => false
  end.

(** Whether the browser finds a control of the form invalid.
    [number_input_invalid] is the browser's verdict on a number input with
    [min="0"] and [step="100"] that shows the given number (range
    underflow, step mismatch). *)
Definition NewCaseForm_invalid (number_input_invalid : float → bool)
    (formData : gmap string JsValue) : bool :=
  existsb (value_missing formData) NewCaseForm_required
  || existsb (λ name, number_input_invalid (to_number (prop formData name)))
       ["estimated_case_value"; "funding_amount_requested"].

(** A submission made through the form element (the submit button while
    it is enabled, or Enter in an input).  Browser behaviour, not
    repository code: a form without [noValidate] is validated first, and
    when a control is invalid the browser reports it to the user itself
    and dispatches no [submit] event, so [handleSubmit] does not run. *)
Definition NewCaseForm_submit (number_input_invalid : float → bool) (onSuccess : bool)
    (formData : gmap string JsValue) : Eff unit :=
  if NewCaseForm_invalid number_input_invalid formData then eret tt
  else handleSubmit onSuccess formData.

(** *** [components/documents/DocumentUpload.tsx] *)

Record UploadState := { files : list File; isUploading : bool; caseId : string }.

Definition upload_formData (caseId : string) (file : File) : FormData :=
  let formData := fd_append [] "file" (EntryFile file) in
  if truthy (JStr caseId) then fd_append formData "case_id" (EntryText caseId)
  else formData.

Definition upload_headers : gmap string string :=
  {[ "Content-Type" := "multipart/form-data" ]}.

(** The [for ... of] loop with its [await]: the next file is posted once
    the previous post has resolved; a rejection leaves the loop. *)
Fixpoint upload_each (caseId : string) (fs : list File) : Eff (Outcome unit) :=
  match fs with
  | [] => eret (Resolved tt)
  | file :: rest =>
      r <- api_post "/documents/upload" (MultipartBody (upload_formData caseId file))
                    upload_headers ;;
      match r with
      | Resolved _ => upload_each caseId rest
      | Rejected e => eret (Rejected e)
      end
  end.

(** [handleUpload]; [isUploading] is [true] while the loop runs and reset
    in the [finally] block. *)
Definition handleUpload (onUploadSuccess : Eff unit) (st : UploadState) : Eff UploadState :=
  match files st with
  | [] =>
      toast_error (JStr "Please select files to upload") ;;;
      eret st
  | _ =>
      r <- upload_each (caseId st) (files st) ;;
      match r with
      | Resolved _ =>
          toast_success (pretty (length (files st)) +:+ " document(s) uploaded successfully") ;;;
          onUploadSuccess ;;;
          eret {| files := []; isUploading := false; caseId := "" |}
      | Rejected error =>
          console_error "Upload failed:" ;;;
          eret {| files := files st; isUploading := false; caseId := caseId st |}
      end
  end.

(** The upload widget as mounted by [DocumentsPage]. *)
Definition DocumentsPage_upload (filters : gmap string JsValue) (st : UploadState)
    : Eff UploadState :=
  handleUpload (handleUploadSuccess filters) st.

End Client.

(** The six filter controls of the two list screens, to speak about them
    uniformly. *)
Inductive FilterControl :=
| CasesSearch | CasesStatus | CasesType
| DocumentsSearch | DocumentsType | DocumentsStatus.

Definition control_field (c : FilterControl) : string :=
  match c with
  | CasesSearch | DocumentsSearch => "search"
  | CasesStatus | DocumentsStatus => "status"
  | CasesType => "case_type"
  | DocumentsType => "document_type"
  end.

(** The filter state after the control's [onChange] fires with [value]. *)
Definition control_change (c : FilterControl) (value : string)
    (filters : gmap string JsValue) : gmap string JsValue :=
  match c with
  | CasesSearch => CaseFilters_search value filters
  | CasesStatus => CaseFilters_status value filters
  | CasesType => CaseFilters_case_type value filters
  | DocumentsSearch => DocumentList_search value filters
  | DocumentsType => DocumentList_document_type value filters
  | DocumentsStatus => DocumentList_status value filters
  end.

Definition control_key (c : FilterControl) (filters : gmap string JsValue) : QueryKey :=
  match c with
  | CasesSearch | CasesStatus | CasesType => cases_key filters
  | DocumentsSearch | DocumentsType | DocumentsStatus => documents_key filters
  end.

(** The [name] attributes of the form's controls: the text inputs, selects
    and text areas, and the two [type="number"] inputs. *)
Definition NewCaseForm_text_inputs : list string :=
  ["title"; "case_type"; "plaintiff_id"; "law_firm_id"; "priority"; "incident_date";
   "description"; "incident_location"; "incident_description"; "notes"].

Definition NewCaseForm_number_inputs : list string :=
  ["estimated_case_value"; "funding_amount_requested"].

(** Both amount fields of a form state hold numbers. *)
Definition amounts_numeric (formData : gmap string JsValue) : Prop :=
  ∀ k, k ∈ NewCaseForm_number_inputs → ∃ x, formData !! k = Some (JNum x).

(** Two files to upload. *)
Definition police_report : File :=
  {| file_name := "police-report.pdf"; file_size := 482113; file_type := "application/pdf" |}.
Definition scene_photo : File :=
  {| file_name := "scene.jpg"; file_size := 1930442; file_type := "image/jpeg" |}.

(** The names of the categories in a category list, and the setting keys of
    each. *)
Definition elements_of (v : JsValue) : list JsValue :=
  match v with JArr xs => xs | _ => [] end.

Definition category_names (v : JsValue) : list JsValue :=
  (λ c, opt_get c "name") <$> elements_of v.

Definition category_setting_keys (v : JsValue) : list (list JsValue) :=
  (λ c, (λ s, opt_get s "key") <$> elements_of (opt_get c "settings")) <$> elements_of v.

(** Whether a request got no response at all. *)
Definition no_response (r : Reply) : bool :=
  match r with
  | Replied _ => false
  | NetworkError | TimedOut => true
  end.

(** Whether a reply makes the request resolve. *)
Definition reply_ok (r : Reply) : bool :=
  match r with
  | Replied resp => validateStatus (status resp)
  | _ => false
  end.

(** The error axios rejects with when a reply does not resolve the
    request: it carries the response, if there was one. *)
Definition error_of_reply (r : Reply) : AxiosError :=
  {| err_response := match r with Replied resp => Some resp | _ => None end |}.

(** ** A JSON body on the wire *)

(** axios sends a plain object as [JSON.stringify] writes it.  The functions
    below give the value that a JSON parser reads back from that text:
    built-in behaviour, not repository code.  A number that is not finite
    is written [null], and [-0] is written [0]; a property whose value is
    [undefined] is left out, and [undefined] in an array is written
    [null]. *)
Definition json_number (x : float) : JsValue :=
  if PrimFloat.is_finite x then (if (x =? 0)%float then JNum 0 else JNum x) else JNull.

Fixpoint json_value (v : JsValue) : option JsValue :=
  match v with
  | JUndefined => None
  | JNum x => Some (json_number x)
  | JArr xs => Some (JArr ((λ e, default JNull (json_value e)) <$> xs))
  | JObj props => Some (JObj (omap json_value props))
  | JNull | JBool _ | JStr _ => Some v
  end.

Definition json_body (body : gmap string JsValue) : gmap string JsValue :=
  omap json_value body.

(** ** The numbers that floats stand for *)

(** The rational number a finite binary64 number stands for; the
    infinities and [NaN] stand for none. *)
Definition float_value (x : float) : option Q :=
  match Prim2SF x with
  | S754_zero _ => Some 0%Q
  | S754_finite s m e => Some (inject_Z (cond_Zopp s (Z.pos m)) * 2 ^ e)%Q
  | S754_infinity _ | S754_nan => None
  end.

(** "[y] is exactly [k] times [x]", of the numbers the two stand for. *)
Definition exactly_times (k : Z) (x y : float) : Prop :=
  match float_value x, float_value y with
  | Some vx, Some vy => (vy == inject_Z k * vx)%Q
  | _, _ => False
  end.

(** [x] stands for the whole number [n]. *)
Definition whole_number (x : float) (n : Z) : Prop :=
  match float_value x with
  | Some v => (v == inject_Z n)%Q
  | None => False
  end.

(** The response object the specification describes for a failed
    [updateSetting], for comparison with the one the code builds. *)
Definition spec_mock_update_response : JsValue :=
  JObj (obj [("success", JBool true);
             ("message", JStr "Setting updated successfully (mock)");
             ("requires_restart", JBool false)]).

(** * Further code of the cited files and of their callers *)

(** What a function can end with besides a value: the axios error of a
    rejected request that it lets through, or an error raised on the way. *)
Inductive Thrown :=
| AxiosFailure (e : AxiosError)
| TypeError
| SyntaxError
| JsError (message : string).

Inductive Result (A : Type) :=
| Returned (a : A)
| Threw (t : Thrown).
Arguments Returned {A} a.
Arguments Threw {A} t.

(** ** [contexts/AuthContext.tsx] and the rest of the services *)

Record AuthState := { user : JsValue; isLoading : bool }.

(** [useState(null)], [useState(true)] *)
Definition AuthProvider_initial : AuthState := {| user := JNull; isLoading := true |}.

(** A [string | null] used as a condition. *)
Definition token_present (t : option string) : bool :=
  match t with
  | Some s => negb (String.eqb s "")
  | None => false
  end.

(** [v === s] for a string [s]. *)
Definition is_string (v : JsValue) (s : string) : bool :=
  match v with
  | JStr s' => String.eqb s' s
  | _ => false
  end.

(** [v !== undefined] *)
Definition defined (v : JsValue) : bool :=
  match v with
  | JUndefined => false
  | _ => true
  end.

(** [typeof v === 'number'] *)
Definition is_number (v : JsValue) : bool :=
  match v with
  | JNum _ => true
  | _ => false
  end.

(** [Number.isInteger]: finite, with no fractional part. *)
Definition Number_isInteger (x : float) : bool :=
  match Prim2SF x with
  | S754_zero _ => true
  | S754_finite _ m e => (0 <=? e) || (Z.land (Z.pos m) (Z.ones (- e)) =? 0)
  | S754_infinity _ | S754_nan => false
  end.

(** [{ ...(c && { k: v }) }]: the property is there when [c] is truthy;
    spreading a falsy primitive adds nothing. *)
Definition optional_param (k : string) (c : JsValue) : gmap string JsValue :=
  if truthy c then {[ k := c ]} else ∅.

(** An optional string or number argument as the value it has at run time. *)
Definition opt_string (s : option string) : JsValue :=
  match s with Some s => JStr s | None => JUndefined end.
Definition opt_number (x : option float) : JsValue :=
  match x with Some x => JNum x | None => JUndefined end.

Section Services.

Variable backend : nat → Request → Reply.
Variable StringToNumber : string → float.
Variable ObjectToNumber : JsValue → float.
Variable NumberToString : float → string.
(** [String(v)] on arrays and objects. *)
Variable ObjectToString : JsValue → string.

(** ToString, as applied by template literals, [String(v)] and
    [localStorage.setItem]. *)
Definition js_to_string (v : JsValue) : string :=
  match v with
  | JUndefined => "undefined"
  | JNull => "null"
  | JBool b => if b then "true" else "false"
  | JNum x => NumberToString x
  | JStr s => s
  | JArr _ | JObj _ => ObjectToString v
  end.

Definition api_delete (path : string) (params : gmap string JsValue) : Eff (Outcome Response) :=
  api_request backend DELETE path params NoBody ∅.

(** *** [AuthProvider] *)

(** [checkAuth] *)
Definition checkAuth (st : AuthState) : Eff AuthState :=
  r <- api_get backend "/auth/me" ∅ ;;
  match r with
  | Resolved response => eret {| user := data response; isLoading := false |}
  | Rejected error =>
      localStorage_removeItem "auth_token" ;;;
      delete_default_header "Authorization" ;;;
      eret {| user := user st; isLoading := false |}
  end.

(** The mount effect of the provider. *)
Definition AuthProvider_mount (st : AuthState) : Eff AuthState :=
  token <- localStorage_getItem "auth_token" ;;
  match token with
  | Some t =>
      if token_present token then
        set_default_header "Authorization" ("Bearer " +:+ t) ;;;
        checkAuth st
      else
        eret {| user := user st; isLoading := false |}
  | None => eret {| user := user st; isLoading := false |}
  end.

(** [login(email, password)]; destructuring [response.data] raises a
    TypeError when it is [null] or [undefined]. *)
Definition login (email password : string) (st : AuthState) : Eff (Result AuthState) :=
  r <- api_post backend "/auth/login"
         (JsonBody (obj [("email", JStr email); ("password", JStr password)])) ∅ ;;
  match r with
  | Rejected error => eret (Threw (AxiosFailure error))
  | Resolved response =>
      match data response with
      | JUndefined | JNull => eret (Threw TypeError)
      | d =>
          let access_token := opt_get d "access_token" in
          let userData := opt_get d "user" in
          localStorage_setItem "auth_token" (js_to_string access_token) ;;;
          set_default_header "Authorization" ("Bearer " +:+ js_to_string access_token) ;;;
          eret (Returned {| user := userData; isLoading := isLoading st |})
      end
  end.

(** [logout()] *)
Definition logout (st : AuthState) : Eff AuthState :=
  localStorage_removeItem "auth_token" ;;;
  delete_default_header "Authorization" ;;;
  eret {| user := JNull; isLoading := isLoading st |}.

(** *** [SettingsService], the methods besides [getCategories] and
    [updateSetting] *)

(** [mockCategories.find(cat => cat.name === categoryName)] *)
Definition find_category (categoryName : string) (categories : JsValue) : option JsValue :=
  List.find (λ cat, is_string (opt_get cat "name") categoryName) (elements_of categories).

(** [getCategorySettings(categoryName, userId?)] *)
Definition getCategorySettings (categoryName : string) (userId : option float)
    : Eff (Result JsValue) :=
  r <- api_get backend (settings_baseUrl +:+ "/category/" +:+ categoryName)
         (if truthy (opt_number userId) then obj [("user_id", opt_number userId)] else ∅) ;;
  match r with
  | Resolved response => eret (Returned (data response))
  | Rejected error =>
      console_error ("Failed to fetch settings for category " +:+ categoryName +:+ ":") ;;;
      match find_category categoryName getMockCategories with
      | Some category => eret (Returned category)
      | None => eret (Threw (JsError ("Category " +:+ categoryName +:+ " not found")))
      end
  end.

Definition mockAgentSettings : JsValue :=
  JArr [
    JObj (obj [("id", JNum 1); ("agent_type", JStr "lead_intake"); ("agent_id", JUndefined);
               ("setting_key", JStr "auto_assign"); ("setting_value", JStr "true");
               ("data_type", JStr "boolean"); ("is_enabled", JBool true);
               ("typed_value", JBool true)]);
    JObj (obj [("id", JNum 2); ("agent_type", JStr "risk_assessment"); ("agent_id", JUndefined);
               ("setting_key", JStr "ai_model"); ("setting_value", JStr "gpt-3.5-turbo");
               ("data_type", JStr "string"); ("is_enabled", JBool true);
               ("typed_value", JStr "gpt-3.5-turbo")])
  ].

(** [getAgentSettings(agentType?, agentId?)] *)
Definition getAgentSettings (agentType agentId : option string) : Eff (Result JsValue) :=
  r <- api_get backend (settings_baseUrl +:+ "/agents")
         (spread (optional_param "agent_type" (opt_string agentType))
                 (optional_param "agent_id" (opt_string agentId))) ;;
  match r with
  | Resolved response => eret (Returned (data response))
  | Rejected error =>
      console_error "Failed to fetch agent settings:" ;;;
      eret (Returned mockAgentSettings)
  end.

(** [await api.<method>(...); return response.data] with no [try]. *)
Definition return_data (o : Outcome Response) : Result JsValue :=
  match o with
  | Resolved response => Returned (data response)
  | Rejected error => Threw (AxiosFailure error)
  end.

(** [updateAgentSetting(agentType, settingKey, updateRequest, agentId?)] *)
Definition updateAgentSetting (agentType settingKey : string)
    (updateRequest : gmap string JsValue) (agentId : option string) : Eff (Result JsValue) :=
  r <- api_request backend PUT
         (settings_baseUrl +:+ "/agents/" +:+ agentType +:+ "/" +:+ settingKey)
         (if truthy (opt_string agentId) then obj [("agent_id", opt_string agentId)] else ∅)
         (JsonBody updateRequest) ∅ ;;
  eret (return_data r).

(** [deleteAgentSetting(agentType, settingKey, agentId?)] *)
Definition deleteAgentSetting (agentType settingKey : string) (agentId : option string)
    : Eff (Result JsValue) :=
  r <- api_delete (settings_baseUrl +:+ "/agents/" +:+ agentType +:+ "/" +:+ settingKey)
         (if truthy (opt_string agentId) then obj [("agent_id", opt_string agentId)] else ∅) ;;
  eret (return_data r).

(** [getProfiles()] *)
Definition getProfiles : Eff (Result JsValue) :=
  r <- api_get backend (settings_baseUrl +:+ "/profiles") ∅ ;;
  eret (return_data r).

(** [resetToDefaults(categoryName?, userId?)] *)
Definition resetToDefaults (categoryName : option string) (userId : option float)
    : Eff (Result JsValue) :=
  r <- api_request backend POST (settings_baseUrl +:+ "/reset-to-defaults")
         (spread (optional_param "category_name" (opt_string categoryName))
                 (optional_param "user_id" (opt_number userId)))
         (JsonBody ∅) ∅ ;;
  eret (return_data r).

End Services.

(** *** [SettingsService.validateSettingValue] *)

(** The [Setting] interface. *)
Record Setting := {
  setting_id : float;
  setting_category_id : float;
  setting_key : string;
  setting_display_name : string;
  setting_description : option string;
  setting_data_type : string;
  setting_default_value : option string;
  setting_current_value : option string;
  setting_value : JsValue;
  setting_validation_rules : option (gmap string JsValue);
  setting_ui_component : option string;
  setting_ui_options : option (gmap string JsValue);
  setting_is_sensitive : bool;
  setting_is_readonly : bool;
  setting_is_required : bool;
  setting_requires_restart : bool;
  setting_sort_order : float;
  setting_is_active : bool
}.

(** [{ isValid: boolean; error?: string }] *)
Record Validation := { isValid : bool; error : option string }.

Definition valid : Validation := {| isValid := true; error := None |}.
Definition invalid (message : string) : Validation :=
  {| isValid := false; error := Some message |}.

(** [value === null || value === undefined || value === ''] *)
Definition is_blank (value : JsValue) : bool :=
  match value with
  | JNull | JUndefined => true
  | JStr s => String.eqb s ""
  | _ => false
  end.

Section Validation.

Variable StringToNumber : string → float.
Variable ObjectToNumber : JsValue → float.
Variable NumberToString : float → string.
Variable ObjectToString : JsValue → string.
(** The [length] of a string. *)
Variable String_length : string → float.
(** [new RegExp(pattern).test(s)]; [None] when the pattern does not
    compile. *)
Variable RegExp_test : JsValue → string → option bool.
(** Whether two arrays or objects are the same object. *)
Variable same_object : JsValue → JsValue → bool.

(** The comparison of [Array.prototype.includes]. *)
Definition same_value_zero (a b : JsValue) : bool :=
  match a, b with
  | JUndefined, JUndefined => true
  | JNull, JNull => true
  | JBool x, JBool y => Bool.eqb x y
  | JNum x, JNum y => PrimFloat.eqb x y || (PrimFloat.is_nan x && PrimFloat.is_nan y)
  | JStr x, JStr y => String.eqb x y
  | (JArr _ | JObj _), (JArr _ | JObj _) => same_object a b
  | _, _ => false
  end.

(** [xs.join(sep)] *)
Fixpoint array_join (sep : string) (xs : list JsValue) : string :=
  let show (v : JsValue) :=
    match v with
    | JUndefined | JNull => ""
    | _ => js_to_string NumberToString ObjectToString v
    end in
  match xs with
  | [] => ""
  | [x] => show x
  | x :: rest => show x +:+ sep +:+ array_join sep rest
  end.

(** The [min]/[max] checks shared by the integer and the float case. *)
Definition range_checks (name : string) (rules : gmap string JsValue) (value : JsValue)
    : Validation :=
  let number := to_number StringToNumber ObjectToNumber in
  let text := js_to_string NumberToString ObjectToString in
  if defined (prop rules "min") && (number value <? number (prop rules "min"))%float then
    invalid (name +:+ " must be at least " +:+ text (prop rules "min"))
  else if defined (prop rules "max") && (number (prop rules "max") <? number value)%float then
    invalid (name +:+ " cannot exceed " +:+ text (prop rules "max"))
  else valid.

Definition validateSettingValue (setting : Setting) (value : JsValue) : Result Validation :=
  let number := to_number StringToNumber ObjectToNumber in
  let text := js_to_string NumberToString ObjectToString in
  let name := setting_display_name setting in
  match setting_validation_rules setting with
  | None => Returned valid
  | Some rules =>
      if setting_is_required setting && is_blank value then
        Returned (invalid (name +:+ " is required"))
      else if String.eqb (setting_data_type setting) "integer" then
        if negb (is_number value) && negb (Number_isInteger (number value)) then
          Returned (invalid (name +:+ " must be a whole number"))
        else Returned (range_checks name rules value)
      else if String.eqb (setting_data_type setting) "float" then
        if negb (is_number value) && PrimFloat.is_nan (number value) then
          Returned (invalid (name +:+ " must be a number"))
        else Returned (range_checks name rules value)
      else if String.eqb (setting_data_type setting) "string" then
        if defined (prop rules "minLength")
           && (String_length (text value) <? number (prop rules "minLength"))%float then
          Returned (invalid (name +:+ " must be at least "
                             +:+ text (prop rules "minLength") +:+ " characters"))
        else if defined (prop rules "maxLength")
                && (number (prop rules "maxLength") <? String_length (text value))%float then
          Returned (invalid (name +:+ " cannot exceed "
                             +:+ text (prop rules "maxLength") +:+ " characters"))
        else if truthy (prop rules "pattern") then
          match RegExp_test (prop rules "pattern") (text value) with
          | None => Threw SyntaxError
          | Some true => Returned valid
          | Some false => Returned (invalid (name +:+ " format is invalid"))
          end
        else Returned valid
      else if String.eqb (setting_data_type setting) "select" then
        if truthy (prop rules "options") then
          match prop rules "options" with
          | JArr options =>
              if existsb (same_value_zero value) options then Returned valid
              else Returned (invalid (name +:+ " must be one of: " +:+ array_join ", " options))
          | JStr options =>
              if includes options (text value) then Returned valid
              else Threw TypeError
          | _ => Threw TypeError
          end
        else Returned valid
      else Returned valid
  end.

End Validation.

(** ** [DocumentUpload]: the selection *)

(** [xs.filter((x, i) => p(x, i))], from index [i] on. *)
Fixpoint filter_indexed {A} (p : A → nat → bool) (i : nat) (xs : list A) : list A :=
  match xs with
  | [] => []
  | x :: rest =>
      if p x i then x :: filter_indexed p (S i) rest
      else filter_indexed p (S i) rest
  end.

(** [removeFile(index)] *)
Definition removeFile (index : nat) (st : UploadState) : UploadState :=
  {| files := filter_indexed (λ _ i, negb (i =? index)%nat) 0 (files st);
     isUploading := isUploading st;
     caseId := caseId st |}.

(** [onDrop]: the accepted files are added after the ones already chosen. *)
Definition onDrop (acceptedFiles : list File) (st : UploadState) : UploadState :=
  {| files := files st ++ acceptedFiles;
     isUploading := isUploading st;
     caseId := caseId st |}.

(** The request that posts one file of the selection. *)
Definition upload_request (cid : string) (w : World) (f : File) : Request :=
  build_request POST "/documents/upload" ∅ (MultipartBody (upload_formData cid f))
    upload_headers w.

(** The network events of posting the files one after the other, the
    first of them being the backend's request number [n]. *)
Fixpoint upload_trace (backend : nat → Request → Reply) (cid : string) (w : World)
    (n : nat) (fs : list File) : list Event :=
  match fs with
  | [] => []
  | f :: rest =>
      Sent (upload_request cid w f)
      :: Settled (backend n (upload_request cid w f))
      :: upload_trace backend cid w (S n) rest
  end.

(** ** The rest of the two realtime services *)

Definition console_warn (msg : string) : Eff unit := emit (Console LWarn msg).

(** The remaining methods of the [WebSocket]-based service.  A listener
    is known by an identifier; what it does when called is its own
    business, except that it may throw, which [emit] catches. *)
Module NativeWsApi.

Import NativeWs.

Definition with_ws (this : WebSocketService) (s : option ReadyState) : WebSocketService :=
  {| ws := s;
     eventListeners := eventListeners this;
     reconnectAttempts := reconnectAttempts this;
     maxReconnectAttempts := maxReconnectAttempts this;
     reconnectDelay := reconnectDelay this |}.

Definition with_listeners (this : WebSocketService) (m : gmap string (list nat))
    : WebSocketService :=
  {| ws := ws this;
     eventListeners := m;
     reconnectAttempts := reconnectAttempts this;
     maxReconnectAttempts := maxReconnectAttempts this;
     reconnectDelay := reconnectDelay this |}.

(** [Set.prototype.add] and [Set.prototype.delete], on a set kept in
    insertion order. *)
Definition set_add (callback : nat) (s : list nat) : list nat :=
  if decide (callback ∈ s) then s else s ++ [callback].

Definition set_delete (callback : nat) (s : list nat) : list nat :=
  filter (λ c, c ≠ callback) s.

(** [disconnect()], with the arguments of [ws.close] if it was called. *)
Definition disconnect (this : WebSocketService) : WebSocketService * option (Z * string) :=
  match ws this with
  | Some _ => (with_ws this None, Some (1000, "Client disconnect"))
  | None => (this, None)
  end.

(** [on(event, callback)] *)
Definition on (event : string) (callback : nat) (this : WebSocketService) : WebSocketService :=
  let listeners :=
    match eventListeners this !! event with
    | Some _ => eventListeners this
    | None => <[event := []]> (eventListeners this)
    end in
  with_listeners this
    (<[event := set_add callback (default [] (listeners !! event))]> listeners).

(** [off(event, callback?)] *)
Definition off (event : string) (callback : option nat) (this : WebSocketService)
    : WebSocketService :=
  match callback, eventListeners this !! event with
  | Some cb, Some s => with_listeners this (<[event := set_delete cb s]> (eventListeners this))
  | Some _, None => this
  | None, _ => with_listeners this (delete event (eventListeners this))
  end.

(** The [forEach] of [emit]: every listener is called; one that throws is
    reported on the console and the next one is called. *)
Fixpoint call_each (throws : nat → JsValue → bool) (event : string) (data : JsValue)
    (listeners : list nat) : Eff (list nat) :=
  match listeners with
  | [] => eret []
  | callback :: rest =>
      (if throws callback data
       then console_error ("Error in WebSocket event listener for " +:+ event +:+ ":")
       else eret tt) ;;;
      called <- call_each throws event data rest ;;
      eret (callback :: called)
  end.

(** [send(data)], with the value handed to the socket if it is open. *)
Definition send (data : JsValue) (this : WebSocketService) : Eff (option JsValue) :=
  if is_open (ws this) then eret (Some data)
  else
    console_warn "WebSocket is not connected" ;;;
    eret None.

(** [emit(event, data)], with the listeners it called, in call order. *)
Definition emit (throws : nat → JsValue → bool) (event : string) (data : JsValue)
    (this : WebSocketService) : Eff (list nat) :=
  match eventListeners this !! event with
  | Some listeners => call_each throws event data listeners
  | None => eret []
  end.

(** A call of one of the service's methods, and a sequence of them on the
    one [wsService] instance. *)
Inductive Call :=
| CallConnect
| CallDisconnect
| CallOn (event : string) (callback : nat)
| CallOff (event : string) (callback : option nat)
| CallEmit (event : string) (data : JsValue)
| CallSend (data : JsValue).

Definition call (throws : nat → JsValue → bool) (c : Call) (this : WebSocketService)
    : Eff WebSocketService :=
  match c with
  | CallConnect => connect this
  | CallDisconnect => eret (disconnect this).1
  | CallOn event callback => eret (on event callback this)
  | CallOff event callback => eret (off event callback this)
  | CallEmit event data => _ <- emit throws event data this ;; eret this
  | CallSend data => _ <- send data this ;; eret this
  end.

Fixpoint calls (throws : nat → JsValue → bool) (cs : list Call) (this : WebSocketService)
    : Eff WebSocketService :=
  match cs with
  | [] => eret this
  | c :: rest => s <- call throws c this ;; calls throws rest s
  end.

(** The listeners of an event, none when the event is unknown. *)
Definition listeners_of (event : string) (this : WebSocketService) : list nat :=
  default [] (eventListeners this !! event).

End NativeWsApi.

(** The remaining methods of the socket.io service that can be told
    apart with the handlers kept by event name. *)
Module SocketIoApi.

Import SocketIo.

(** [disconnect()], and whether [socket.disconnect()] was called. *)
Definition disconnect (this : WebSocketService) : WebSocketService * bool :=
  match socket this with
  | Some _ => ({| socket := None |}, true)
  | None => (this, false)
  end.

(** [on(event, callback)] *)
Definition on (event : string) (this : WebSocketService) : Eff WebSocketService :=
  match socket this with
  | Some s =>
      emit (SocketIoOn event) ;;;
      eret {| socket := Some {| sock_connected := sock_connected s;
                                sock_auth_token := sock_auth_token s;
                                sock_handlers := sock_handlers s ++ [event] |} |}
  | None => eret this
  end.

(** [emit(event, data)], with what was handed to the socket. *)
Definition emit_event (event : string) (data : JsValue) (this : WebSocketService)
    : option (string * JsValue) :=
  match socket this with
  | Some _ => Some (event, data)
  | None => None
  end.

(** The handshake completing: socket.io marks the socket connected. *)
Definition handshake_done (this : WebSocketService) : WebSocketService :=
  match socket this with
  | Some s => {| socket := Some {| sock_connected := true;
                                   sock_auth_token := sock_auth_token s;
                                   sock_handlers := sock_handlers s |} |}
  | None => this
  end.

End SocketIoApi.

(** Traces that only hold console lines, and what a world may differ in
    after a call that only writes to the console. *)
Definition console_only (es : list Event) : Prop :=
  Forall (λ e, ∃ l msg, e = Console l msg) es.

Definition console_step (w w' : World) : Prop :=
  localStorage w' = localStorage w
  ∧ defaults_common w' = defaults_common w
  ∧ location_href w' = location_href w
  ∧ ∃ es, trace w' = trace w ++ es ∧ console_only es.


(** No listener is held twice for an event. *)
Definition listeners_distinct (this : NativeWs.WebSocketService) : Prop :=
  ∀ e, NoDup (NativeWsApi.listeners_of e this).

(** Every request is rejected. *)
Definition backend_down (b : nat → Request → Reply) : Prop :=
  ∀ n r, reply_ok (b n r) = false.

(** ** Concrete settings and built-ins used to run the further code *)

(** A browser's check of a number input with [min="0"] and [step="100"],
    for the amounts of the runs below: the value must not be negative and
    must be a multiple of 100. *)
Definition whole_hundreds_only (x : float) : bool :=
  negb (0 <=? x)%float || negb (Number_isInteger (x / 100)%float).

(** A browser with nobody signed in, on the login page. *)
Definition empty_session : World :=
  {| localStorage := ∅; defaults_common := ∅; location_href := "/login"; trace := [] |}.

(** The two settings of the mock categories that carry rules, as
    [Setting] records. *)
Definition health_check_interval_setting : Setting :=
  {| setting_id := 3; setting_category_id := 2;
     setting_key := "agent_health_check_interval";
     setting_display_name := "Agent Health Check Interval (seconds)";
     setting_description := Some "How often to check agent health status";
     setting_data_type := "integer";
     setting_default_value := Some "30"; setting_current_value := Some "30";
     setting_value := JNum 30;
     setting_validation_rules := Some (obj [("min", JNum 10); ("max", JNum 300)]);
     setting_ui_component := Some "input"; setting_ui_options := Some ∅;
     setting_is_sensitive := false; setting_is_readonly := false;
     setting_is_required := true; setting_requires_restart := true;
     setting_sort_order := 1; setting_is_active := true |}.

Definition log_level_options : list string :=
  ["DEBUG"; "INFO"; "WARNING"; "ERROR"; "CRITICAL"].

Definition log_level_setting : Setting :=
  {| setting_id := 1; setting_category_id := 1;
     setting_key := "log_level";
     setting_display_name := "Log Level";
     setting_description := Some "Minimum log level for system logging";
     setting_data_type := "select";
     setting_default_value := Some "INFO"; setting_current_value := Some "INFO";
     setting_value := JStr "INFO";
     setting_validation_rules := Some (obj [("options", JArr (JStr <$> log_level_options))]);
     setting_ui_component := Some "select";
     setting_ui_options := Some (obj [("options", JArr (JStr <$> log_level_options))]);
     setting_is_sensitive := false; setting_is_readonly := false;
     setting_is_required := true; setting_requires_restart := false;
     setting_sort_order := 1; setting_is_active := true |}.

(** Stand-ins for built-ins that the runs below do not reach. *)
Definition object_string : JsValue → string := λ _, "[object Object]".
Definition zero_length : string → float := λ _, 0%float.
Definition no_regexp : JsValue → string → option bool := λ _ _, None.
Definition never_same : JsValue → JsValue → bool := λ _ _, false.
Definition never_throws : nat → JsValue → bool := λ _ _, false.

(** A third file, and the reply to a successful login. *)
Definition medical_record : File :=
  {| file_name := "er-visit.pdf"; file_size := 88120; file_type := "application/pdf" |}.

Definition login_reply : Reply :=
  reply_status 200
    (JObj (obj [("access_token", JStr "tok-9");
                ("user", JObj (obj [("id", JStr "u-1"); ("email", JStr "admin@example.com");
                                    ("role", JStr "admin"); ("permissions", JArr [])]))])).

(** * Properties *)

Section Properties.

Context (backend : nat → Request → Reply).
Context (parseFloat StringToNumber : string → float).
Context (ObjectToNumber : JsValue → float).
Context (NumberToString : float → string).

(** ** Traces *)

Lemma appended_app (w w' : World) (es : list Event) :
  trace w' = trace w ++ es → appended w w' = es.
Proof. intros H. unfold appended. rewrite H. apply drop_app_length. Qed.

Lemma appended_refl (w : World) : appended w w = [].
Proof. unfold appended. apply drop_all. Qed.

Lemma sent_of_app (t1 t2 : list Event) : sent_of (t1 ++ t2) = sent_of t1 ++ sent_of t2.
Proof. apply filter_app. Qed.

(** ** The response interceptor *)

(** The world and trace after the rejection handler, by cases. *)
Lemma interceptor_401 (error : AxiosError) (w : World) :
  status_is_401 error = true →
  response_interceptor_rejected error w =
    (Rejected error,
     {| localStorage := delete "auth_token" (localStorage w);
        defaults_common := delete "Authorization" (defaults_common w);
        location_href := "/login";
        trace := trace w |}).
Proof. intros H. unfold response_interceptor_rejected, ebind. rewrite H. reflexivity. Qed.

Lemma interceptor_not_401 (error : AxiosError) (w : World) :
  status_is_401 error = false →
  ∃ msg,
    response_interceptor_rejected error w =
      (Rejected error,
       {| localStorage := localStorage w;
          defaults_common := defaults_common w;
          location_href := location_href w;
          trace := trace w ++ [Toast TError msg] |})
    ∧ msg = (if status_ge_500 error then JStr "Server error. Please try again later."
             else if truthy (error_detail error) then error_detail error
             else JStr "An unexpected error occurred").
Proof.
  intros H. unfold response_interceptor_rejected, ebind. rewrite H.
  destruct (status_ge_500 error); [eexists; split; reflexivity|].
  destruct (truthy (error_detail error)); eexists; split; reflexivity.
Qed.

(** A request unfolds into its two network events followed by the
    interceptor on the outcome. *)
Lemma api_request_run m path params body headers (w : World) :
  let r := build_request m path params body headers w in
  let reply := backend (length (sent_of (trace w))) r in
  let w1 := {| localStorage := localStorage w;
               defaults_common := defaults_common w;
               location_href := location_href w;
               trace := trace w ++ [Sent r; Settled reply] |} in
  api_request backend m path params body headers w =
    match reply with
    | Replied resp =>
        if validateStatus (status resp) then (Resolved resp, w1)
        else response_interceptor_rejected {| err_response := Some resp |} w1
    | _ => response_interceptor_rejected {| err_response := None |} w1
    end.
Proof.
  intros r reply w1. unfold api_request. fold r. fold reply.
  unfold ebind, emit. simpl. rewrite <- app_assoc. simpl. fold w1.
  destruct reply as [resp| |]; try reflexivity.
  unfold response_interceptor_fulfilled, eret.
  destruct (validateStatus (status resp)); reflexivity.
Qed.

(** C1. A 401 reply to any request made through the shared client leaves
    no stored auth token, no default [Authorization] header, and the
    browser on [/login], whatever the request and whatever the state
    before it. *)
Theorem api_401_clears_session_and_redirects
    (m : Method) (path : string) (params : gmap string JsValue) (body : Body)
    (headers : gmap string string) (w : World) (resp : Response) :
  backend (length (sent_of (trace w))) (build_request m path params body headers w)
    = Replied resp →
  status resp = 401 →
  let w' := (api_request backend m path params body headers w).2 in
  localStorage w' !! "auth_token" = None
  ∧ defaults_common w' !! "Authorization" = None
  ∧ location_href w' = "/login".
Proof.
  intros Hrep Hst. rewrite api_request_run. rewrite Hrep.
  unfold validateStatus. rewrite Hst. simpl.
  rewrite interceptor_401 by (unfold status_is_401; simpl; rewrite Hst; reflexivity).
  simpl. split; [apply lookup_delete_eq|]. split; [apply lookup_delete_eq|reflexivity].
Qed.




(** C3 (as amended). A request that gets no response at all (connection
    failure or timeout) shows exactly one toast, "An unexpected error
    occurred": the fallback of the last branch, which a response below 500
    without a [detail] also reaches.  A 5xx response shows "Server error.
    Please try again later." instead, so the two failures are told apart
    by their text. *)
Theorem no_response_shows_unexpected_error_toast
    (m : Method) (path : string) (params : gmap string JsValue) (body : Body)
    (headers : gmap string string) (w : World) (resp : Response) :
  no_response (backend (length (sent_of (trace w)))
                       (build_request m path params body headers w)) = true →
  500 ≤ status resp →
  toasts_of (appended w (api_request backend m path params body headers w).2)
    = [Toast TError (JStr "An unexpected error occurred")]
  ∧ toasts_of (appended w (response_interceptor_rejected {| err_response := Some resp |} w).2)
    = [Toast TError (JStr "Server error. Please try again later.")].
Proof.
  intros Hno Hst. split.
  - rewrite api_request_run.
    destruct (backend _ _) as [r| |] eqn:Hrep; [discriminate| |];
      unfold response_interceptor_rejected, ebind; simpl;
      (erewrite appended_app; [|simpl; rewrite <- app_assoc; reflexivity]);
      reflexivity.
  - set (e := {| err_response := Some resp |}).
    assert (status_is_401 e = false) as H401.
    { unfold status_is_401, e. simpl. apply Z.eqb_neq. lia. }
    destruct (interceptor_not_401 e w H401) as [msg [-> Hmsg]].
    assert (status_ge_500 e = true) as H500.
    { unfold status_ge_500, e. simpl. apply Z.leb_le. lia. }
    rewrite H500 in Hmsg. subst msg. simpl.
    erewrite appended_app; [|reflexivity]. reflexivity.
Qed.

(** ** Filters and query keys *)

Lemma obj_singleton (k : string) (v : JsValue) : obj [(k, v)] = <[k := v]> ∅.
Proof. reflexivity. Qed.

(** [handleFilterChange] always lands on page 1, and takes every property
    of [newFilters] other than [page]. *)
Lemma handleFilterChange_page (newFilters prev : gmap string JsValue) :
  handleFilterChange newFilters prev !! "page" = Some (JNum 1).
Proof. unfold handleFilterChange. apply lookup_insert_eq. Qed.

Lemma handleFilterChange_takes (newFilters prev : gmap string JsValue) k v :
  k ≠ "page" → newFilters !! k = Some v →
  handleFilterChange newFilters prev !! k = Some v.
Proof.
  intros Hk Hv. unfold handleFilterChange, spread.
  rewrite lookup_insert_ne by done. by apply lookup_union_Some_l.
Qed.

(** C4. On the cases and the documents screen, a change of the search
    text, the status or the type filter to a value other than the current
    one yields a filter state on page 1 whose query key (endpoint and
    filter object) is not the previous key. *)
Theorem filter_change_resets_page_and_changes_key
    (c : FilterControl) (value : string) (prev : gmap string JsValue) :
  prev !! control_field c ≠ Some (JStr value) →
  control_change c value prev !! "page" = Some (JNum 1)
  ∧ control_key c (control_change c value prev) ≠ control_key c prev.
Proof.
  intros Hchg. split.
  - destruct c; simpl; apply lookup_insert_eq.
  - intros Heq. apply Hchg. clear Hchg.
    assert (control_change c value prev = prev) as Hm.
    { destruct c; injection Heq as Heq; exact Heq. }
    rewrite <- Hm at 1. clear.
    destruct c; simpl;
      [ unfold CaseFilters_search | unfold CaseFilters_status
      | unfold CaseFilters_case_type | unfold DocumentList_search
      | unfold DocumentList_document_type | unfold DocumentList_status ];
      try (apply handleFilterChange_takes; [done | rewrite obj_singleton; apply lookup_insert_eq]);
      (rewrite lookup_insert_ne by done); apply lookup_insert_eq.
Qed.

(** ** Running effects *)

Lemma ebind_run {A B} (m : Eff A) (k : A → Eff B) (w : World) :
  ebind m k w = k (m w).1 (m w).2.
Proof. unfold ebind. destruct (m w). reflexivity. Qed.

Lemma sent_of_toasts (tl : list Event) :
  Forall (λ e, is_toast e = true) tl → sent_of tl = [].
Proof.
  induction 1 as [|e tl He _ IH]; [reflexivity|].
  unfold sent_of in *. rewrite filter_cons, IH.
  destruct e; simpl in *; try discriminate; reflexivity.
Qed.

Lemma refetches_of_toasts (tl : list Event) :
  Forall (λ e, is_toast e = true) tl → refetches_of tl = [].
Proof.
  induction 1 as [|e tl He _ IH]; [reflexivity|].
  unfold refetches_of in *. rewrite filter_cons, IH.
  destruct e; simpl in *; try discriminate; reflexivity.
Qed.

(** What any request does: the request and its reply enter the trace,
    followed by at most toasts; a 2xx reply resolves and touches nothing
    else, any other outcome rejects. *)
Lemma api_request_spec m path params body headers (w : World) :
  let r := build_request m path params body headers w in
  let reply := backend (length (sent_of (trace w))) r in
  ∃ o w' tl,
    api_request backend m path params body headers w = (o, w')
    ∧ trace w' = trace w ++ Sent r :: Settled reply :: tl
    ∧ Forall (λ e, is_toast e = true) tl
    ∧ (reply_ok reply = true →
         tl = [] ∧ (∃ resp, reply = Replied resp ∧ o = Resolved resp)
         ∧ localStorage w' = localStorage w
         ∧ defaults_common w' = defaults_common w
         ∧ location_href w' = location_href w)
    ∧ (reply_ok reply = false → ∃ e, o = Rejected e).
Proof.
  intros r reply. pose proof (api_request_run m path params body headers w) as Hrun.
  simpl in Hrun. fold r in Hrun. fold reply in Hrun. rewrite Hrun. clear Hrun.
  set (w1 := {| localStorage := localStorage w; defaults_common := defaults_common w;
                location_href := location_href w;
                trace := trace w ++ [Sent r; Settled reply] |}).
  assert (∀ e, ∃ o w' tl,
            response_interceptor_rejected e w1 = (o, w')
            ∧ trace w' = trace w ++ Sent r :: Settled reply :: tl
            ∧ Forall (λ e, is_toast e = true) tl
            ∧ ∃ e', o = Rejected e') as Hrej.
  { intros e. destruct (status_is_401 e) eqn:H401.
    - rewrite interceptor_401 by done. do 2 eexists. exists []. split; [reflexivity|].
      simpl. split; [reflexivity|]. split; [constructor|]. by eexists.
    - destruct (interceptor_not_401 e w1 H401) as [msg [-> _]].
      do 2 eexists. exists [Toast TError msg]. split; [reflexivity|].
      simpl. rewrite <- app_assoc. split; [reflexivity|].
      split; [by repeat constructor|]. by eexists. }
  destruct reply as [resp| |] eqn:Hreply; simpl.
  - destruct (validateStatus (status resp)) eqn:Hv.
    + exists (Resolved resp), w1, [].
      split; [reflexivity|]. split; [reflexivity|]. split; [constructor|].
      split; [|intros; congruence].
      intros _. split; [reflexivity|]. split; [by exists resp|]. done.
    + destruct (Hrej {| err_response := Some resp |}) as (o & w' & tl & -> & Htr & Htl & He).
      exists o, w', tl. do 3 (split; [done|]). split; [intros; congruence|done].
  - destruct (Hrej {| err_response := None |}) as (o & w' & tl & -> & Htr & Htl & He).
    exists o, w', tl. do 3 (split; [done|]). split; [intros; congruence|done].
  - destruct (Hrej {| err_response := None |}) as (o & w' & tl & -> & Htr & Htl & He).
    exists o, w', tl. do 3 (split; [done|]). split; [intros; congruence|done].
Qed.

(** ** The new-case form *)

(** What a submission that passes the required-fields check sends: one
    POST of the scaled body, whatever the reply. *)
Lemma handleSubmit_valid_sends (onSuccess : bool) (formData : gmap string JsValue) (w : World) :
  missing_required formData = false →
  sent_of (appended w
    (handleSubmit backend StringToNumber ObjectToNumber onSuccess formData w).2)
  = [Sent (build_request POST "/cases" ∅
             (JsonBody (createCase_body StringToNumber ObjectToNumber formData)) ∅ w)].
Proof.
  intros Hok. unfold handleSubmit. rewrite Hok. rewrite ebind_run.
  set (w1 := (emit PreventDefault w).2).
  unfold createCaseMutation_mutate, createCase_mutationFn, api_post. rewrite ebind_run.
  destruct (api_request_spec POST "/cases" ∅
              (JsonBody (createCase_body StringToNumber ObjectToNumber formData)) ∅ w1)
    as (o & w' & tl & Heq & Htr & Htl & _ & _).
  rewrite Heq. simpl.
  change (build_request POST "/cases" ∅
            (JsonBody (createCase_body StringToNumber ObjectToNumber formData)) ∅ w1)
    with (build_request POST "/cases" ∅
            (JsonBody (createCase_body StringToNumber ObjectToNumber formData)) ∅ w) in Htr.
  set (r := build_request _ _ _ _ _ w) in *.
  change (trace w1) with (trace w ++ [PreventDefault]) in Htr.
  rewrite <- app_assoc in Htr. simpl in Htr.
  assert (∀ wf extra, trace wf = trace w' ++ extra → sent_of extra = [] →
            sent_of (appended w wf) = [Sent r]) as Hfin.
  { intros wf extra Hwf Hextra.
    erewrite appended_app; [|rewrite Hwf, Htr, <- app_assoc; reflexivity].
    change (PreventDefault :: Sent r :: Settled ?x :: tl)
      with ([PreventDefault; Sent r; Settled x] ++ tl).
    rewrite <- app_assoc, !sent_of_app, Hextra, (sent_of_toasts tl Htl). reflexivity. }
  destruct o as [response|error].
  - destruct onSuccess.
    + eapply Hfin with (extra := [_; _; _; _; _]);
        [unfold ebind, emit, toast_success, console_log, emit; simpl;
         rewrite <- !app_assoc; reflexivity | reflexivity].
    + eapply Hfin with (extra := [_; _; _; _]);
        [unfold ebind, emit, toast_success, console_log, emit, eret; simpl;
         rewrite <- !app_assoc; reflexivity | reflexivity].
  - eapply Hfin with (extra := [_; _]);
      [unfold ebind, useMutation_logs, console_error, emit; simpl;
       rewrite <- !app_assoc; reflexivity | reflexivity].
Qed.

(** C5 (as amended). While [plaintiff_id] is the empty string a
    submission of the new-case form is blocked and sends nothing.  When
    [handleSubmit] runs, it stops at the required-fields check: apart from
    [preventDefault], the only thing that happens is the message "Please
    fill in all required fields", shown as a toast notification
    ([toast.error]) and not in the form; no request is sent and the
    browser state is as before.  A submission made through the form element
    does not get that far: the plaintiff select is [required], the browser
    finds it invalid and dispatches no [submit] event, so that nothing at
    all happens in the application, the toast included. *)
Theorem empty_plaintiff_blocks_submission
    (number_input_invalid : float → bool) (onSuccess : bool)
    (formData : gmap string JsValue) (w : World) :
  formData !! "plaintiff_id" = Some (JStr "") →
  let w' := (handleSubmit backend StringToNumber ObjectToNumber onSuccess formData w).2 in
  appended w w' = [PreventDefault; Toast TError (JStr "Please fill in all required fields")]
  ∧ network_of (appended w w') = []
  ∧ localStorage w' = localStorage w
  ∧ defaults_common w' = defaults_common w
  ∧ location_href w' = location_href w
  ∧ (NewCaseForm_submit backend StringToNumber ObjectToNumber number_input_invalid
       onSuccess formData w).2 = w.
Proof.
  intros Hp. unfold handleSubmit.
  assert (missing_required formData = true) as ->.
  { unfold missing_required, prop. rewrite Hp. simpl.
    rewrite orb_true_r. reflexivity. }
  unfold ebind, emit, toast_error, emit. simpl.
  erewrite appended_app; [|simpl; rewrite <- !app_assoc; reflexivity].
  do 5 (split; [done|]).
  unfold NewCaseForm_submit.
  assert (NewCaseForm_invalid StringToNumber ObjectToNumber number_input_invalid formData
          = true) as ->; [|reflexivity].
  unfold NewCaseForm_invalid. apply orb_true_iff. left.
  apply existsb_exists. exists "plaintiff_id". split.
  - unfold NewCaseForm_required. do 2 right. by left.
  - unfold value_missing, prop. rewrite Hp. reflexivity.
Qed.

(** [handleChange] on the two number inputs stores a number, on the other
    controls of the form the string as typed. *)
Lemma handleChange_number (name value : string) (prev : gmap string JsValue) :
  name ∈ NewCaseForm_number_inputs →
  handleChange parseFloat name value prev !! name
    = Some (JNum (num_or_zero (parseFloat value))).
Proof.
  intros Hin. unfold handleChange. rewrite lookup_insert_eq.
  unfold NewCaseForm_number_inputs in Hin.
  repeat (apply elem_of_cons in Hin as [-> | Hin]; [reflexivity|]).
  by apply elem_of_nil in Hin.
Qed.

Lemma handleChange_text (name value : string) (prev : gmap string JsValue) :
  name ∈ NewCaseForm_text_inputs →
  handleChange parseFloat name value prev !! name = Some (JStr value).
Proof.
  intros Hin. unfold handleChange. rewrite lookup_insert_eq.
  unfold NewCaseForm_text_inputs in Hin.
  repeat (apply elem_of_cons in Hin as [-> | Hin]; [reflexivity|]).
  by apply elem_of_nil in Hin.
Qed.

Lemma handleChange_other (name value k : string) (prev : gmap string JsValue) :
  k ≠ name → handleChange parseFloat name value prev !! k = prev !! k.
Proof. intros Hk. unfold handleChange. by rewrite lookup_insert_ne. Qed.

(** The amount fields hold numbers in every state the form can reach:
    initially, and after a change event of any of its controls. *)
Lemma amounts_numeric_initial : amounts_numeric NewCaseForm_initial.
Proof.
  intros k Hin. unfold NewCaseForm_number_inputs in Hin.
  repeat (apply elem_of_cons in Hin as [-> | Hin]; [eexists; reflexivity|]).
  by apply elem_of_nil in Hin.
Qed.

Lemma amounts_numeric_handleChange (name value : string) (prev : gmap string JsValue) :
  name ∈ NewCaseForm_text_inputs ++ NewCaseForm_number_inputs →
  amounts_numeric prev →
  amounts_numeric (handleChange parseFloat name value prev).
Proof.
  intros Hname Hprev k Hk. destruct (decide (k = name)) as [->|Hne].
  - eexists. by apply handleChange_number.
  - rewrite handleChange_other by done. by apply Hprev.
Qed.

(** ** Multiplication by 100 in binary64 *)

(** The number of binary digits of a mantissa brackets it between two
    powers of two, and a number so bracketed has that many digits. *)
Lemma digits2_pos_bounds (p : positive) :
  2 ^ (Z.pos (digits2_pos p) - 1) ≤ Z.pos p < 2 ^ Z.pos (digits2_pos p).
Proof.
  induction p as [p IH|p IH|]; simpl digits2_pos.
  - rewrite Pos2Z.inj_succ. change (Z.pos p~1) with (2 * Z.pos p + 1).
    replace (Z.succ (Z.pos (digits2_pos p)) - 1) with (Z.succ (Z.pos (digits2_pos p) - 1)) by lia.
    rewrite !Z.pow_succ_r by lia.
    destruct IH as [IH1 IH2]. revert IH1 IH2.
    generalize (2 ^ (Z.pos (digits2_pos p) - 1)) (2 ^ Z.pos (digits2_pos p)). lia.
  - rewrite Pos2Z.inj_succ. change (Z.pos p~0) with (2 * Z.pos p).
    replace (Z.succ (Z.pos (digits2_pos p)) - 1) with (Z.succ (Z.pos (digits2_pos p) - 1)) by lia.
    rewrite !Z.pow_succ_r by lia.
    destruct IH as [IH1 IH2]. revert IH1 IH2.
    generalize (2 ^ (Z.pos (digits2_pos p) - 1)) (2 ^ Z.pos (digits2_pos p)). lia.
  - change (2 ^ (1 - 1)) with 1. change (2 ^ 1) with 2. lia.
Qed.

Lemma digits_unique (m a b : Z) :
  0 < a → 0 < b →
  2 ^ (a - 1) ≤ m < 2 ^ a → 2 ^ (b - 1) ≤ m < 2 ^ b → a = b.
Proof.
  intros Ha Hb [Ha1 Ha2] [Hb1 Hb2].
  assert (a - 1 < b) by (apply (Z.pow_lt_mono_r_iff 2); lia).
  assert (b - 1 < a) by (apply (Z.pow_lt_mono_r_iff 2); lia).
  lia.
Qed.

(** Appending [n] zero bits adds [n] digits. *)
Lemma digits2_pos_shift (m M : positive) (n : Z) :
  0 ≤ n → Z.pos M = Z.pos m * 2 ^ n →
  Z.pos (digits2_pos M) = Z.pos (digits2_pos m) + n.
Proof.
  intros Hn HM.
  pose proof (digits2_pos_bounds m) as [Hm1 Hm2].
  apply (digits_unique (Z.pos M)); [lia | lia | apply digits2_pos_bounds |].
  rewrite HM.
  replace (Z.pos (digits2_pos m) + n - 1) with ((Z.pos (digits2_pos m) - 1) + n) by lia.
  rewrite !Z.pow_add_r by lia.
  assert (0 < 2 ^ n) by (apply Z.pow_pos_nonneg; lia).
  split; [apply Z.mul_le_mono_nonneg_r; lia | apply Z.mul_lt_mono_pos_r; lia].
Qed.

(** Shifting out zero bits loses nothing: the record stays exact. *)
Lemma shr_1_exact (z : Z) :
  0 < z →
  shr_1 {| shr_m := 2 * z; shr_r := false; shr_s := false |}
  = {| shr_m := z; shr_r := false; shr_s := false |}.
Proof. intros Hz. destruct z as [|p|p]; [lia | reflexivity | lia]. Qed.

Lemma iter_pos_shr_1_exact (n : positive) :
  ∀ z, 0 < z →
    SpecFloat.iter_pos shr_1 n {| shr_m := 2 ^ Z.pos n * z; shr_r := false; shr_s := false |}
    = {| shr_m := z; shr_r := false; shr_s := false |}.
Proof.
  induction n as [n IH|n IH|]; intros z Hz.
  - cbn [SpecFloat.iter_pos].
    assert (0 < 2 ^ Z.pos n) by (apply Z.pow_pos_nonneg; lia).
    replace (2 ^ Z.pos n~1 * z) with (2 * (2 ^ Z.pos n * (2 ^ Z.pos n * z))).
    + rewrite shr_1_exact by nia. rewrite IH by nia. apply IH. exact Hz.
    + change (Z.pos n~1) with (2 * Z.pos n + 1). rewrite Z.pow_add_r, Z.pow_mul_r by lia.
      change (2 ^ 1) with 2. change (2 ^ 2) with 4.
      replace (4 ^ Z.pos n) with (2 ^ Z.pos n * 2 ^ Z.pos n).
      * ring.
      * rewrite <- Z.pow_mul_l. reflexivity.
  - cbn [SpecFloat.iter_pos].
    assert (0 < 2 ^ Z.pos n) by (apply Z.pow_pos_nonneg; lia).
    replace (2 ^ Z.pos n~0 * z) with (2 ^ Z.pos n * (2 ^ Z.pos n * z)).
    + rewrite IH by nia. apply IH. exact Hz.
    + change (Z.pos n~0) with (2 * Z.pos n). rewrite Z.pow_mul_r by lia. change (2 ^ 2) with 4.
      replace (4 ^ Z.pos n) with (2 ^ Z.pos n * 2 ^ Z.pos n).
      * ring.
      * rewrite <- Z.pow_mul_l. reflexivity.
  - cbn [SpecFloat.iter_pos]. change (2 ^ 1) with 2. by apply shr_1_exact.
Qed.

Lemma canonical_digits (m : positive) (e : Z) :
  canonical_mantissa prec emax m e = true →
  fexp prec emax (Z.pos (digits2_pos m) + e) = e.
Proof. unfold canonical_mantissa. apply Z.eqb_eq. Qed.

(** Rounding a product whose value has a canonical representation
    returns that representation. *)
Lemma binary_round_aux_exact (s : bool) (M mz : positive) (E ez : Z) :
  E ≤ ez →
  Z.pos M = Z.pos mz * 2 ^ (ez - E) →
  bounded prec emax mz ez = true →
  binary_round_aux prec emax s (Z.pos M) E loc_Exact = S754_finite s mz ez.
Proof.
  intros HE HM Hb. unfold bounded in Hb. apply andb_true_iff in Hb as [Hcan Hmax].
  pose proof (canonical_digits mz ez Hcan) as Hfexp.
  pose proof (digits2_pos_shift mz M (ez - E) ltac:(lia) HM) as Hd.
  unfold binary_round_aux, shr_fexp.
  cbn [Zdigits2 shr_record_of_loc].
  replace (Z.pos (digits2_pos M) + E) with (Z.pos (digits2_pos mz) + ez) by lia.
  rewrite Hfexp.
  assert (shr {| shr_m := Z.pos M; shr_r := false; shr_s := false |} E (ez - E)
          = ({| shr_m := Z.pos mz; shr_r := false; shr_s := false |}, ez)) as ->.
  { unfold shr. destruct (ez - E) as [|p|p] eqn:Hn.
    - rewrite Z.pow_0_r, Z.mul_1_r in HM. rewrite HM. f_equal. lia.
    - rewrite HM, Z.mul_comm. rewrite iter_pos_shr_1_exact by lia. f_equal. lia.
    - lia. }
  cbn [shr_m loc_of_shr_record round_nearest_even Zdigits2 shr_record_of_loc].
  rewrite Hfexp, Z.sub_diag. cbn [shr shr_m]. rewrite Hmax. reflexivity.
Qed.

(** Dyadic rationals with a common power of two. *)
Lemma Qpower_2_nonneg (n : Z) : 0 ≤ n → (2 ^ n == inject_Z (2 ^ n))%Q.
Proof. intros Hn. symmetry. exact (Zpower_Qpower 2 n Hn). Qed.

Lemma dyadic_eq (a b e1 e2 : Z) :
  (inject_Z a * 2 ^ e1 == inject_Z b * 2 ^ e2)%Q →
  (e2 ≤ e1 → a * 2 ^ (e1 - e2) = b) ∧ (e1 ≤ e2 → a = b * 2 ^ (e2 - e1)).
Proof.
  intros Heq.
  assert (¬ (2 == 0)%Q) as H2 by discriminate.
  split; intros Hle.
  - replace e1 with ((e1 - e2) + e2) in Heq by lia.
    rewrite Qpower_plus in Heq by exact H2.
    rewrite (Qpower_2_nonneg (e1 - e2)) in Heq by lia.
    rewrite Qmult_assoc in Heq.
    apply Qmult_inj_r in Heq; [|by apply Qpower_not_0].
    rewrite <- inject_Z_mult in Heq. exact (proj1 (inject_Z_injective _ _) Heq).
  - replace e2 with ((e2 - e1) + e1) in Heq by lia.
    rewrite Qpower_plus in Heq by exact H2.
    rewrite (Qpower_2_nonneg (e2 - e1)) in Heq by lia.
    rewrite Qmult_assoc in Heq.
    apply Qmult_inj_r in Heq; [|by apply Qpower_not_0].
    rewrite <- inject_Z_mult in Heq. exact (proj1 (inject_Z_injective _ _) Heq).
Qed.

(** Signed mantissas that agree up to a positive factor have one sign. *)
Lemma cond_Zopp_scaled (s1 s2 : bool) (p q : positive) (P : Z) :
  0 < P →
  cond_Zopp s1 (Z.pos p) * P = cond_Zopp s2 (Z.pos q) →
  s1 = s2 ∧ Z.pos p * P = Z.pos q.
Proof.
  intros HP H. assert (0 < Z.pos p * P) by (apply Z.mul_pos_pos; lia).
  destruct s1, s2; cbn [cond_Zopp] in H; rewrite ?Z.mul_opp_l in H; split; try done; lia.
Qed.

Lemma hundred_spec : Prim2SF 100 = S754_finite false 7036874417766400 (-46).
Proof. vm_compute. reflexivity. Qed.

Lemma hundred_value : (inject_Z 100 == inject_Z 7036874417766400 * 2 ^ (-46))%Q.
Proof. vm_compute. reflexivity. Qed.

(** Multiplying by 100 gives the binary64 number that stands for 100
    times the number, when there is one. *)
Lemma mul_100_finite (x z : float) (sx sz : bool) (mx mz : positive) (ex ez : Z) :
  Prim2SF x = S754_finite sx mx ex →
  Prim2SF z = S754_finite sz mz ez →
  (inject_Z (cond_Zopp sz (Z.pos mz)) * 2 ^ ez
   == inject_Z 100 * (inject_Z (cond_Zopp sx (Z.pos mx)) * 2 ^ ex))%Q →
  (x * 100)%float = z.
Proof.
  intros Hx Hz Heq.
  apply Prim2SF_inj. rewrite mul_spec, Hx, Hz, hundred_spec.
  unfold SF64mul, SFmul. rewrite xorb_false_r.
  assert (inject_Z (cond_Zopp sz (Z.pos mz)) * 2 ^ ez
          == inject_Z (cond_Zopp sx (Z.pos (mx * 7036874417766400))) * 2 ^ (ex + -46))%Q
    as Heq'.
  { rewrite Heq, hundred_value, Qpower_plus by discriminate.
    replace (cond_Zopp sx (Z.pos (mx * 7036874417766400)))
      with (cond_Zopp sx (Z.pos mx) * 7036874417766400)
      by (destruct sx; cbn [cond_Zopp]; lia).
    rewrite inject_Z_mult. ring. }
  destruct (dyadic_eq _ _ _ _ Heq') as [Hge Hle].
  pose proof (Prim2SF_valid z) as Hv. rewrite Hz in Hv. cbn [valid_binary] in Hv.
  set (M := (mx * 7036874417766400)%positive) in *.
  assert (53 ≤ Z.pos (digits2_pos M)) as HdM.
  { pose proof (digits2_pos_bounds M) as [_ HM].
    assert (2 ^ 52 < 2 ^ Z.pos (digits2_pos M)) as Hlt.
    { eapply Z.le_lt_trans; [|exact HM]. change (2 ^ 52) with 4503599627370496.
      subst M. rewrite Pos2Z.inj_mul. nia. }
    apply Z.pow_lt_mono_r_iff in Hlt; lia. }
  assert (Z.pos (digits2_pos mz) ≤ 53) as Hdz.
  { apply andb_true_iff in Hv as [Hcan _]. apply canonical_digits in Hcan.
    unfold fexp, emin, prec, emax in Hcan. lia. }
  assert (ex + -46 ≤ ez) as HE.
  { destruct (Z_le_gt_dec (ex + -46) ez) as [|Hgt]; [done|]. exfalso.
    specialize (Hle ltac:(lia)). symmetry in Hle.
    apply cond_Zopp_scaled in Hle as [_ Hle]; [|apply Z.pow_pos_nonneg; lia].
    symmetry in Hle.
    pose proof (digits2_pos_shift M mz (ex + -46 - ez) ltac:(lia) Hle). lia. }
  specialize (Hge HE).
  apply cond_Zopp_scaled in Hge as [-> Hge]; [|apply Z.pow_pos_nonneg; lia].
  apply binary_round_aux_exact; [exact HE | by symmetry | exact Hv].
Qed.

Lemma finite_value_nonzero (s : bool) (m : positive) (e : Z) :
  ¬ (inject_Z (cond_Zopp s (Z.pos m)) * 2 ^ e == 0)%Q.
Proof.
  intros H. apply Qmult_integral in H as [H|H].
  - apply (inject_Z_injective _ 0) in H. destruct s; discriminate.
  - revert H. by apply Qpower_not_0.
Qed.

(** The product with 100 stands for exactly 100 times the number,
    provided some binary64 number does. *)
Lemma times_100_exact_if_representable (x z : float) :
  exactly_times 100 x z → exactly_times 100 x (x * 100).
Proof.
  unfold exactly_times, float_value.
  destruct (Prim2SF x) as [sx|sx| |sx mx ex] eqn:Hx; try done.
  - intros _. rewrite mul_spec, Hx, hundred_spec. cbn [SF64mul SFmul]. ring.
  - destruct (Prim2SF z) as [sz|sz| |sz mz ez] eqn:Hz; try done.
    + intros H. exfalso. symmetry in H. apply Qmult_integral in H as [H|H]; [done|].
      by apply finite_value_nonzero in H.
    + intros H. rewrite (mul_100_finite x z sx sz mx mz ex ez Hx Hz H), Hz. exact H.
Qed.

Lemma scaled_value (a n e : Z) :
  0 ≤ n → (inject_Z (a * 2 ^ n) * 2 ^ (e - n) == inject_Z a * 2 ^ e)%Q.
Proof.
  intros Hn. replace e with (n + (e - n)) at 2 by lia.
  rewrite Qpower_plus by discriminate.
  rewrite (Qpower_2_nonneg n) by lia. rewrite inject_Z_mult. ring.
Qed.

(** Four times an integer below 2^53 in magnitude is a float. *)
Lemma four_times_representable (w : Z) :
  w ≠ 0 → Z.abs w < 2 ^ 53 →
  ∃ z v, float_value z = Some v ∧ (v == inject_Z (4 * w))%Q.
Proof.
  intros Hw Hlt.
  set (p := Z.to_pos (Z.abs w)).
  assert (Z.pos p = Z.abs w) as Hp by (subst p; rewrite Z2Pos.id; lia).
  pose proof (digits2_pos_bounds p) as [Hd1 Hd2].
  set (d := Z.pos (digits2_pos p)) in *.
  assert (d ≤ 53) as Hd.
  { assert (2 ^ (d - 1) < 2 ^ 53) as H by lia.
    apply Z.pow_lt_mono_r_iff in H; lia. }
  assert (0 < 2 ^ (53 - d)) as Hpow by (apply Z.pow_pos_nonneg; lia).
  set (mz := Z.to_pos (Z.pos p * 2 ^ (53 - d))).
  assert (Z.pos mz = Z.pos p * 2 ^ (53 - d)) as Hmz by (subst mz; rewrite Z2Pos.id; nia).
  pose proof (digits2_pos_shift p mz (53 - d) ltac:(lia) Hmz) as Hdz. fold d in Hdz.
  set (sf := S754_finite (w <? 0) mz (d - 53 + 2)).
  assert (valid_binary sf = true) as Hv.
  { subst sf. cbn [SpecFloat.valid_binary]. unfold bounded, canonical_mantissa.
    apply andb_true_iff. split.
    - apply Z.eqb_eq. rewrite Hdz. unfold fexp, emin, prec, emax. subst d. lia.
    - apply Z.leb_le. unfold prec, emax. subst d. lia. }
  exists (SF2Prim sf). eexists. split.
  - unfold float_value. rewrite (Prim2SF_SF2Prim sf Hv). subst sf. reflexivity.
  - replace (cond_Zopp (w <? 0) (Z.pos mz)) with (w * 2 ^ (53 - d)).
    + replace (d - 53 + 2) with (2 - (53 - d)) by lia.
      rewrite scaled_value by lia.
      change (2 ^ 2)%Q with (inject_Z 4). rewrite <- inject_Z_mult.
      apply inject_Z_injective. lia.
    + rewrite Hmz, Hp. destruct (Z.ltb_spec w 0); cbn [cond_Zopp]; lia.
Qed.

(** Whole numbers of magnitude up to 2^53/25: the product is exact. *)
Lemma times_100_exact_on_whole_numbers (x : float) (n : Z) :
  whole_number x n → 25 * Z.abs n < 2 ^ 53 → exactly_times 100 x (x * 100).
Proof.
  intros Hx Hn. destruct (decide (n = 0)) as [->|Hn0].
  - apply (times_100_exact_if_representable x 0%float).
    unfold whole_number in Hx. unfold exactly_times.
    destruct (float_value x) as [v|]; [|done].
    change (0 == inject_Z 100 * v)%Q. rewrite Hx. reflexivity.
  - destruct (four_times_representable (25 * n)) as (z & v & Hz & Hv); [lia | lia |].
    apply (times_100_exact_if_representable x z).
    unfold whole_number in Hx. unfold exactly_times. rewrite Hz.
    destruct (float_value x) as [vx|]; [|done].
    cbv iota. rewrite Hv, Hx, <- inject_Z_mult. apply inject_Z_injective. lia.
Qed.


(** ** JSON numbers *)

(** A float that stands for a number is neither [NaN] nor infinite. *)
Lemma float_value_is_finite (p : float) (v : Q) :
  float_value p = Some v → PrimFloat.is_finite p = true.
Proof.
  unfold float_value. intros Hv.
  assert (is_nan p = false) as Hnan.
  { destruct (is_nan p) eqn:Hn; [|reflexivity].
    unfold Prim2SF in Hv. rewrite Hn in Hv. discriminate. }
  assert (is_infinity p = false) as Hinf.
  { unfold is_infinity. rewrite FloatAxioms.eqb_spec, FloatAxioms.abs_spec.
    change (Prim2SF infinity) with (S754_infinity false).
    destruct (Prim2SF p) as [s|s| |s m e]; try discriminate; reflexivity. }
  unfold PrimFloat.is_finite. rewrite Hnan, Hinf. reflexivity.
Qed.

(** What JSON carries for a float that stands for a number is a float
    that stands for the same number. *)
Lemma json_number_stands (p : float) (v : Q) :
  float_value p = Some v →
  ∃ q v', json_number p = JNum q ∧ float_value q = Some v' ∧ (v' == v)%Q.
Proof.
  intros Hv. unfold json_number. rewrite (float_value_is_finite p v Hv).
  destruct (p =? 0)%float eqn:Hz.
  - exists 0%float, 0%Q. split; [reflexivity|]. split; [reflexivity|].
    unfold float_value in Hv. unfold Prim2SF in Hv.
    destruct (is_nan p); [discriminate|].
    change (is_zero p) with (p =? 0)%float in Hv. rewrite Hz in Hv.
    injection Hv as <-. reflexivity.
  - exists p, v. split; [reflexivity|]. split; [exact Hv|reflexivity].
Qed.

(** An exact product is carried by JSON as a number that is exactly 100
    times the amount. *)
Lemma json_number_exactly_times (v : float) :
  exactly_times 100 v (v * 100) →
  ∃ q, json_number (v * 100) = JNum q ∧ exactly_times 100 v q.
Proof.
  unfold exactly_times. intros H.
  destruct (float_value v) as [vx|]; [|done].
  destruct (float_value (v * 100)) as [vy|] eqn:Hy; [|done].
  destruct (json_number_stands _ _ Hy) as (q & v' & Hq & Hv' & Heq).
  exists q. split; [exact Hq|]. rewrite Hv'. by rewrite Heq.
Qed.

Lemma json_body_lookup (body : gmap string JsValue) (k : string) :
  json_body body !! k = body !! k ≫= json_value.
Proof. unfold json_body. apply lookup_omap. Qed.

(** C10 (as amended). A submission that passes the required-fields
    check makes one POST to [/cases].  For each of the two amounts the
    object posted holds the JavaScript product of the form's number and
    100, and the JSON body holds that product, or [null] when the product
    is not finite.  The product is exactly 100 times the form's number
    whenever a binary64 number stands for 100 times it at all, so in
    particular for every whole number of dollars [n] with 25 |n| below
    2^53, and the JSON body then carries a number that is exactly 100
    times the form's; otherwise the product is rounded.  Every other
    property is posted as the form holds it, a string as that string.  The
    number in the form is what [handleChange] stored for a number input:
    [parseFloat] of the entry, or 0 when that is [NaN], so that a
    non-numeric entry is posted as 0. *)
Theorem new_case_amounts_posted_times_100
    (onSuccess : bool) (formData : gmap string JsValue) (x y : float)
    (name entry : string) (prev : gmap string JsValue) (w : World) :
  missing_required formData = false →
  formData !! "estimated_case_value" = Some (JNum x) →
  formData !! "funding_amount_requested" = Some (JNum y) →
  name ∈ NewCaseForm_number_inputs →
  ∃ body,
    sent_of (appended w
      (handleSubmit backend StringToNumber ObjectToNumber onSuccess formData w).2)
      = [Sent (build_request POST "/cases" ∅ (JsonBody body) ∅ w)]
    ∧ (∀ k v, (k, v) ∈ [("estimated_case_value", x); ("funding_amount_requested", y)] →
         body !! k = Some (JNum (v * 100)%float)
         ∧ json_body body !! k = Some (json_number (v * 100))
         ∧ ((∃ z, exactly_times 100 v z) ∨ (∃ n, whole_number v n ∧ 25 * Z.abs n < 2 ^ 53) →
            exactly_times 100 v (v * 100)
            ∧ ∃ q, json_body body !! k = Some (JNum q) ∧ exactly_times 100 v q))
    ∧ (∀ k, k ≠ "estimated_case_value" → k ≠ "funding_amount_requested" →
         body !! k = formData !! k
         ∧ ∀ s, formData !! k = Some (JStr s) → json_body body !! k = Some (JStr s))
    ∧ handleChange parseFloat name entry prev !! name
        = Some (JNum (num_or_zero (parseFloat entry)))
    ∧ (PrimFloat.is_nan (parseFloat entry) = true →
         handleChange parseFloat name entry prev !! name = Some (JNum 0)
         ∧ (num_or_zero (parseFloat entry) * 100)%float = 0%float).
Proof.
  intros Hok Hx Hy Hname.
  exists (createCase_body StringToNumber ObjectToNumber formData).
  split; [by apply handleSubmit_valid_sends|].
  assert (createCase_body StringToNumber ObjectToNumber formData !! "estimated_case_value"
          = Some (JNum (x * 100)%float)) as Hbx.
  { unfold createCase_body, prop. rewrite Hx. simpl.
    rewrite lookup_insert_ne by done. apply lookup_insert_eq. }
  assert (createCase_body StringToNumber ObjectToNumber formData !! "funding_amount_requested"
          = Some (JNum (y * 100)%float)) as Hby.
  { unfold createCase_body, prop. rewrite Hy. simpl. apply lookup_insert_eq. }
  split.
  { intros k v Hkv.
    assert (createCase_body StringToNumber ObjectToNumber formData !! k
            = Some (JNum (v * 100)%float)) as Hb.
    { apply elem_of_cons in Hkv as [[= -> ->]|Hkv]; [exact Hbx|].
      apply elem_of_cons in Hkv as [[= -> ->]|Hkv]; [exact Hby|].
      by apply elem_of_nil in Hkv. }
    split; [exact Hb|].
    assert (json_body (createCase_body StringToNumber ObjectToNumber formData) !! k
            = Some (json_number (v * 100))) as Hj.
    { rewrite json_body_lookup, Hb. reflexivity. }
    split; [exact Hj|].
    intros Hrep.
    assert (exactly_times 100 v (v * 100)) as Hex.
    { destruct Hrep as [[z Hz]|[n [Hn Hlt]]].
      - by apply (times_100_exact_if_representable v z).
      - by apply (times_100_exact_on_whole_numbers v n). }
    split; [exact Hex|].
    destruct (json_number_exactly_times v Hex) as (q & Hq & Hqx).
    exists q. split; [by rewrite Hj, Hq|exact Hqx]. }
  split.
  { intros k Hk1 Hk2.
    assert (createCase_body StringToNumber ObjectToNumber formData !! k = formData !! k) as Hb.
    { unfold createCase_body. by rewrite !lookup_insert_ne. }
    split; [exact Hb|]. intros s Hs. rewrite json_body_lookup, Hb, Hs. reflexivity. }
  split; [by apply handleChange_number|].
  intros Hnan. rewrite handleChange_number by done.
  unfold num_or_zero. rewrite Hnan, orb_true_r. split; reflexivity.
Qed.

(** ** Uploads *)

Lemma upload_formData_fields (cid : string) (f : File) :
  upload_formData cid f
  = ("file", EntryFile f) :: (if String.eqb cid "" then [] else [("case_id", EntryText cid)]).
Proof. unfold upload_formData. simpl. destruct (String.eqb cid ""); reflexivity. Qed.

(** C6 (as amended). Uploading two selected files on the Documents screen
    posts the first as multipart form data (a [file] field, and a
    [case_id] field when a case id was entered).  Only if that request
    resolves is the second file posted, after the first has settled; if
    the first is rejected the loop is left and no second request is made.
    If both resolve, the success toast is shown and the documents query is
    refetched exactly once; otherwise it is not refetched. *)
Theorem upload_two_files_sequential
    (f1 f2 : File) (cid : string) (filters : gmap string JsValue) (w : World) :
  let st := {| files := [f1; f2]; isUploading := false; caseId := cid |} in
  let n := length (sent_of (trace w)) in
  let r1 := build_request POST "/documents/upload" ∅
              (MultipartBody (upload_formData cid f1)) upload_headers w in
  let r2 := build_request POST "/documents/upload" ∅
              (MultipartBody (upload_formData cid f2)) upload_headers w in
  let w' := (DocumentsPage_upload backend filters st w).2 in
  (∀ f, upload_formData cid f
        = ("file", EntryFile f)
          :: (if String.eqb cid "" then [] else [("case_id", EntryText cid)]))
  ∧ if reply_ok (backend n r1) then
      (∃ tl, appended w w'
               = Sent r1 :: Settled (backend n r1)
                 :: Sent r2 :: Settled (backend (S n) r2) :: tl
             ∧ sent_of tl = [])
      ∧ if reply_ok (backend (S n) r2) then
          appended w w'
          = [Sent r1; Settled (backend n r1); Sent r2; Settled (backend (S n) r2);
             Toast TSuccess (JStr "2 document(s) uploaded successfully");
             Refetch (documents_key filters)]
        else refetches_of (appended w w') = []
    else
      sent_of (appended w w') = [Sent r1] ∧ refetches_of (appended w w') = [].
Proof.
  intros st n r1 r2 w'. split; [intros f; apply upload_formData_fields|].
  subst w' st. unfold DocumentsPage_upload, handleUpload. cbn [files caseId length].
  rewrite (ebind_run (upload_each backend cid [f1; f2])).
  cbn [upload_each]. unfold api_post.
  rewrite (ebind_run (api_request _ _ _ _ _ _)).
  destruct (api_request_spec POST "/documents/upload" ∅
              (MultipartBody (upload_formData cid f1)) upload_headers w)
    as (o1 & w1 & tl1 & Heq1 & Htr1 & Htl1 & Hok1 & Hrej1).
  fold r1 in Htr1, Hok1, Hrej1. fold n in Htr1, Hok1, Hrej1.
  simpl caseId. rewrite Heq1. simpl fst. simpl snd.
  destruct (reply_ok (backend n r1)) eqn:Hr1.
  - destruct (Hok1 eq_refl) as (-> & (resp1 & Hrep1 & ->) & Hls & Hdc & Hhref).
    cbv iota. rewrite (ebind_run (api_request _ _ _ _ _ _)).
    destruct (api_request_spec POST "/documents/upload" ∅
                (MultipartBody (upload_formData cid f2)) upload_headers w1)
      as (o2 & w2 & tl2 & Heq2 & Htr2 & Htl2 & Hok2 & Hrej2).
    assert (build_request POST "/documents/upload" ∅
              (MultipartBody (upload_formData cid f2)) upload_headers w1 = r2) as Hr2eq.
    { unfold r2, build_request. by rewrite Hdc. }
    assert (length (sent_of (trace w1)) = S n) as Hn.
    { rewrite Htr1, sent_of_app. rewrite length_app. simpl. unfold n. lia. }
    rewrite Hr2eq, Hn in Htr2, Hok2, Hrej2.
    rewrite Heq2. simpl fst. simpl snd.
    rewrite Htr1, <- app_assoc in Htr2. simpl in Htr2.
    destruct (reply_ok (backend (S n) r2)) eqn:Hr2.
    + destruct (Hok2 eq_refl) as (-> & (resp2 & Hrep2 & ->) & _).
      simpl. unfold ebind, toast_success, handleUploadSuccess, emit. simpl.
      rewrite Htr2. rewrite <- !app_assoc. simpl.
      split; [eexists; split; [apply appended_app; reflexivity|reflexivity]|].
      apply appended_app. reflexivity.
    + destruct (Hrej2 eq_refl) as [e ->]. simpl.
      unfold ebind, console_error, emit. simpl. rewrite Htr2, <- !app_assoc. simpl.
      split.
      * eexists. split; [apply appended_app; reflexivity|].
        rewrite sent_of_app, (sent_of_toasts tl2 Htl2). reflexivity.
      * erewrite appended_app; [|reflexivity].
        change (Sent r1 :: ?a :: Sent r2 :: ?b :: tl2 ++ ?c)
          with ([Sent r1; a; Sent r2; b] ++ tl2 ++ c).
        unfold refetches_of. rewrite !filter_app.
        fold (refetches_of tl2). rewrite (refetches_of_toasts tl2 Htl2). reflexivity.
  - destruct (Hrej1 eq_refl) as [e ->]. simpl.
    unfold ebind, console_error, emit. simpl. rewrite Htr1, <- !app_assoc. simpl.
    split.
    + erewrite appended_app; [|reflexivity].
      change (Sent r1 :: ?a :: tl1 ++ ?c) with ([Sent r1; a] ++ tl1 ++ c).
      rewrite !sent_of_app, (sent_of_toasts tl1 Htl1). reflexivity.
    + erewrite appended_app; [|reflexivity].
      change (Sent r1 :: ?a :: tl1 ++ ?c) with ([Sent r1; a] ++ tl1 ++ c).
      unfold refetches_of. rewrite !filter_app.
      fold (refetches_of tl1). rewrite (refetches_of_toasts tl1 Htl1). reflexivity.
Qed.

(** ** The realtime channel *)

Lemma native_connect_run (this : NativeWs.WebSocketService) (w : World) :
  NativeWs.connect this w =
    (this,
     if NativeWs.is_open (NativeWs.ws this) then w
     else {| localStorage := localStorage w;
             defaults_common := defaults_common w;
             location_href := location_href w;
             trace := trace w ++
               [Console LLog
                  (if NativeWs.no_token (localStorage w !! "auth_token")
                   then "No auth token found for WebSocket connection - skipping WebSocket"
                   else "WebSocket disabled for simple backend")] |}).
Proof.
  unfold NativeWs.connect.
  destruct (NativeWs.is_open (NativeWs.ws this)); [reflexivity|].
  unfold ebind, localStorage_getItem.
  destruct (NativeWs.no_token (localStorage w !! "auth_token")); reflexivity.
Qed.

Lemma socketio_connect_run (this : SocketIo.WebSocketService) (w : World) :
  SocketIo.connect this w =
    if SocketIo.socket_connected this then (this, w)
    else
      ({| SocketIo.socket :=
            Some {| SocketIo.sock_connected := false;
                    SocketIo.sock_auth_token := localStorage w !! "auth_token";
                    SocketIo.sock_handlers := ["connect"; "disconnect"; "connect_error"] |} |},
       {| localStorage := localStorage w;
          defaults_common := defaults_common w;
          location_href := location_href w;
          trace := trace w ++
            [SocketIoOpen "/" (localStorage w !! "auth_token") ["websocket"];
             SocketIoOn "connect"; SocketIoOn "disconnect"; SocketIoOn "connect_error"] |}).
Proof.
  unfold SocketIo.connect.
  destruct (SocketIo.socket_connected this); [reflexivity|].
  unfold ebind, localStorage_getItem, emit, eret. simpl.
  rewrite <- !app_assoc. reflexivity.
Qed.

(** C7 (as amended). [connect()] of the service built on the browser's
    [WebSocket] is a no-op for every service state and every stored
    token: the service and the browser state are unchanged, nothing goes
    to the network, and at most a console line is written.  [connect()]
    of the socket.io service is not: unless its socket is already
    connected it opens a socket.io connection carrying the stored
    token. *)
Theorem connect_is_noop_in_native_service_only
    (this : NativeWs.WebSocketService) (io : SocketIo.WebSocketService) (w : World) :
  (NativeWs.connect this w).1 = this
  ∧ network_of (appended w (NativeWs.connect this w).2) = []
  ∧ Forall (λ e, ∃ msg, e = Console LLog msg) (appended w (NativeWs.connect this w).2)
  ∧ localStorage (NativeWs.connect this w).2 = localStorage w
  ∧ defaults_common (NativeWs.connect this w).2 = defaults_common w
  ∧ location_href (NativeWs.connect this w).2 = location_href w
  ∧ network_of (appended w (SocketIo.connect io w).2)
    = (if SocketIo.socket_connected io then []
       else [SocketIoOpen "/" (localStorage w !! "auth_token") ["websocket"]]).
Proof.
  rewrite native_connect_run, socketio_connect_run. simpl.
  split; [reflexivity|].
  assert (network_of (appended w
            (if SocketIo.socket_connected io then w
             else {| localStorage := localStorage w;
                     defaults_common := defaults_common w;
                     location_href := location_href w;
                     trace := trace w ++
                       [SocketIoOpen "/" (localStorage w !! "auth_token") ["websocket"];
                        SocketIoOn "connect"; SocketIoOn "disconnect";
                        SocketIoOn "connect_error"] |}))
          = (if SocketIo.socket_connected io then []
             else [SocketIoOpen "/" (localStorage w !! "auth_token") ["websocket"]])) as Hio.
  { destruct (SocketIo.socket_connected io); [by rewrite appended_refl|].
    erewrite appended_app; [|reflexivity]. reflexivity. }
  destruct (NativeWs.is_open (NativeWs.ws this)).
  - rewrite appended_refl. repeat split; try done.
    by destruct (SocketIo.socket_connected io).
  - erewrite appended_app; [|reflexivity]. repeat split; try done.
    + repeat constructor. by eexists.
    + by destruct (SocketIo.socket_connected io).
Qed.

(** ** The settings service *)

(** C8. Whenever the categories request is rejected, whatever the error,
    [getCategories] resolves with the static mock list instead of
    rejecting; that list holds the [system] and [agents] categories with
    their settings. *)
Theorem getCategories_falls_back_to_mock
    (includeInactive : bool) (w : World) (e : AxiosError) :
  (api_get backend (settings_baseUrl +:+ "/categories")
     (obj [("include_inactive", JBool includeInactive)]) w).1 = Rejected e →
  (getCategories backend includeInactive w).1 = Resolved getMockCategories
  ∧ category_names getMockCategories = [JStr "system"; JStr "agents"]
  ∧ category_setting_keys getMockCategories
    = [[JStr "log_level"; JStr "enable_metrics"]; [JStr "agent_health_check_interval"]].
Proof.
  intros Hrej. split; [|split; reflexivity].
  unfold getCategories.
  rewrite (ebind_run (api_get _ _ _)). rewrite Hrej. reflexivity.
Qed.

(** C9 (as amended). [updateSetting] never rejects, and when the PUT is
    rejected it resolves with the fabricated response
    [{ success: true, message: "Setting updated successfully (mock)",
       data: { setting_id: settingId, requires_restart: false } }]:
    [requires_restart] sits under [data], next to the setting id, not at the
    top level.  The very same value is what the method returns when a
    backend answers 200 with that body, so the returned value does not tell
    a failed update from a successful one. *)
Theorem updateSetting_failure_resolves_with_mock_success
    (settingId : float) (updateRequest : gmap string JsValue) (w : World) (e : AxiosError) :
  let mock :=
    JObj (obj [
      ("success", JBool true);
      ("message", JStr "Setting updated successfully (mock)");
      ("data", JObj (obj [("setting_id", JNum settingId);
                          ("requires_restart", JBool false)]))]) in
  (api_put backend (settings_baseUrl +:+ "/setting/" +:+ NumberToString settingId)
     (JsonBody updateRequest) w).1 = Rejected e →
  (∀ id0 req0 w0, ∃ v, (updateSetting backend NumberToString id0 req0 w0).1 = Resolved v)
  ∧ (updateSetting backend NumberToString settingId updateRequest w).1 = Resolved mock
  ∧ opt_get mock "success" = JBool true
  ∧ opt_get (opt_get mock "data") "requires_restart" = JBool false
  ∧ opt_get mock "requires_restart" = JUndefined
  ∧ (updateSetting (const_backend (reply_status 200 mock)) NumberToString
       settingId updateRequest w).1 = Resolved mock.
Proof.
  intros mock Hrej. split; [|split; [|repeat split]].
  - intros id0 req0 w0. unfold updateSetting. rewrite (ebind_run (api_put _ _ _)).
    destruct (api_put _ _ _ w0).1; eexists; reflexivity.
  - unfold updateSetting. rewrite (ebind_run (api_put _ _ _)). rewrite Hrej. reflexivity.
Qed.

End Properties.

(** * The properties at concrete inputs *)

(** A 401 from the backend on the signed-in cases page. *)
Lemma api_401_clears_session_witness :
  let b := const_backend (reply_status 401 (JObj (obj [("detail", JStr "Not authenticated")]))) in
  let w' := (api_request b GET "/cases" CasesPage_initial_filters NoBody ∅ signed_in_world).2 in
  localStorage signed_in_world !! "auth_token" = Some "tok-123"
  ∧ localStorage w' !! "auth_token" = None
  ∧ defaults_common w' !! "Authorization" = None
  ∧ location_href w' = "/login".
Proof.
  split; [reflexivity|].
  apply (api_401_clears_session_and_redirects
           (const_backend (reply_status 401 (JObj (obj [("detail", JStr "Not authenticated")]))))
           GET "/cases" CasesPage_initial_filters NoBody ∅ signed_in_world
           {| status := 401; data := JObj (obj [("detail", JStr "Not authenticated")]) |});
    reflexivity.
Defined.



(** C3, the claim as stated fails: the toast after a timeout is not the
    toast after a 500. *)
Lemma timeout_toast_differs_from_server_error_toast :
  toasts_of (appended signed_in_world
    (api_request (const_backend TimedOut) GET "/cases" CasesPage_initial_filters NoBody ∅
       signed_in_world).2)
  ≠ toasts_of (appended signed_in_world
    (api_request (const_backend (reply_status 500 JNull)) GET "/cases"
       CasesPage_initial_filters NoBody ∅ signed_in_world).2).
Proof. vm_compute. discriminate. Qed.

Lemma no_response_toast_witness :
  toasts_of (appended signed_in_world
    (api_request (const_backend TimedOut) GET "/cases" CasesPage_initial_filters NoBody ∅
       signed_in_world).2)
    = [Toast TError (JStr "An unexpected error occurred")]
  ∧ toasts_of (appended signed_in_world
      (response_interceptor_rejected
         {| err_response := Some {| status := 503; data := JNull |} |} signed_in_world).2)
    = [Toast TError (JStr "Server error. Please try again later.")].
Proof.
  apply (no_response_shows_unexpected_error_toast (const_backend TimedOut)
           GET "/cases" CasesPage_initial_filters NoBody ∅ signed_in_world
           {| status := 503; data := JNull |});
    [reflexivity | simpl; lia].
Defined.

(** Scenario 4 of the specification: the status filter goes from "All" to
    "Active" while the user is on page 3. *)
Lemma filter_change_witness :
  let prev := CasesPage_onPageChange (JNum 3) CasesPage_initial_filters in
  prev !! "page" = Some (JNum 3)
  ∧ control_change CasesStatus "active" prev !! "page" = Some (JNum 1)
  ∧ control_key CasesStatus (control_change CasesStatus "active" prev)
    ≠ control_key CasesStatus prev.
Proof.
  split; [reflexivity|].
  apply (filter_change_resets_page_and_changes_key CasesStatus "active"
           (CasesPage_onPageChange (JNum 3) CasesPage_initial_filters)).
  vm_compute. discriminate.
Defined.

(** C5, the claim as stated fails: a title and a law firm are given, no
    plaintiff is selected.  Submitted through the form element, the form
    shows no message of its own at all, the browser having stopped the
    submission at the required plaintiff select; and when [handleSubmit]
    is run on that state, the message is a toast, the form's own state and
    the rest of the page being as before. *)
Lemma empty_plaintiff_message_is_not_inline :
  let formData :=
    handleChange digits_parseFloat "law_firm_id" "lf-7"
      (handleChange digits_parseFloat "title" "Doe v. Acme Freight" NewCaseForm_initial) in
  let submitted :=
    (NewCaseForm_submit (const_backend (reply_status 201 JNull)) nan_of_string nan_of_value
       whole_hundreds_only true formData signed_in_world).2 in
  let handled :=
    (handleSubmit (const_backend (reply_status 201 JNull)) nan_of_string nan_of_value
       true formData signed_in_world).2 in
  formData !! "plaintiff_id" = Some (JStr "")
  ∧ ¬ (∃ e, e ∈ appended signed_in_world submitted)
  ∧ appended signed_in_world handled
    = [PreventDefault; Toast TError (JStr "Please fill in all required fields")].
Proof.
  split; [reflexivity|]. split; [|vm_compute; reflexivity].
  intros [e He]. vm_compute in He. by apply elem_of_nil in He.
Qed.

(** Scenario 2 of the specification: a title and a law firm are given, no
    plaintiff is selected. *)
Lemma empty_plaintiff_witness :
  let formData :=
    handleChange digits_parseFloat "law_firm_id" "lf-7"
      (handleChange digits_parseFloat "title" "Doe v. Acme Freight" NewCaseForm_initial) in
  let w' := (handleSubmit (const_backend (reply_status 201 JNull)) nan_of_string nan_of_value
               true formData signed_in_world).2 in
  formData !! "plaintiff_id" = Some (JStr "")
  ∧ appended signed_in_world w'
    = [PreventDefault; Toast TError (JStr "Please fill in all required fields")]
  ∧ network_of (appended signed_in_world w') = []
  ∧ localStorage w' = localStorage signed_in_world
  ∧ defaults_common w' = defaults_common signed_in_world
  ∧ location_href w' = location_href signed_in_world
  ∧ (NewCaseForm_submit (const_backend (reply_status 201 JNull)) nan_of_string nan_of_value
       whole_hundreds_only true formData signed_in_world).2 = signed_in_world.
Proof.
  split; [reflexivity|].
  apply (empty_plaintiff_blocks_submission (const_backend (reply_status 201 JNull))
           nan_of_string nan_of_value whole_hundreds_only true
           (handleChange digits_parseFloat "law_firm_id" "lf-7"
              (handleChange digits_parseFloat "title" "Doe v. Acme Freight" NewCaseForm_initial))
           signed_in_world).
  reflexivity.
Defined.

(** C6, the claim as stated fails: when the first upload is rejected, one
    request has been made, not two, although the backend would have taken
    the second file. *)
Lemma upload_stops_after_first_rejection :
  length (sent_of (appended signed_in_world
    (DocumentsPage_upload
       (scripted_backend [reply_status 500 JNull; reply_status 201 JNull])
       DocumentsPage_initial_filters
       {| files := [police_report; scene_photo]; isUploading := false; caseId := "c-1" |}
       signed_in_world).2)) ≠ 2%nat.
Proof. vm_compute. discriminate. Qed.

(** C7, the claim as stated fails: [connect()] of the socket.io service
    opens a connection that carries the stored token. *)
Lemma socketio_connect_opens_connection :
  network_of (appended signed_in_world (SocketIo.connect SocketIo.initial signed_in_world).2)
  = [SocketIoOpen "/" (Some "tok-123") ["websocket"]]
  ∧ (SocketIo.connect SocketIo.initial signed_in_world).1 ≠ SocketIo.initial.
Proof. split; [vm_compute; reflexivity | vm_compute; discriminate]. Qed.

(** The categories request fails on the network. *)
Lemma getCategories_mock_witness :
  (getCategories (const_backend NetworkError) false signed_in_world).1
    = Resolved getMockCategories
  ∧ category_names getMockCategories = [JStr "system"; JStr "agents"]
  ∧ category_setting_keys getMockCategories
    = [[JStr "log_level"; JStr "enable_metrics"]; [JStr "agent_health_check_interval"]].
Proof.
  apply (getCategories_falls_back_to_mock (const_backend NetworkError) false signed_in_world
           {| err_response := None |}).
  reflexivity.
Defined.

(** C9, the claim as stated fails: the response of a failed update is not
    the flat object the specification describes; reading
    [requires_restart] off it gives [undefined]. *)
Lemma updateSetting_mock_is_not_flat :
  (updateSetting (const_backend NetworkError) show_number 7%float
     (obj [("value", JStr "DEBUG")]) signed_in_world).1
  ≠ Resolved spec_mock_update_response.
Proof.
  intros H.
  apply (f_equal (λ o, match o with
                       | Resolved v => truthy (opt_get v "data")
                       | Rejected _ => false
                       end)) in H.
  vm_compute in H. discriminate H.
Qed.

Lemma updateSetting_mock_witness :
  let mock :=
    JObj (obj [
      ("success", JBool true);
      ("message", JStr "Setting updated successfully (mock)");
      ("data", JObj (obj [("setting_id", JNum 7); ("requires_restart", JBool false)]))]) in
  (updateSetting (const_backend (reply_status 500 JNull)) show_number 7%float
     (obj [("value", JStr "DEBUG")]) signed_in_world).1 = Resolved mock
  ∧ (updateSetting (const_backend (reply_status 200 mock)) show_number 7%float
       (obj [("value", JStr "DEBUG")]) signed_in_world).1 = Resolved mock.
Proof.
  intros mock.
  destruct (updateSetting_failure_resolves_with_mock_success
              (const_backend (reply_status 500 JNull)) show_number 7%float
              (obj [("value", JStr "DEBUG")]) signed_in_world
              {| err_response := Some {| status := 500; data := JNull |} |})
    as (_ & Hfail & _ & _ & _ & Hsame); [reflexivity|].
  split; [exact Hfail | exact Hsame].
Defined.

(** C10, the claim as stated fails.  The form state that typing 19.99 into
    the estimated value leaves: [handleSubmit] posts 1998.9999999999998
    ([posted] below), which is less than 1999 and not exactly 100 times
    the number in the form.
    And the form state that holds 2^1020 (about 1.12e307) as the amount
    requested, which a browser enforcing [min] and [step] lets through:
    the product is not finite, and the JSON body carries [null]. *)
Lemma fractional_amount_is_not_posted_times_100 :
  let complete :=
    handleChange decimal_parseFloat "law_firm_id" "lf-7"
      (handleChange decimal_parseFloat "plaintiff_id" "p-12"
         (handleChange decimal_parseFloat "title" "Doe v. Acme Freight"
            NewCaseForm_initial)) in
  let typed := handleChange decimal_parseFloat "estimated_case_value" "19.99" complete in
  let huge := <["funding_amount_requested" := JNum 0x1p+1020]> complete in
  let posted := 0x1.f3bffffffffffp+10%float in
  (∃ body,
     sent_of (appended signed_in_world
       (handleSubmit (const_backend (reply_status 201 JNull)) nan_of_string nan_of_value
          true typed signed_in_world).2)
       = [Sent (build_request POST "/cases" ∅ (JsonBody body) ∅ signed_in_world)]
     ∧ typed !! "estimated_case_value" = Some (JNum (decimal_parseFloat "19.99"))
     ∧ body !! "estimated_case_value" = Some (JNum posted)
     ∧ json_body body !! "estimated_case_value" = Some (JNum posted)
     ∧ (posted <? 1999)%float = true
     ∧ ¬ exactly_times 100 (decimal_parseFloat "19.99") posted)
  ∧ (∃ body,
       sent_of (appended signed_in_world
         (NewCaseForm_submit (const_backend (reply_status 201 JNull)) nan_of_string
            nan_of_value whole_hundreds_only true huge signed_in_world).2)
         = [Sent (build_request POST "/cases" ∅ (JsonBody body) ∅ signed_in_world)]
       ∧ json_body body !! "funding_amount_requested" = Some JNull).
Proof.
  intros complete typed huge posted. split.
  - eexists. split; [vm_compute; reflexivity|].
    split; [vm_compute; reflexivity|]. split; [vm_compute; reflexivity|].
    split; [vm_compute; reflexivity|]. split; [vm_compute; reflexivity|].
    unfold exactly_times. vm_compute. discriminate.
  - eexists. split; vm_compute; reflexivity.
Qed.

(** A case worth 2500 dollars asking for 1000, and a non-numeric entry in
    an amount input. *)
Lemma new_case_amounts_witness :
  let formData :=
    handleChange digits_parseFloat "funding_amount_requested" "1000"
      (handleChange digits_parseFloat "estimated_case_value" "2500"
         (handleChange digits_parseFloat "law_firm_id" "lf-7"
            (handleChange digits_parseFloat "plaintiff_id" "p-12"
               (handleChange digits_parseFloat "title" "Doe v. Acme Freight"
                  NewCaseForm_initial)))) in
  ∃ body,
    sent_of (appended signed_in_world
      (handleSubmit (const_backend (reply_status 201 JNull)) nan_of_string nan_of_value
         true formData signed_in_world).2)
      = [Sent (build_request POST "/cases" ∅ (JsonBody body) ∅ signed_in_world)]
    ∧ body !! "estimated_case_value" = Some (JNum 250000)
    ∧ json_body body !! "estimated_case_value" = Some (JNum 250000)
    ∧ exactly_times 100 2500 250000
    ∧ body !! "funding_amount_requested" = Some (JNum 100000)
    ∧ json_body body !! "title" = Some (JStr "Doe v. Acme Freight")
    ∧ handleChange digits_parseFloat "estimated_case_value" "n/a" formData
        !! "estimated_case_value" = Some (JNum 0).
Proof.
  intros formData.
  destruct (new_case_amounts_posted_times_100
              (const_backend (reply_status 201 JNull)) digits_parseFloat
              nan_of_string nan_of_value true formData 2500%float 1000%float
              "estimated_case_value" "n/a" formData signed_in_world)
    as (body & Hsent & Hamount & Hother & Hentry & Hnan);
    [reflexivity | reflexivity | reflexivity | by left |].
  destruct (Hamount "estimated_case_value" 2500%float ltac:(by left)) as (Hest & Hjson & Hexact).
  destruct (Hamount "funding_amount_requested" 1000%float ltac:(right; by left))
    as (Hfund & _ & _).
  destruct Hexact as [Hexact _].
  { right. exists 2500. split; [vm_compute; reflexivity | lia]. }
  exists body. split; [exact Hsent|]. split; [exact Hest|]. split; [exact Hjson|].
  split; [exact Hexact|]. split; [exact Hfund|].
  split; [exact (proj2 (Hother "title" ltac:(discriminate) ltac:(discriminate)) _ eq_refl)|].
  exact (proj1 (Hnan eq_refl)).
Defined.

(** * Further runs of the model *)

(** A query that is not retried shows the one toast of its one request. *)
Example cases_fetch_without_retry :
  toasts_of (appended signed_in_world
    (cases_fetch (const_backend (reply_status 500 JNull)) 0 CasesPage_initial_filters
       signed_in_world).2)
  = [Toast TError (JStr "Server error. Please try again later.")].
Proof. vm_compute. reflexivity. Qed.

(** A retry that succeeds: the second attempt brings the rows, and the
    first attempt's toast has been shown all the same. *)
Example cases_fetch_recovers_on_retry :
  let rows := JObj (obj [("cases", JArr []); ("total", JNum 0)]) in
  let res := cases_fetch (scripted_backend [reply_status 503 JNull; reply_status 200 rows])
               3 CasesPage_initial_filters signed_in_world in
  res.1 = Resolved rows
  ∧ toasts_of (appended signed_in_world res.2)
    = [Toast TError (JStr "Server error. Please try again later.")]
  ∧ length (sent_of (appended signed_in_world res.2)) = 2%nat.
Proof. vm_compute. done. Qed.

(** A complete form refused by the backend with a 500: the interceptor's
    toast, react-query's log of the error, and the form's console line. *)
Example refused_case_creation_trace :
  let formData :=
    handleChange digits_parseFloat "law_firm_id" "lf-7"
      (handleChange digits_parseFloat "plaintiff_id" "p-12"
         (handleChange digits_parseFloat "title" "Doe v. Acme Freight" NewCaseForm_initial)) in
  let b := const_backend (reply_status 500 JNull) in
  drop 3 (appended signed_in_world
            (handleSubmit b nan_of_string nan_of_value true formData signed_in_world).2)
  = [Toast TError (JStr "Server error. Please try again later.");
     ConsoleValue LError {| err_response := Some {| status := 500; data := JNull |} |};
     Console LError "Failed to create case:"].
Proof. vm_compute. reflexivity. Qed.

(** The form state that holds 19.99 dollars does not pass a browser that
    enforces [step="100"]: submitted through the form element, nothing
    happens in the application. *)
Example fractional_amount_stopped_by_step :
  let formData :=
    handleChange decimal_parseFloat "estimated_case_value" "19.99"
      (handleChange decimal_parseFloat "law_firm_id" "lf-7"
         (handleChange decimal_parseFloat "plaintiff_id" "p-12"
            (handleChange decimal_parseFloat "title" "Doe v. Acme Freight"
               NewCaseForm_initial))) in
  (NewCaseForm_submit (const_backend (reply_status 201 JNull)) nan_of_string nan_of_value
     whole_hundreds_only true formData signed_in_world).2 = signed_in_world.
Proof. vm_compute. reflexivity. Qed.

(** A 422 whose body carries a [detail] shows that text; a 400 without one
    shows the fallback. *)
Example validation_error_shows_server_detail :
  toasts_of (appended signed_in_world
    (api_request
       (const_backend (reply_status 422 (JObj (obj [("detail", JStr "Title is too long")]))))
       POST "/cases" ∅ (JsonBody NewCaseForm_initial) ∅ signed_in_world).2)
  = [Toast TError (JStr "Title is too long")].
Proof. vm_compute. reflexivity. Qed.

Example bad_request_without_detail_shows_fallback :
  toasts_of (appended signed_in_world
    (api_request (const_backend (reply_status 400 (JStr "Bad Request")))
       GET "/cases" CasesPage_initial_filters NoBody ∅ signed_in_world).2)
  = [Toast TError (JStr "An unexpected error occurred")].
Proof. vm_compute. reflexivity. Qed.

(** Scenario 5 of the specification, with a case id entered and both
    uploads accepted: two posts, the second after the first has settled,
    then the success toast and one refetch. *)
Example upload_two_files_both_accepted :
  let st := {| files := [police_report; scene_photo]; isUploading := false; caseId := "c-1" |} in
  let res := DocumentsPage_upload (const_backend (reply_status 201 JNull))
               DocumentsPage_initial_filters st signed_in_world in
  let post (f : File) :=
    {| req_method := POST; req_url := "/api/documents/upload"; req_params := ∅;
       req_body := MultipartBody [("file", EntryFile f); ("case_id", EntryText "c-1")];
       req_headers := {[ "Content-Type" := "multipart/form-data" ]}
                      ∪ {[ "Authorization" := "Bearer tok-123" ]};
       req_timeout := 30000 |} in
  trace res.2
  = [Sent (post police_report); Settled (reply_status 201 JNull);
     Sent (post scene_photo); Settled (reply_status 201 JNull);
     Toast TSuccess (JStr "2 document(s) uploaded successfully");
     Refetch (documents_key DocumentsPage_initial_filters)]
  ∧ res.1 = {| files := []; isUploading := false; caseId := "" |}.
Proof. split; reflexivity. Qed.

(** [connect()] of the [WebSocket]-based service with a token stored. *)
Example native_connect_with_token :
  NativeWs.connect NativeWs.initial signed_in_world
  = (NativeWs.initial,
     {| localStorage := localStorage signed_in_world;
        defaults_common := defaults_common signed_in_world;
        location_href := "/cases";
        trace := [Console LLog "WebSocket disabled for simple backend"] |}).
Proof. reflexivity. Qed.

(** The amount inputs step by 100 from 0: for every such amount up to a
    million dollars the posted product is the amount in cents, with no
    rounding. *)
Example whole_amounts_scale_without_rounding :
  let amount (n : Z) := PrimFloat.of_uint63 (Uint63.of_Z n) in
  forallb (λ i : nat,
             let dollars := 100 * Z.of_nat i in
             PrimFloat.Leibniz.eqb (amount dollars * 100)%float (amount (100 * dollars)))
          (seq 0 (Z.to_nat 10001))
  = true.
Proof. vm_compute. reflexivity. Qed.

(** * Properties of the further code *)

Section MoreProperties.

Context (backend : nat → Request → Reply).
Context (StringToNumber : string → float).
Context (ObjectToNumber : JsValue → float).
Context (NumberToString : float → string).
Context (ObjectToString : JsValue → string).

(** ** The shared client *)

(** X1. A request through the shared client is sent exactly once, and it
    resolves exactly when the reply has a 2xx status.  Unless the reply has
    status 401, the stored token, the default headers and the location are
    what they were: no other failure signs the user out. *)
Theorem request_keeps_session_unless_401
    (m : Method) (path : string) (params : gmap string JsValue) (body : Body)
    (headers : gmap string string) (w : World) :
  let r := build_request m path params body headers w in
  let reply := backend (length (sent_of (trace w))) r in
  let res := api_request backend m path params body headers w in
  (∀ resp, reply = Replied resp → status resp ≠ 401) →
  sent_of (appended w res.2) = [Sent r]
  ∧ (if reply_ok reply then ∃ resp, res.1 = Resolved resp ∧ reply = Replied resp
     else ∃ e, res.1 = Rejected e)
  ∧ localStorage res.2 = localStorage w
  ∧ defaults_common res.2 = defaults_common w
  ∧ location_href res.2 = location_href w.
Proof.
  intros r reply res Hno401. subst res.
  rewrite api_request_run. fold r. fold reply.
  set (w1 := {| localStorage := localStorage w; defaults_common := defaults_common w;
                location_href := location_href w;
                trace := trace w ++ [Sent r; Settled reply] |}).
  assert (∀ e, status_is_401 e = false →
            let res := response_interceptor_rejected e w1 in
            sent_of (appended w res.2) = [Sent r]
            ∧ (∃ e', res.1 = Rejected e')
            ∧ localStorage res.2 = localStorage w
            ∧ defaults_common res.2 = defaults_common w
            ∧ location_href res.2 = location_href w) as Hrej.
  { intros e He. destruct (interceptor_not_401 e w1 He) as [msg [Heq _]].
    simpl. rewrite Heq. simpl. split; [|split; [by eexists|done]].
    erewrite appended_app; [|simpl; rewrite <- app_assoc; reflexivity]. reflexivity. }
  destruct reply as [resp| |] eqn:Hreply; simpl.
  - destruct (validateStatus (status resp)) eqn:Hv.
    + simpl. split; [|split; [by eexists|done]].
      erewrite appended_app; [|reflexivity]. reflexivity.
    + destruct (Hrej {| err_response := Some resp |}) as (H1 & H2 & H3); [|done].
      unfold status_is_401. simpl. apply Z.eqb_neq. by apply Hno401.
  - by destruct (Hrej {| err_response := None |}) as (H1 & H2 & H3).
  - by destruct (Hrej {| err_response := None |}) as (H1 & H2 & H3).
Qed.

(** ** The auth provider *)

(** A request either leaves the session state alone or, on a 401, ends
    the session. *)
Lemma api_request_session m path params body headers (w : World) :
  let res := api_request backend m path params body headers w in
  (localStorage res.2 = localStorage w
   ∧ defaults_common res.2 = defaults_common w
   ∧ location_href res.2 = location_href w)
  ∨ (localStorage res.2 = delete "auth_token" (localStorage w)
     ∧ defaults_common res.2 = delete "Authorization" (defaults_common w)
     ∧ location_href res.2 = "/login"
     ∧ ∃ e, res.1 = Rejected e).
Proof.
  intros res. subst res. rewrite api_request_run.
  set (w1 := {| localStorage := localStorage w; defaults_common := defaults_common w;
                location_href := location_href w; trace := _ |}).
  assert (∀ e, let res := response_interceptor_rejected e w1 in
               (localStorage res.2 = localStorage w
                ∧ defaults_common res.2 = defaults_common w
                ∧ location_href res.2 = location_href w)
               ∨ (localStorage res.2 = delete "auth_token" (localStorage w)
                  ∧ defaults_common res.2 = delete "Authorization" (defaults_common w)
                  ∧ location_href res.2 = "/login"
                  ∧ ∃ e, res.1 = Rejected e)) as Hrej.
  { intros e. destruct (status_is_401 e) eqn:H401.
    - rewrite interceptor_401 by done. right. simpl. repeat split; try done. by eexists.
    - destruct (interceptor_not_401 e w1 H401) as [msg [-> _]]. by left. }
  destruct (backend _ _) as [resp| |]; [|apply Hrej..].
  destruct (validateStatus (status resp)); [by left|apply Hrej].
Qed.

(** X2. When the login request resolves with a body whose [access_token]
    is a string, [login] returns the body's [user], the token is in
    localStorage, and every later request that does not set its own
    [Authorization] header carries [Bearer <token>]. *)
Theorem login_success_authorizes_later_requests
    (email password : string) (st : AuthState) (w : World) (resp : Response) (tok : string) :
  backend (length (sent_of (trace w)))
    (build_request POST "/auth/login" ∅
       (JsonBody (obj [("email", JStr email); ("password", JStr password)])) ∅ w)
    = Replied resp →
  validateStatus (status resp) = true →
  opt_get (data resp) "access_token" = JStr tok →
  let res := login backend NumberToString ObjectToString email password st w in
  res.1 = Returned {| user := opt_get (data resp) "user"; isLoading := isLoading st |}
  ∧ localStorage res.2 !! "auth_token" = Some tok
  ∧ ∀ m path params body headers,
      headers !! "Authorization" = None →
      req_headers (build_request m path params body headers res.2) !! "Authorization"
        = Some ("Bearer " +:+ tok).
Proof.
  intros Hrep Hok Htok res. subst res. unfold login, api_post.
  rewrite (ebind_run (api_request _ _ _ _ _ _)).
  rewrite api_request_run. rewrite Hrep, Hok. simpl fst. simpl snd.
  destruct (data resp) as [| | | | |xs|o] eqn:Hd; try discriminate Htok.
  cbn [opt_get] in Htok. cbn [opt_get]. rewrite Htok.
  unfold ebind, localStorage_setItem, set_default_header, eret. simpl.
  split; [reflexivity|]. split; [apply lookup_insert_eq|].
  intros m path params body headers Hh. simpl.
  rewrite lookup_union_r by done. apply lookup_insert_eq.
Qed.

(** X3. A [login] that ends in an error has signed nobody in: whatever
    token is stored afterwards was stored before, and the same holds for
    the default [Authorization] header. *)
Theorem failed_login_stores_no_token
    (email password : string) (st : AuthState) (w : World) (t : Thrown) :
  let res := login backend NumberToString ObjectToString email password st w in
  res.1 = Threw t →
  (∀ v, localStorage res.2 !! "auth_token" = Some v → localStorage w !! "auth_token" = Some v)
  ∧ (∀ v, defaults_common res.2 !! "Authorization" = Some v
          → defaults_common w !! "Authorization" = Some v).
Proof.
  intros res. subst res. unfold login, api_post.
  rewrite (ebind_run (api_request _ _ _ _ _ _)).
  pose proof (api_request_session POST "/auth/login" ∅
                (JsonBody (obj [("email", JStr email); ("password", JStr password)])) ∅ w)
    as Hs. simpl in Hs.
  destruct (api_request _ _ _ _ _ _ w) as [o w1]. simpl in *.
  assert ((∀ v, localStorage w1 !! "auth_token" = Some v → localStorage w !! "auth_token" = Some v)
          ∧ (∀ v, defaults_common w1 !! "Authorization" = Some v
                  → defaults_common w !! "Authorization" = Some v)) as Hsub.
  { destruct Hs as [(-> & -> & _) | (-> & -> & _)]; [done|].
    split; intros v; rewrite lookup_delete_eq; discriminate. }
  destruct o as [response|error]; [|done].
  destruct (data response); simpl; try done.
Qed.

(** X4. On mount with a non-empty stored token the provider asks
    [/auth/me] once, with [Bearer <token>], and stops loading.  If the
    request resolves the user is the response body and the token stays; if
    it is rejected, for whatever reason, the stored token and the default
    header are gone and the user is unchanged. *)
Theorem mount_with_token_checks_it
    (st : AuthState) (w : World) (t : string) :
  localStorage w !! "auth_token" = Some t →
  t ≠ "" →
  let w0 := (set_default_header "Authorization" ("Bearer " +:+ t) w).2 in
  let r := build_request GET "/auth/me" ∅ NoBody ∅ w0 in
  let reply := backend (length (sent_of (trace w))) r in
  let res := AuthProvider_mount backend st w in
  req_headers r !! "Authorization" = Some ("Bearer " +:+ t)
  ∧ sent_of (appended w res.2) = [Sent r]
  ∧ isLoading res.1 = false
  ∧ if reply_ok reply then
      (∃ resp, reply = Replied resp ∧ user res.1 = data resp)
      ∧ localStorage res.2 !! "auth_token" = Some t
      ∧ defaults_common res.2 !! "Authorization" = Some ("Bearer " +:+ t)
    else
      user res.1 = user st
      ∧ localStorage res.2 !! "auth_token" = None
      ∧ defaults_common res.2 !! "Authorization" = None.
Proof.
  intros Htok Hne w0 r reply res. subst res.
  split. { subst r w0. simpl. rewrite lookup_union_r by done. apply lookup_insert_eq. }
  assert (AuthProvider_mount backend st w = checkAuth backend st w0) as ->.
  { unfold AuthProvider_mount, ebind at 1. unfold localStorage_getItem.
    rewrite Htok. unfold token_present.
    assert (String.eqb t "" = false) as -> by (by apply String.eqb_neq).
    reflexivity. }
  unfold checkAuth, api_get. rewrite (ebind_run (api_request _ _ _ _ _ _)).
  destruct (api_request_spec backend GET "/auth/me" ∅ NoBody ∅ w0)
    as (o & w1 & tl & Heq & Htr & Htl & Hok & Hrej).
  fold r in Htr, Hok, Hrej.
  change (length (sent_of (trace w0))) with (length (sent_of (trace w))) in Htr, Hok, Hrej.
  fold reply in Htr, Hok, Hrej.
  rewrite Heq. simpl fst. simpl snd.
  change (trace w0) with (trace w) in Htr.
  destruct (reply_ok reply) eqn:Hr.
  - destruct (Hok eq_refl) as (-> & (resp & Hrep & ->) & Hls & Hdc & _). simpl.
    split. { erewrite appended_app; [|exact Htr]. reflexivity. }
    split; [reflexivity|]. split; [by exists resp|].
    rewrite Hls, Hdc. split; [exact Htok|]. subst w0. simpl. apply lookup_insert_eq.
  - destruct (Hrej eq_refl) as [e ->].
    unfold ebind, localStorage_removeItem, delete_default_header, eret. simpl.
    split.
    { erewrite appended_app; [|exact Htr].
      change (Sent r :: Settled reply :: tl) with ([Sent r; Settled reply] ++ tl).
      rewrite sent_of_app, (sent_of_toasts tl Htl). reflexivity. }
    split; [reflexivity|]. split; [reflexivity|].
    split; apply lookup_delete_eq.
Qed.

(** X5. Mounting the provider after [logout] finds no token: no request
    is sent, loading ends with no user, and neither a token nor a default
    [Authorization] header is left. *)
Theorem logout_then_mount_is_signed_out (st : AuthState) (w : World) :
  let out := logout st w in
  let res := AuthProvider_mount backend out.1 out.2 in
  res.1 = {| user := JNull; isLoading := false |}
  ∧ appended w res.2 = []
  ∧ localStorage res.2 !! "auth_token" = None
  ∧ defaults_common res.2 !! "Authorization" = None.
Proof.
  intros out res. subst res out.
  unfold logout, ebind, localStorage_removeItem, delete_default_header, eret. simpl.
  unfold AuthProvider_mount. rewrite (ebind_run (localStorage_getItem _)). simpl.
  rewrite lookup_delete_eq. simpl.
  split; [reflexivity|]. split; [apply appended_app; simpl; by rewrite app_nil_r|].
  split; apply lookup_delete_eq.
Qed.

(** ** Uploading a selection of any size *)

Lemma upload_request_defaults (cid : string) (w w0 : World) (f : File) :
  defaults_common w = defaults_common w0 →
  build_request POST "/documents/upload" ∅ (MultipartBody (upload_formData cid f))
    upload_headers w = upload_request cid w0 f.
Proof. intros H. unfold upload_request, build_request. by rewrite H. Qed.

Lemma sent_of_upload_trace (cid : string) (w0 : World) (n : nat) (fs : list File) :
  sent_of (upload_trace backend cid w0 n fs) = (λ f, Sent (upload_request cid w0 f)) <$> fs.
Proof.
  revert n. induction fs as [|f rest IH]; intros n; [reflexivity|].
  simpl. unfold sent_of in *. rewrite filter_cons. simpl.
  rewrite filter_cons. simpl. by rewrite IH.
Qed.

Lemma refetches_of_upload_trace (cid : string) (w0 : World) (n : nat) (fs : list File) :
  refetches_of (upload_trace backend cid w0 n fs) = [].
Proof.
  revert n. induction fs as [|f rest IH]; intros n; [reflexivity|].
  simpl. unfold refetches_of in *. rewrite filter_cons. simpl.
  rewrite filter_cons. simpl. apply IH.
Qed.

Lemma toasts_of_upload_trace (cid : string) (w0 : World) (n : nat) (fs : list File) :
  toasts_of (upload_trace backend cid w0 n fs) = [].
Proof.
  revert n. induction fs as [|f rest IH]; intros n; [reflexivity|].
  simpl. unfold toasts_of in *. rewrite filter_cons. simpl.
  rewrite filter_cons. simpl. apply IH.
Qed.

(** The loop when every post is accepted. *)
Lemma upload_each_all_accepted (cid : string) (fs : list File) :
  ∀ (w w0 : World) (n : nat),
    defaults_common w = defaults_common w0 →
    n = length (sent_of (trace w)) →
    (∀ i f, fs !! i = Some f →
            reply_ok (backend (n + i) (upload_request cid w0 f)) = true) →
    upload_each backend cid fs w
    = (Resolved tt,
       {| localStorage := localStorage w;
          defaults_common := defaults_common w;
          location_href := location_href w;
          trace := trace w ++ upload_trace backend cid w0 n fs |}).
Proof.
  induction fs as [|f rest IH]; intros w w0 n Hd Hn Hall.
  - simpl. unfold eret. rewrite app_nil_r. by destruct w.
  - cbn [upload_each upload_trace]. unfold api_post.
    rewrite (ebind_run (api_request _ _ _ _ _ _)).
    rewrite api_request_run. rewrite (upload_request_defaults cid w w0 f Hd).
    rewrite <- Hn.
    pose proof (Hall 0%nat f eq_refl) as H0. rewrite Nat.add_0_r in H0.
    destruct (backend n (upload_request cid w0 f)) as [resp| |] eqn:Hrep;
      try discriminate H0.
    simpl in H0. rewrite H0. simpl fst. simpl snd.
    rewrite (IH _ w0 (S n)).
    + simpl. rewrite <- app_assoc. reflexivity.
    + exact Hd.
    + simpl. rewrite sent_of_app, length_app, <- Hn. simpl. lia.
    + intros i f' Hi. replace (S n + i)%nat with (n + S i)%nat by lia.
      by apply Hall.
Qed.

(** The loop when the post of the file at index [k] is the first to be
    rejected. *)
Lemma upload_each_rejected_at (cid : string) (fs : list File) :
  ∀ (k : nat) (w w0 : World) (n : nat) (fk : File),
    defaults_common w = defaults_common w0 →
    n = length (sent_of (trace w)) →
    fs !! k = Some fk →
    (∀ i f, (i < k)%nat → fs !! i = Some f →
            reply_ok (backend (n + i) (upload_request cid w0 f)) = true) →
    reply_ok (backend (n + k) (upload_request cid w0 fk)) = false →
    ∃ e w' tl,
      upload_each backend cid fs w = (Rejected e, w')
      ∧ trace w' = trace w ++ upload_trace backend cid w0 n (take (S k) fs) ++ tl
      ∧ Forall (λ e, is_toast e = true) tl.
Proof.
  induction fs as [|f rest IH]; intros k w w0 n fk Hd Hn Hk Hbefore Hfail; [done|].
  cbn [upload_each]. unfold api_post. rewrite (ebind_run (api_request _ _ _ _ _ _)).
  destruct k as [|k].
  - injection Hk as ->. rewrite Nat.add_0_r in Hfail.
    destruct (api_request_spec backend POST "/documents/upload" ∅
                (MultipartBody (upload_formData cid fk)) upload_headers w)
      as (o & w' & tl & Heq & Htr & Htl & _ & Hrej).
    rewrite (upload_request_defaults cid w w0 fk Hd), <- Hn in Htr, Hrej.
    destruct (Hrej Hfail) as [e ->]. rewrite Heq. simpl.
    exists e, w', tl. split; [reflexivity|]. split; [|exact Htl].
    rewrite Htr. reflexivity.
  - rewrite api_request_run. rewrite (upload_request_defaults cid w w0 f Hd), <- Hn.
    pose proof (Hbefore 0%nat f ltac:(lia) eq_refl) as H0. rewrite Nat.add_0_r in H0.
    destruct (backend n (upload_request cid w0 f)) as [resp| |] eqn:Hrep;
      try discriminate H0.
    simpl in H0. rewrite H0. simpl fst. simpl snd.
    set (w1 := {| localStorage := localStorage w; defaults_common := defaults_common w;
                  location_href := location_href w;
                  trace := trace w ++ [Sent (upload_request cid w0 f); Settled (Replied resp)] |}).
    assert (S n = length (sent_of (trace w1))) as Hn1.
    { subst w1. simpl. rewrite sent_of_app, length_app, <- Hn. simpl. lia. }
    destruct (IH k w1 w0 (S n) fk Hd Hn1 Hk) as (e & w' & tl & Heq & Htr & Htl).
    + intros i f' Hi Hf'. replace (S n + i)%nat with (n + S i)%nat by lia.
      apply Hbefore; [lia|exact Hf'].
    + replace (S n + k)%nat with (n + S k)%nat by lia. exact Hfail.
    + change (upload_each backend cid rest w1 = (Rejected e, w')) in Heq.
      fold w1. cbn [fst snd]. rewrite Heq. exists e, w', tl. split; [reflexivity|]. split; [|exact Htl].
      rewrite Htr. simpl. rewrite <- app_assoc. simpl. rewrite Hrep. reflexivity.
Qed.

(** X6. Uploading a non-empty selection whose posts are all accepted
    sends one multipart request per file, in the order of the selection and
    each after the previous one has settled, then shows the success toast
    with the number of files, refetches the documents query once, and
    clears the selection and the case id. *)
Theorem upload_all_accepted
    (fs : list File) (cid : string) (busy : bool) (filters : gmap string JsValue) (w : World) :
  let n := length (sent_of (trace w)) in
  let res := DocumentsPage_upload backend filters
               {| files := fs; isUploading := busy; caseId := cid |} w in
  fs ≠ [] →
  (∀ i f, fs !! i = Some f → reply_ok (backend (n + i) (upload_request cid w f)) = true) →
  appended w res.2
    = upload_trace backend cid w n fs
      ++ [Toast TSuccess (JStr (pretty (length fs) +:+ " document(s) uploaded successfully"));
          Refetch (documents_key filters)]
  ∧ sent_of (appended w res.2) = (λ f, Sent (upload_request cid w f)) <$> fs
  ∧ refetches_of (appended w res.2) = [Refetch (documents_key filters)]
  ∧ res.1 = {| files := []; isUploading := false; caseId := "" |}.
Proof.
  intros n res Hne Hall. subst res.
  unfold DocumentsPage_upload, handleUpload. cbn [files caseId].
  destruct fs as [|f0 rest] eqn:Hfs; [done|]. rewrite <- Hfs in *. clear Hne.
  rewrite (ebind_run (upload_each _ _ _)).
  rewrite (upload_each_all_accepted cid fs w w n eq_refl eq_refl Hall).
  cbn [fst snd]. unfold ebind, toast_success, handleUploadSuccess, emit, eret. simpl.
  rewrite <- !app_assoc. simpl.
  assert (appended w
            {| localStorage := localStorage w; defaults_common := defaults_common w;
               location_href := location_href w;
               trace := trace w ++ upload_trace backend cid w n fs ++
                 [Toast TSuccess (JStr (pretty (length fs) +:+ " document(s) uploaded successfully"));
                  Refetch (documents_key filters)] |}
          = upload_trace backend cid w n fs ++
              [Toast TSuccess (JStr (pretty (length fs) +:+ " document(s) uploaded successfully"));
               Refetch (documents_key filters)]) as -> by (by apply appended_app).
  split; [reflexivity|].
  split; [rewrite sent_of_app, sent_of_upload_trace; simpl; by rewrite app_nil_r|].
  split; [|reflexivity].
  unfold refetches_of. rewrite filter_app. fold (refetches_of (upload_trace backend cid w n fs)).
  rewrite refetches_of_upload_trace. reflexivity.
Qed.

(** X7. If the post of the file at index [k] is the first to be
    rejected, the files up to and including it have been posted and none
    after it; the documents query is not refetched, and the whole selection,
    the files already stored included, stays selected with the case id. *)
Theorem upload_stops_at_first_rejection
    (fs : list File) (k : nat) (fk : File) (cid : string) (busy : bool)
    (filters : gmap string JsValue) (w : World) :
  let n := length (sent_of (trace w)) in
  let res := DocumentsPage_upload backend filters
               {| files := fs; isUploading := busy; caseId := cid |} w in
  fs !! k = Some fk →
  (∀ i f, (i < k)%nat → fs !! i = Some f →
          reply_ok (backend (n + i) (upload_request cid w f)) = true) →
  reply_ok (backend (n + k) (upload_request cid w fk)) = false →
  sent_of (appended w res.2) = (λ f, Sent (upload_request cid w f)) <$> take (S k) fs
  ∧ refetches_of (appended w res.2) = []
  ∧ res.1 = {| files := fs; isUploading := false; caseId := cid |}.
Proof.
  intros n res Hk Hbefore Hfail. subst res.
  unfold DocumentsPage_upload, handleUpload. cbn [files caseId].
  destruct fs as [|f0 rest] eqn:Hfs; [done|]. rewrite <- Hfs in *.
  rewrite (ebind_run (upload_each _ _ _)).
  destruct (upload_each_rejected_at cid fs k w w n fk eq_refl eq_refl Hk Hbefore Hfail)
    as (e & w' & tl & Heq & Htr & Htl).
  rewrite Heq. cbn [fst snd]. unfold ebind, console_error, emit, eret. simpl.
  erewrite appended_app; [|rewrite Htr, <- !app_assoc; reflexivity].
  split; [|split; [|reflexivity]].
  - rewrite !sent_of_app, sent_of_upload_trace, (sent_of_toasts tl Htl). simpl.
    by rewrite app_nil_r.
  - unfold refetches_of. rewrite !filter_app.
    fold (refetches_of (upload_trace backend cid w n (take (S k) fs))).
    fold (refetches_of tl).
    rewrite refetches_of_upload_trace, (refetches_of_toasts tl Htl). reflexivity.
Qed.

(** ** The selection of files *)

Lemma filter_indexed_past {A} (t off : nat) (xs : list A) :
  (t < off)%nat → filter_indexed (λ _ j, negb (j =? t)%nat) off xs = xs.
Proof.
  revert off. induction xs as [|x rest IH]; intros off Hlt; [reflexivity|].
  simpl. destruct (Nat.eqb_spec off t); [lia|]. simpl. f_equal. apply IH. lia.
Qed.

Lemma filter_indexed_delete {A} (t off : nat) (xs : list A) :
  (off ≤ t)%nat → filter_indexed (λ _ j, negb (j =? t)%nat) off xs = delete (t - off)%nat xs.
Proof.
  revert off. induction xs as [|x rest IH]; intros off Hle.
  - by destruct (t - off)%nat.
  - simpl. destruct (Nat.eqb_spec off t) as [->|Hne]; simpl.
    + rewrite Nat.sub_diag. simpl. apply filter_indexed_past. lia.
    + replace (t - off)%nat with (S (t - S off)) by lia. simpl. f_equal. apply IH. lia.
Qed.

(** X8. [removeFile(index)] takes out exactly the file at that index:
    the files before and after it stay, in their order; an index past the
    end changes nothing; and removing the file that was just dropped onto
    the selection gives the selection back. *)
Theorem removeFile_removes_the_indexed_file
    (index : nat) (st : UploadState) (f : File) :
  files (removeFile index st) = take index (files st) ++ drop (S index) (files st)
  ∧ caseId (removeFile index st) = caseId st
  ∧ isUploading (removeFile index st) = isUploading st
  ∧ (length (files st) ≤ index → removeFile index st = st)%nat
  ∧ removeFile (length (files st)) (onDrop [f] st) = st.
Proof.
  assert (∀ i s, files (removeFile i s) = delete i (files s)) as Hdel.
  { intros i s. unfold removeFile. simpl.
    rewrite filter_indexed_delete by lia. by rewrite Nat.sub_0_r. }
  assert (∀ i s, (length (files s) ≤ i)%nat → removeFile i s = s) as Hpast.
  { intros i s Hi. destruct s as [fl u c]. unfold removeFile. simpl in *. f_equal.
    rewrite filter_indexed_delete, Nat.sub_0_r by lia.
    rewrite delete_take_drop, take_ge, drop_ge by lia. by rewrite app_nil_r. }
  split; [rewrite Hdel; apply delete_take_drop|].
  split; [reflexivity|]. split; [reflexivity|]. split; [apply Hpast|].
  destruct st as [fl u c]. unfold removeFile, onDrop. simpl. f_equal.
  rewrite filter_indexed_delete, Nat.sub_0_r by lia.
  rewrite delete_take_drop, take_app_length, drop_app_ge by lia.
  replace (S (length fl) - length fl)%nat with 1%nat by lia. simpl. by rewrite app_nil_r.
Qed.

(** ** Creating a case *)

(** The interceptor adds at most one event to the trace, an error toast,
    and a request that does not resolve rejects with the error of its
    reply. *)
Lemma api_request_error_toasts m path params body headers (w : World) :
  let r := build_request m path params body headers w in
  let reply := backend (length (sent_of (trace w))) r in
  let res := api_request backend m path params body headers w in
  ∃ tl,
    trace res.2 = trace w ++ Sent r :: Settled reply :: tl
    ∧ Forall (λ e, ∃ msg, e = Toast TError msg) tl
    ∧ (length tl ≤ 1)%nat
    ∧ if reply_ok reply then tl = [] ∧ ∃ resp, res.1 = Resolved resp
      else res.1 = Rejected (error_of_reply reply).
Proof.
  intros r reply res. subst res. rewrite api_request_run. fold r. fold reply.
  set (w1 := {| localStorage := localStorage w; defaults_common := defaults_common w;
                location_href := location_href w;
                trace := trace w ++ [Sent r; Settled reply] |}).
  assert (∀ e, let res := response_interceptor_rejected e w1 in
               ∃ tl, trace res.2 = trace w ++ Sent r :: Settled reply :: tl
                     ∧ Forall (λ e, ∃ msg, e = Toast TError msg) tl
                     ∧ (length tl ≤ 1)%nat
                     ∧ res.1 = Rejected e) as Hrej.
  { intros e. destruct (status_is_401 e) eqn:H401.
    - rewrite interceptor_401 by done. exists []. simpl.
      split; [reflexivity|]. split; [constructor|]. split; [lia|reflexivity].
    - destruct (interceptor_not_401 e w1 H401) as [msg [-> _]].
      exists [Toast TError msg]. simpl. rewrite <- app_assoc.
      split; [reflexivity|]. split; [repeat constructor; by eexists|].
      split; [lia|reflexivity]. }
  destruct reply as [resp| |]; simpl.
  - destruct (validateStatus (status resp)).
    + exists []. simpl. split; [reflexivity|]. split; [constructor|].
      split; [lia|]. split; [reflexivity|by eexists].
    + destruct (Hrej {| err_response := Some resp |}) as (tl & ? & ? & ? & ?). by exists tl.
  - destruct (Hrej {| err_response := None |}) as (tl & ? & ? & ? & ?). by exists tl.
  - destruct (Hrej {| err_response := None |}) as (tl & ? & ? & ? & ?). by exists tl.
Qed.

(** X9. A submission of the new-case form that passes the
    required-fields check invalidates the [cases] and [dashboard-stats]
    queries, shows the success toast and calls [onSuccess] exactly when the
    POST resolves, in that order.  When the POST is rejected none of these
    happens: after the interceptor's error toast, if any, react-query logs
    the error and the form's [onError] writes its console line. *)
Theorem case_creation_invalidates_only_on_success
    (onSuccess : bool) (formData : gmap string JsValue) (w : World) :
  let r := build_request POST "/cases" ∅
             (JsonBody (createCase_body StringToNumber ObjectToNumber formData)) ∅ w in
  let reply := backend (length (sent_of (trace w))) r in
  let res := handleSubmit backend StringToNumber ObjectToNumber onSuccess formData w in
  missing_required formData = false →
  if reply_ok reply then
    appended w res.2
    = [PreventDefault; Sent r; Settled reply;
       InvalidateQueries "cases"; InvalidateQueries "dashboard-stats";
       Toast TSuccess
         (JStr "Case created successfully! AI agents are now processing this case.");
       Console LLog "Case created:"]
      ++ (if onSuccess then [PropCallback "onSuccess"] else [])
  else
    ∃ tl,
      appended w res.2
      = [PreventDefault; Sent r; Settled reply] ++ tl
        ++ [ConsoleValue LError (error_of_reply reply);
            Console LError "Failed to create case:"]
      ∧ Forall (λ e, ∃ msg, e = Toast TError msg) tl
      ∧ (length tl ≤ 1)%nat.
Proof.
  intros r reply res Hok. subst res. unfold handleSubmit. rewrite Hok.
  rewrite (ebind_run (emit PreventDefault)).
  set (w1 := (emit PreventDefault w).2).
  unfold createCaseMutation_mutate, createCase_mutationFn, api_post.
  rewrite (ebind_run (api_request _ _ _ _ _ _)).
  destruct (api_request_error_toasts POST "/cases" ∅
              (JsonBody (createCase_body StringToNumber ObjectToNumber formData)) ∅ w1)
    as (tl & Htr & Htl & Hlen & Hcase).
  change (build_request POST "/cases" ∅
            (JsonBody (createCase_body StringToNumber ObjectToNumber formData)) ∅ w1)
    with r in Htr, Hcase.
  assert (length (sent_of (trace w1)) = length (sent_of (trace w))) as Hn.
  { subst w1. simpl. rewrite sent_of_app. simpl. by rewrite app_nil_r. }
  rewrite Hn in Htr, Hcase. fold reply in Htr, Hcase.
  change (trace w1) with (trace w ++ [PreventDefault]) in Htr.
  rewrite <- app_assoc in Htr. simpl in Htr.
  destruct (api_request backend POST "/cases" ∅ _ ∅ w1) as [o w2]. simpl in Htr, Hcase.
  cbn [fst snd].
  destruct (reply_ok reply).
  - destruct Hcase as [-> [resp ->]].
    apply appended_app.
    destruct onSuccess; unfold ebind, emit, toast_success, console_log, emit, eret; simpl;
      rewrite Htr, <- !app_assoc; reflexivity.
  - rewrite Hcase. exists tl. split; [|done].
    apply appended_app. unfold ebind, useMutation_logs, console_error, emit. simpl.
    rewrite Htr, <- !app_assoc. reflexivity.
Qed.

(** ** Filters and pages *)

(** X10. A filter control changes its own filter to the chosen value and
    leaves every other property of the filter state, the page aside, as it
    was: the other filters and the page size survive the change. *)
Theorem filter_change_keeps_other_filters
    (c : FilterControl) (value : string) (prev : gmap string JsValue) (k : string) :
  k ≠ "page" →
  k ≠ control_field c →
  control_change c value prev !! control_field c = Some (JStr value)
  ∧ control_change c value prev !! k = prev !! k.
Proof.
  intros Hpage Hfield. split.
  - destruct c; simpl;
      [ unfold CaseFilters_search | unfold CaseFilters_status
      | unfold CaseFilters_case_type | unfold DocumentList_search
      | unfold DocumentList_document_type | unfold DocumentList_status ];
      try (apply handleFilterChange_takes; [done | rewrite obj_singleton; apply lookup_insert_eq]);
      (rewrite lookup_insert_ne by done); apply lookup_insert_eq.
  - destruct c; simpl in *;
      [ unfold CaseFilters_search, handleFilterChange, spread
      | unfold CaseFilters_status, handleFilterChange, spread
      | unfold CaseFilters_case_type, handleFilterChange, spread
      | unfold DocumentList_search
      | unfold DocumentList_document_type | unfold DocumentList_status ];
      rewrite ?obj_singleton;
      (rewrite lookup_insert_ne by done);
      try (rewrite lookup_union_r; [reflexivity|by rewrite lookup_insert_ne]);
      by rewrite lookup_insert_ne.
Qed.

(** X11. Going to another page of the cases list changes nothing but the
    page, gives a different query key when the page differs, and going back
    to the page one came from restores the filter state, hence the query
    key, exactly. *)
Theorem page_change_round_trip
    (page p0 : JsValue) (prev : gmap string JsValue) :
  prev !! "page" = Some p0 →
  (∀ k, k ≠ "page" → CasesPage_onPageChange page prev !! k = prev !! k)
  ∧ (page ≠ p0 → cases_key (CasesPage_onPageChange page prev) ≠ cases_key prev)
  ∧ cases_key (CasesPage_onPageChange p0 (CasesPage_onPageChange page prev)) = cases_key prev.
Proof.
  intros Hp. unfold CasesPage_onPageChange, cases_key.
  split; [intros k Hk; by rewrite lookup_insert_ne|]. split.
  - intros Hne Heq. injection Heq as Heq. apply Hne.
    assert (<["page" := page]> prev !! "page" = Some p0) as H by (by rewrite Heq).
    rewrite lookup_insert_eq in H. by injection H.
  - f_equal. rewrite insert_insert_eq. by apply insert_id.
Qed.

(** ** The [WebSocket]-based service as a whole *)

Lemma network_of_console_only (es : list Event) : console_only es → network_of es = [].
Proof.
  induction 1 as [|e es (l & msg & ->) _ IH]; [reflexivity|].
  unfold network_of in *. rewrite filter_cons. simpl. exact IH.
Qed.

Lemma console_step_refl (w : World) : console_step w w.
Proof. repeat split. exists []. split; [by rewrite app_nil_r|constructor]. Qed.

Lemma console_step_trans (w1 w2 w3 : World) :
  console_step w1 w2 → console_step w2 w3 → console_step w1 w3.
Proof.
  intros (H1 & H2 & H3 & es & Ht & Hes) (H1' & H2' & H3' & es' & Ht' & Hes').
  split; [congruence|]. split; [congruence|]. split; [congruence|].
  exists (es ++ es'). split; [rewrite Ht', Ht; by rewrite app_assoc|].
  by apply Forall_app.
Qed.

Lemma console_step_emit (l : Level) (msg : string) (w : World) :
  console_step w (emit (Console l msg) w).2.
Proof.
  repeat split. exists [Console l msg]. split; [reflexivity|].
  repeat constructor. by eexists _, _.
Qed.

Lemma call_each_run (throws : nat → JsValue → bool) (event : string) (data : JsValue)
    (listeners : list nat) (w : World) :
  ∃ w', NativeWsApi.call_each throws event data listeners w = (listeners, w')
        ∧ console_step w w'.
Proof.
  revert w. induction listeners as [|cb rest IH]; intros w.
  - exists w. split; [reflexivity|apply console_step_refl].
  - cbn [NativeWsApi.call_each]. unfold ebind.
    destruct (throws cb data).
    + destruct (IH (console_error
                      ("Error in WebSocket event listener for " +:+ event +:+ ":") w).2)
        as (w' & Heq & Hs).
      exists w'. unfold console_error at 1, emit at 1. cbv beta iota.
      unfold console_error, emit in Heq. cbn [snd] in Heq. rewrite Heq.
      split; [reflexivity|].
      eapply console_step_trans; [apply (console_step_emit LError)|exact Hs].
    + destruct (IH w) as (w' & Heq & Hs). exists w'.
      unfold eret at 1. rewrite Heq. by split.
Qed.

(** One call on a service without a socket. *)
Lemma native_call_without_socket (throws : nat → JsValue → bool)
    (c : NativeWsApi.Call) (this : NativeWs.WebSocketService) (w : World) :
  NativeWs.ws this = None →
  NativeWs.ws (NativeWsApi.call throws c this w).1 = None
  ∧ console_step w (NativeWsApi.call throws c this w).2.
Proof.
  intros Hws. destruct c as [| |event cb|event callback|event d|d]; simpl.
  - rewrite native_connect_run. simpl. split; [exact Hws|].
    rewrite Hws. simpl. apply (console_step_emit LLog).
  - unfold NativeWsApi.disconnect. rewrite Hws. simpl. split; [exact Hws|apply console_step_refl].
  - split; [exact Hws|apply console_step_refl].
  - split; [|apply console_step_refl].
    unfold NativeWsApi.off. destruct callback; [destruct (_ !! _)|]; exact Hws.
  - rewrite (ebind_run (NativeWsApi.emit _ _ _ _)). simpl. split; [exact Hws|].
    unfold NativeWsApi.emit. destruct (_ !! _) as [ls|]; [|apply console_step_refl].
    destruct (call_each_run throws event d ls w) as (w' & -> & Hs). exact Hs.
  - rewrite (ebind_run (NativeWsApi.send _ _)). simpl. split; [exact Hws|].
    unfold NativeWsApi.send. rewrite Hws. simpl. apply (console_step_emit LWarn).
Qed.

Lemma native_calls_without_socket (throws : nat → JsValue → bool)
    (cs : list NativeWsApi.Call) :
  ∀ (this : NativeWs.WebSocketService) (w : World),
    NativeWs.ws this = None →
    NativeWs.ws (NativeWsApi.calls throws cs this w).1 = None
    ∧ console_step w (NativeWsApi.calls throws cs this w).2.
Proof.
  induction cs as [|c rest IH]; intros this w Hws.
  - split; [exact Hws|apply console_step_refl].
  - cbn [NativeWsApi.calls]. rewrite (ebind_run (NativeWsApi.call _ _ _)).
    destruct (native_call_without_socket throws c this w Hws) as [Hws1 Hs1].
    destruct (IH _ (NativeWsApi.call throws c this w).2 Hws1) as [Hws2 Hs2].
    split; [exact Hws2|by eapply console_step_trans].
Qed.

(** X12. Whatever sequence of [connect], [disconnect], [on], [off],
    [emit] and [send] calls is made on the [WebSocket]-based service from
    its initial state, it never has a socket: [connected] stays false,
    nothing reaches the network, the session state is untouched, and a
    [send] is dropped with a warning. *)
Theorem native_service_never_has_a_socket
    (throws : nat → JsValue → bool) (cs : list NativeWsApi.Call) (data : JsValue) (w : World) :
  let res := NativeWsApi.calls throws cs NativeWs.initial w in
  NativeWs.ws res.1 = None
  ∧ NativeWs.connected res.1 = false
  ∧ network_of (appended w res.2) = []
  ∧ localStorage res.2 = localStorage w
  ∧ defaults_common res.2 = defaults_common w
  ∧ location_href res.2 = location_href w
  ∧ NativeWsApi.send data res.1 res.2
    = (None, (emit (Console LWarn "WebSocket is not connected") res.2).2).
Proof.
  intros res.
  destruct (native_calls_without_socket throws cs NativeWs.initial w eq_refl)
    as (Hws & Hls & Hdc & Hhref & es & Htr & Hes).
  fold res in Hws, Hls, Hdc, Hhref, Htr.
  split; [exact Hws|]. split; [unfold NativeWs.connected; by rewrite Hws|].
  split; [erewrite appended_app by exact Htr; by apply network_of_console_only|].
  do 3 (split; [done|]).
  unfold NativeWsApi.send. by rewrite Hws.
Qed.

(** ** Listeners of the [WebSocket]-based service *)

Lemma emit_calls_listeners (throws : nat → JsValue → bool) (event : string) (d : JsValue)
    (this : NativeWs.WebSocketService) (w : World) :
  (NativeWsApi.emit throws event d this w).1 = NativeWsApi.listeners_of event this.
Proof.
  unfold NativeWsApi.emit, NativeWsApi.listeners_of.
  destruct (_ !! _) as [ls|]; [|reflexivity].
  by destruct (call_each_run throws event d ls w) as (w' & -> & _).
Qed.

Lemma listeners_of_on (event e : string) (cb : nat) (this : NativeWs.WebSocketService) :
  NativeWsApi.listeners_of e (NativeWsApi.on event cb this)
  = if decide (e = event)
    then NativeWsApi.set_add cb (NativeWsApi.listeners_of event this)
    else NativeWsApi.listeners_of e this.
Proof.
  unfold NativeWsApi.listeners_of, NativeWsApi.on. simpl.
  destruct (decide (e = event)) as [->|Hne].
  - rewrite lookup_insert_eq. simpl.
    destruct (NativeWs.eventListeners this !! event) eqn:Hl; simpl.
    + by rewrite Hl.
    + by rewrite lookup_insert_eq.
  - rewrite lookup_insert_ne by done.
    destruct (NativeWs.eventListeners this !! event); [done|].
    by rewrite lookup_insert_ne.
Qed.

Lemma listeners_of_off (event e : string) (cb : option nat) (this : NativeWs.WebSocketService) :
  NativeWsApi.listeners_of e (NativeWsApi.off event cb this)
  = if decide (e = event)
    then match cb with
         | Some c => NativeWsApi.set_delete c (NativeWsApi.listeners_of event this)
         | None => []
         end
    else NativeWsApi.listeners_of e this.
Proof.
  unfold NativeWsApi.listeners_of, NativeWsApi.off.
  destruct cb as [c|].
  - destruct (NativeWs.eventListeners this !! event) as [s|] eqn:Hl; simpl.
    + destruct (decide (e = event)) as [->|Hne].
      * by rewrite lookup_insert_eq.
      * by rewrite lookup_insert_ne.
    + destruct (decide (e = event)) as [->|Hne]; [by rewrite Hl|done].
  - simpl. destruct (decide (e = event)) as [->|Hne].
    + by rewrite lookup_delete_eq.
    + by rewrite lookup_delete_ne.
Qed.

Lemma set_add_NoDup (cb : nat) (s : list nat) : NoDup s → NoDup (NativeWsApi.set_add cb s).
Proof.
  intros Hs. unfold NativeWsApi.set_add. destruct (decide (cb ∈ s)); [done|].
  apply NoDup_app. split; [done|]. split; [|apply NoDup_singleton].
  intros x Hx Hx'. apply list_elem_of_singleton in Hx' as ->. done.
Qed.

Lemma set_delete_NoDup (cb : nat) (s : list nat) :
  NoDup s → NoDup (NativeWsApi.set_delete cb s).
Proof. intros Hs. unfold NativeWsApi.set_delete. by apply NoDup_filter. Qed.

Lemma listeners_distinct_call (throws : nat → JsValue → bool) (c : NativeWsApi.Call)
    (this : NativeWs.WebSocketService) (w : World) :
  listeners_distinct this → listeners_distinct (NativeWsApi.call throws c this w).1.
Proof.
  intros Hd. destruct c as [| |event cb|event callback|event d|d]; simpl.
  - by rewrite native_connect_run.
  - unfold NativeWsApi.disconnect. destruct (NativeWs.ws this); exact Hd.
  - intros e. rewrite listeners_of_on. case_decide; [by apply set_add_NoDup|done].
  - intros e. rewrite listeners_of_off. case_decide; [|done].
    destruct callback; [by apply set_delete_NoDup|constructor].
  - by rewrite (ebind_run (NativeWsApi.emit _ _ _ _)).
  - by rewrite (ebind_run (NativeWsApi.send _ _)).
Qed.

Lemma listeners_distinct_calls (throws : nat → JsValue → bool) (cs : list NativeWsApi.Call) :
  ∀ (this : NativeWs.WebSocketService) (w : World),
    listeners_distinct this → listeners_distinct (NativeWsApi.calls throws cs this w).1.
Proof.
  induction cs as [|c rest IH]; intros this w Hd; [done|].
  cbn [NativeWsApi.calls]. rewrite (ebind_run (NativeWsApi.call _ _ _)).
  apply IH. by apply listeners_distinct_call.
Qed.

(** X13. In every state the [WebSocket]-based service can reach, [emit]
    calls each listener of the event exactly once, in the order of
    registration, whether or not earlier listeners throw.  A listener
    registered with [on] is among them, once, however often it was
    registered; after [off] with that listener it is no longer called while
    the others still are; after [off] without a listener none is called. *)
Theorem listeners_are_called_once_until_removed
    (throws : nat → JsValue → bool) (cs : list NativeWsApi.Call) (w0 w : World)
    (event : string) (cb : nat) (d : JsValue) :
  let this := (NativeWsApi.calls throws cs NativeWs.initial w0).1 in
  let subscribed := NativeWsApi.on event cb this in
  let unsubscribed := NativeWsApi.off event (Some cb) subscribed in
  (NativeWsApi.emit throws event d this w).1 = NativeWsApi.listeners_of event this
  ∧ NoDup (NativeWsApi.emit throws event d this w).1
  ∧ (NativeWsApi.emit throws event d subscribed w).1
    = (if decide (cb ∈ NativeWsApi.listeners_of event this)
       then NativeWsApi.listeners_of event this
       else NativeWsApi.listeners_of event this ++ [cb])
  ∧ NoDup (NativeWsApi.emit throws event d subscribed w).1
  ∧ cb ∈ (NativeWsApi.emit throws event d subscribed w).1
  ∧ ¬ cb ∈ (NativeWsApi.emit throws event d unsubscribed w).1
  ∧ (∀ c, c ≠ cb →
       (c ∈ (NativeWsApi.emit throws event d unsubscribed w).1
        ↔ c ∈ NativeWsApi.listeners_of event this))
  ∧ (NativeWsApi.emit throws event d (NativeWsApi.off event None subscribed) w).1 = [].
Proof.
  clear backend StringToNumber ObjectToNumber NumberToString ObjectToString.
  intros this subscribed unsubscribed.
  assert (listeners_distinct this) as Hd.
  { apply listeners_distinct_calls. intros e. unfold NativeWsApi.listeners_of. simpl.
    rewrite lookup_empty. constructor. }
  rewrite !emit_calls_listeners. subst unsubscribed subscribed.
  rewrite !listeners_of_off, !listeners_of_on.
  rewrite !(decide_True (P := event = event)) by done.
  split; [reflexivity|]. split; [apply Hd|]. split; [reflexivity|].
  split; [apply set_add_NoDup, Hd|].
  assert (∀ c, c ∈ NativeWsApi.set_add cb (NativeWsApi.listeners_of event this)
               ↔ c = cb ∨ c ∈ NativeWsApi.listeners_of event this) as Hadd.
  { intros c. unfold NativeWsApi.set_add. destruct (decide (cb ∈ _)) as [Hin|Hnin].
    - split; [by right|]. intros [->|H]; done.
    - rewrite elem_of_app, list_elem_of_singleton. tauto. }
  split; [apply Hadd; by left|].
  unfold NativeWsApi.set_delete.
  split; [rewrite list_elem_of_filter; tauto|]. split; [|reflexivity].
  intros c Hc. rewrite list_elem_of_filter, Hadd. tauto.
Qed.

(** ** The socket.io service *)

(** X14. While the socket.io service has no socket, [on] registers
    nothing and [emit] hands nothing on, without any notice; a [connect]
    after it creates a socket that has only the service's own three
    handlers, so a listener added before [connect] never hears an event. *)
Theorem socketio_listener_before_connect_is_lost
    (this : SocketIo.WebSocketService) (event : string) (d : JsValue) (w : World) :
  SocketIo.socket this = None →
  let res := SocketIo.connect (SocketIoApi.on event this w).1 (SocketIoApi.on event this w).2 in
  SocketIoApi.on event this w = (this, w)
  ∧ SocketIoApi.emit_event event d this = None
  ∧ SocketIoApi.disconnect this = (this, false)
  ∧ (∃ s, SocketIo.socket res.1 = Some s
          ∧ SocketIo.sock_handlers s = ["connect"; "disconnect"; "connect_error"])
  ∧ appended w res.2
    = [SocketIoOpen "/" (localStorage w !! "auth_token") ["websocket"];
       SocketIoOn "connect"; SocketIoOn "disconnect"; SocketIoOn "connect_error"].
Proof.
  intros Hs res. subst res.
  unfold SocketIoApi.on, SocketIoApi.emit_event, SocketIoApi.disconnect. rewrite Hs.
  unfold eret. simpl. do 3 (split; [reflexivity|]).
  rewrite socketio_connect_run. unfold SocketIo.socket_connected. rewrite Hs. simpl.
  split; [by eexists|]. by apply appended_app.
Qed.

(** X15. [connect()] of the socket.io service only holds back once the
    socket is connected: called again before the handshake has completed it
    opens a second connection with the same token and replaces the first
    socket; called after the handshake it does nothing. *)
Theorem socketio_connect_twice
    (this : SocketIo.WebSocketService) (w : World) :
  SocketIo.socket_connected this = false →
  let first := SocketIo.connect this w in
  let again := SocketIo.connect first.1 first.2 in
  let later := SocketIo.connect (SocketIoApi.handshake_done first.1) first.2 in
  network_of (appended w again.2)
    = [SocketIoOpen "/" (localStorage w !! "auth_token") ["websocket"];
       SocketIoOpen "/" (localStorage w !! "auth_token") ["websocket"]]
  ∧ later = (SocketIoApi.handshake_done first.1, first.2)
  ∧ network_of (appended w later.2)
    = [SocketIoOpen "/" (localStorage w !! "auth_token") ["websocket"]].
Proof.
  intros Hc first again later. subst later again first.
  rewrite !socketio_connect_run. rewrite Hc. simpl.
  split; [erewrite appended_app; [|simpl; rewrite <- app_assoc; reflexivity]; reflexivity|].
  split; [reflexivity|].
  erewrite appended_app; [|reflexivity]. reflexivity.
Qed.

(** ** The settings service when requests fail *)

Lemma mock_categories_elements :
  ∃ system agents,
    elements_of getMockCategories = [system; agents]
    ∧ opt_get system "name" = JStr "system"
    ∧ opt_get agents "name" = JStr "agents".
Proof. do 2 eexists. split; [reflexivity|]. split; reflexivity. Qed.

(** X16. When the request of [getCategorySettings] is rejected, the
    method resolves with the mock category of that name if the name is
    [system] or [agents], and otherwise throws "Category <name> not
    found": the fallback covers exactly the two categories of the mock
    list. *)
Theorem getCategorySettings_fallback_by_name
    (categoryName : string) (userId : option float) (w : World) (e : AxiosError) :
  let res := getCategorySettings backend categoryName userId w in
  (api_get backend (settings_baseUrl +:+ "/category/" +:+ categoryName)
     (if truthy (opt_number userId) then obj [("user_id", opt_number userId)] else ∅) w).1
    = Rejected e →
  if decide (categoryName ∈ ["system"; "agents"]) then
    ∃ category, res.1 = Returned category
                ∧ category ∈ elements_of getMockCategories
                ∧ opt_get category "name" = JStr categoryName
  else res.1 = Threw (JsError ("Category " +:+ categoryName +:+ " not found")).
Proof.
  intros res Hrej. subst res. unfold getCategorySettings.
  rewrite (ebind_run (api_get _ _ _)). rewrite Hrej.
  rewrite (ebind_run (console_error _)).
  destruct mock_categories_elements as (system & agents & Hel & Hs & Ha).
  unfold find_category. rewrite Hel. cbn [List.find]. rewrite Hs, Ha.
  unfold is_string.
  destruct (String.eqb_spec "system" categoryName) as [<-|Hns].
  { rewrite decide_True by (by repeat constructor). exists system. simpl.
    split; [reflexivity|]. split; [by repeat constructor|exact Hs]. }
  destruct (String.eqb_spec "agents" categoryName) as [<-|Hna].
  { rewrite decide_True by (by repeat constructor). exists agents. simpl.
    split; [reflexivity|]. split; [by repeat constructor|exact Ha]. }
  rewrite decide_False; [reflexivity|].
  rewrite !elem_of_cons, elem_of_nil. intros [H|[H|H]]; congruence.
Qed.

Lemma api_request_down m path params body headers (w : World) :
  backend_down backend →
  ∃ e, (api_request backend m path params body headers w).1 = Rejected e.
Proof.
  intros Hdown.
  destruct (api_request_spec backend m path params body headers w)
    as (o & w' & tl & Heq & _ & _ & _ & Hrej).
  rewrite Heq. simpl. apply Hrej, Hdown.
Qed.

(** X17. With the backend down the settings service does not treat its
    methods alike.  [updateAgentSetting], [deleteAgentSetting],
    [getProfiles] and [resetToDefaults] throw the request's error;
    [getAgentSettings] resolves with its two mock entries whatever agent
    type and id were asked for; [getCategories] resolves with the mock
    categories; and [updateSetting] resolves with [success: true]. *)
Theorem settings_methods_when_backend_is_down
    (agentType settingKey : string) (agentId askedType categoryName : option string)
    (userId : option float) (settingId : float) (updateRequest : gmap string JsValue)
    (includeInactive : bool) (w : World) :
  backend_down backend →
  (∃ e, (updateAgentSetting backend agentType settingKey updateRequest agentId w).1
        = Threw (AxiosFailure e))
  ∧ (∃ e, (deleteAgentSetting backend agentType settingKey agentId w).1
          = Threw (AxiosFailure e))
  ∧ (∃ e, (getProfiles backend w).1 = Threw (AxiosFailure e))
  ∧ (∃ e, (resetToDefaults backend categoryName userId w).1 = Threw (AxiosFailure e))
  ∧ (getAgentSettings backend askedType agentId w).1 = Returned mockAgentSettings
  ∧ (getCategories backend includeInactive w).1 = Resolved getMockCategories
  ∧ (∃ v, (updateSetting backend NumberToString settingId updateRequest w).1 = Resolved v
          ∧ opt_get v "success" = JBool true).
Proof.
  intros Hdown.
  assert (∀ m path params body headers (k : Outcome Response → Eff (Result JsValue)) w0,
            (∀ e w1, ∃ e', (k (Rejected e) w1).1 = Threw (AxiosFailure e')) →
            ∃ e, (ebind (api_request backend m path params body headers) k w0).1
                 = Threw (AxiosFailure e)) as Hthrow.
  { intros m path params body headers k w0 Hk. rewrite ebind_run.
    destruct (api_request_down m path params body headers w0 Hdown) as [e ->]. apply Hk. }
  split; [apply Hthrow; intros e w1; by exists e|].
  split; [apply Hthrow; intros e w1; by exists e|].
  split; [apply Hthrow; intros e w1; by exists e|].
  split; [apply Hthrow; intros e w1; by exists e|].
  split.
  { unfold getAgentSettings, api_get. rewrite (ebind_run (api_request _ _ _ _ _ _)).
    destruct (api_request_down GET (settings_baseUrl +:+ "/agents")
                (spread (optional_param "agent_type" (opt_string askedType))
                        (optional_param "agent_id" (opt_string agentId))) NoBody ∅ w Hdown)
      as [e ->].
    reflexivity. }
  split.
  { unfold getCategories, api_get. rewrite (ebind_run (api_request _ _ _ _ _ _)).
    destruct (api_request_down GET (settings_baseUrl +:+ "/categories")
                (obj [("include_inactive", JBool includeInactive)]) NoBody ∅ w Hdown)
      as [e ->].
    reflexivity. }
  unfold updateSetting, api_put. rewrite (ebind_run (api_request _ _ _ _ _ _)).
  destruct (api_request_down PUT
              (settings_baseUrl +:+ "/setting/" +:+ NumberToString settingId) ∅
              (JsonBody updateRequest) ∅ w Hdown) as [e ->].
  eexists. split; reflexivity.
Qed.

(** X18. [resetToDefaults] sends each optional argument as a query
    parameter only when it is truthy: an empty category name is left out,
    and so is a user id of 0 (or NaN), as if none had been given. *)
Theorem resetToDefaults_drops_falsy_arguments
    (categoryName : option string) (userId : option float) (w : World) :
  ∃ r,
    sent_of (appended w (resetToDefaults backend categoryName userId w).2) = [Sent r]
    ∧ req_method r = POST
    ∧ req_url r = "/api/api/v1/settings/reset-to-defaults"
    ∧ req_params r !! "category_name"
      = match categoryName with
        | Some s => if String.eqb s "" then None else Some (JStr s)
        | None => None
        end
    ∧ req_params r !! "user_id"
      = match userId with
        | Some x => if PrimFloat.is_zero x || PrimFloat.is_nan x then None else Some (JNum x)
        | None => None
        end.
Proof.
  unfold resetToDefaults. rewrite (ebind_run (api_request _ _ _ _ _ _)).
  destruct (api_request_spec backend POST (settings_baseUrl +:+ "/reset-to-defaults")
              (spread (optional_param "category_name" (opt_string categoryName))
                      (optional_param "user_id" (opt_number userId)))
              (JsonBody ∅) ∅ w) as (o & w' & tl & Heq & Htr & Htl & _ & _).
  rewrite Heq. eexists. split.
  { simpl. erewrite appended_app; [|exact Htr].
    change (Sent ?r :: Settled ?x :: tl) with ([Sent r; Settled x] ++ tl).
    rewrite sent_of_app, (sent_of_toasts tl Htl). reflexivity. }
  split; [reflexivity|]. split; [reflexivity|].
  unfold build_request, spread, optional_param. simpl.
  split.
  - destruct categoryName as [s|]; simpl.
    + destruct (String.eqb s ""); simpl.
      * destruct userId as [x|]; simpl; [destruct (_ || _); simpl|];
          by rewrite ?lookup_union_r, ?lookup_empty by done.
      * destruct userId as [x|]; simpl; [destruct (_ || _); simpl|];
          rewrite lookup_union_r; try apply lookup_singleton_eq; done.
    + destruct userId as [x|]; simpl; [destruct (_ || _); simpl|];
        by rewrite ?lookup_union_r, ?lookup_empty by done.
  - destruct userId as [x|]; simpl.
    + destruct (_ || _); simpl.
      * destruct categoryName as [s|]; simpl; [destruct (String.eqb s ""); simpl|];
          by rewrite ?lookup_union_r, ?lookup_empty by done.
      * apply lookup_union_Some_l. apply lookup_singleton_eq.
    + destruct categoryName as [s|]; simpl; [destruct (String.eqb s ""); simpl|];
        by rewrite ?lookup_union_r, ?lookup_empty by done.
Qed.

(** ** Validating a setting value *)

Context (String_length : string → float).
Context (RegExp_test : JsValue → string → option bool).
Context (same_object : JsValue → JsValue → bool).

(** X19. For a setting of type [integer] or [float] with numeric [min]
    and [max] rules, a value that is a number is valid exactly when it is
    neither below [min] nor above [max]; the error names the bound that is
    broken, [min] first.  The type makes no difference: a number with a
    fractional part passes as an [integer], since the whole-number test is
    only applied to values that are not numbers. *)
Theorem numeric_setting_is_range_checked_only
    (setting : Setting) (rules : gmap string JsValue) (v lo hi : float) :
  setting_validation_rules setting = Some rules →
  setting_data_type setting = "integer" ∨ setting_data_type setting = "float" →
  rules !! "min" = Some (JNum lo) →
  rules !! "max" = Some (JNum hi) →
  validateSettingValue StringToNumber ObjectToNumber NumberToString ObjectToString
    String_length RegExp_test same_object setting (JNum v)
  = Returned
      (if (v <? lo)%float then
         invalid (setting_display_name setting +:+ " must be at least " +:+ NumberToString lo)
       else if (hi <? v)%float then
         invalid (setting_display_name setting +:+ " cannot exceed " +:+ NumberToString hi)
       else valid).
Proof.
  intros Hrules Htype Hmin Hmax. unfold validateSettingValue.
  rewrite Hrules. simpl is_blank. rewrite andb_false_r.
  assert (range_checks StringToNumber ObjectToNumber NumberToString ObjectToString
            (setting_display_name setting) rules (JNum v)
          = if (v <? lo)%float then
              invalid (setting_display_name setting +:+ " must be at least "
                       +:+ NumberToString lo)
            else if (hi <? v)%float then
              invalid (setting_display_name setting +:+ " cannot exceed "
                       +:+ NumberToString hi)
            else valid) as Hrange.
  { unfold range_checks, prop. rewrite Hmin, Hmax. simpl.
    destruct (v <? lo)%float; [reflexivity|]. by destruct (hi <? v)%float. }
  destruct Htype as [-> | ->]; simpl; by rewrite Hrange.
Qed.

Lemma existsb_same_string (s : string) (options : list string) :
  existsb (same_value_zero same_object (JStr s)) (JStr <$> options)
  = bool_decide (s ∈ options).
Proof.
  induction options as [|o rest IH]; [reflexivity|].
  change (JStr <$> o :: rest) with (JStr o :: (JStr <$> rest)).
  cbn [existsb same_value_zero]. rewrite IH.
  destruct (String.eqb_spec s o) as [->|Hne]; simpl.
  - symmetry. apply bool_decide_eq_true. by left.
  - apply bool_decide_ext. rewrite elem_of_cons. split; [by right|].
    intros [Heq|Hin]; [by destruct Hne|exact Hin].
Qed.

Lemma array_join_strings (sep : string) (options : list string) :
  array_join NumberToString ObjectToString sep (JStr <$> options) = String.concat sep options.
Proof.
  induction options as [|o rest IH]; [reflexivity|].
  destruct rest as [|o' rest]; [reflexivity|].
  change (array_join NumberToString ObjectToString sep (JStr <$> o :: o' :: rest))
    with (o +:+ sep +:+ array_join NumberToString ObjectToString sep (JStr <$> o' :: rest)).
  rewrite IH. reflexivity.
Qed.

(** X20. For a setting of type [select] whose [options] rule is a list
    of strings, a string is valid exactly when it is one of the options;
    otherwise the error lists all options, separated by ", ". *)
Theorem select_setting_accepts_its_options
    (setting : Setting) (rules : gmap string JsValue) (options : list string) (s : string) :
  setting_validation_rules setting = Some rules →
  setting_data_type setting = "select" →
  rules !! "options" = Some (JArr (JStr <$> options)) →
  setting_is_required setting = false ∨ s ≠ "" →
  validateSettingValue StringToNumber ObjectToNumber NumberToString ObjectToString
    String_length RegExp_test same_object setting (JStr s)
  = Returned
      (if bool_decide (s ∈ options) then valid
       else invalid (setting_display_name setting +:+ " must be one of: "
                     +:+ String.concat ", " options)).
Proof.
  intros Hrules Htype Hopts Hreq. unfold validateSettingValue.
  rewrite Hrules, Htype.
  assert (setting_is_required setting && is_blank (JStr s) = false) as ->.
  { destruct Hreq as [-> | Hne]; [reflexivity|].
    simpl. apply andb_false_iff. right. by apply String.eqb_neq. }
  unfold prop. rewrite Hopts. cbn [String.eqb Ascii.eqb Bool.eqb default from_option id truthy].
  rewrite (existsb_same_string s options), (array_join_strings ", " options).
  by destruct (bool_decide (s ∈ options)).
Qed.

(** X21. The required check belongs to the rules: for a required setting
    a [null], [undefined] or empty value is rejected with "<name> is
    required" whatever the type, but only if the setting has validation
    rules; without them the same value is accepted. *)
Theorem required_is_checked_only_with_rules (setting : Setting) (value : JsValue) :
  setting_is_required setting = true →
  is_blank value = true →
  validateSettingValue StringToNumber ObjectToNumber NumberToString ObjectToString
    String_length RegExp_test same_object setting value
  = Returned
      (match setting_validation_rules setting with
       | Some _ => invalid (setting_display_name setting +:+ " is required")
       | None => valid
       end).
Proof.
  intros Hreq Hblank. unfold validateSettingValue.
  destruct (setting_validation_rules setting); [|reflexivity].
  by rewrite Hreq, Hblank.
Qed.

End MoreProperties.

(** * The further properties at concrete inputs *)

(** A 500 on the signed-in cases page leaves the session alone. *)
Lemma request_keeps_session_witness :
  let res := api_request (const_backend (reply_status 500 JNull)) GET "/cases"
               CasesPage_initial_filters NoBody ∅ signed_in_world in
  (∃ e, res.1 = Rejected e)
  ∧ localStorage res.2 !! "auth_token" = Some "tok-123"
  ∧ location_href res.2 = "/cases".
Proof.
  intros res.
  destruct (request_keeps_session_unless_401 (const_backend (reply_status 500 JNull))
              GET "/cases" CasesPage_initial_filters NoBody ∅ signed_in_world)
    as (_ & Hout & Hls & _ & Hhref).
  { intros resp H. injection H as <-. simpl. lia. }
  split; [exact Hout|]. fold res in Hls, Hhref. rewrite Hls, Hhref. split; reflexivity.
Defined.

(** Scenario 1 of the specification: the admin signs in. *)
Lemma login_success_witness :
  let res := login (const_backend login_reply) show_number object_string
               "admin@example.com" "admin123" AuthProvider_initial empty_session in
  localStorage res.2 !! "auth_token" = Some "tok-9"
  ∧ req_headers (build_request GET "/cases" CasesPage_initial_filters NoBody ∅ res.2)
      !! "Authorization" = Some "Bearer tok-9".
Proof.
  intros res.
  destruct (login_success_authorizes_later_requests (const_backend login_reply)
              show_number object_string "admin@example.com" "admin123"
              AuthProvider_initial empty_session
              {| status := 200;
                 data := JObj (obj [("access_token", JStr "tok-9");
                   ("user", JObj (obj [("id", JStr "u-1"); ("email", JStr "admin@example.com");
                                       ("role", JStr "admin"); ("permissions", JArr [])]))]) |}
              "tok-9")
    as (_ & Hls & Hreq); [reflexivity | reflexivity | reflexivity |].
  split; [exact Hls|]. apply Hreq. reflexivity.
Defined.

(** Wrong credentials: the 401 is let through and nothing is stored. *)
Lemma failed_login_witness :
  let res := login (const_backend (reply_status 401 JNull)) show_number object_string
               "admin@example.com" "wrong" AuthProvider_initial empty_session in
  res.1 = Threw (AxiosFailure {| err_response := Some {| status := 401; data := JNull |} |})
  ∧ localStorage res.2 !! "auth_token" = None
  ∧ defaults_common res.2 !! "Authorization" = None.
Proof.
  intros res. split; [reflexivity|].
  destruct (failed_login_stores_no_token (const_backend (reply_status 401 JNull))
              show_number object_string "admin@example.com" "wrong"
              AuthProvider_initial empty_session
              (AxiosFailure {| err_response := Some {| status := 401; data := JNull |} |})
              eq_refl) as [Hls Hdc].
  fold res in Hls, Hdc. split.
  - destruct (localStorage res.2 !! "auth_token") as [v|] eqn:Hv; [|reflexivity].
    discriminate (Hls v eq_refl).
  - destruct (defaults_common res.2 !! "Authorization") as [v|] eqn:Hv; [|reflexivity].
    discriminate (Hdc v eq_refl).
Defined.

(** The stored token has expired: [/auth/me] answers 401. *)
Lemma mount_with_expired_token_witness :
  let res := AuthProvider_mount (const_backend (reply_status 401 JNull))
               AuthProvider_initial signed_in_world in
  isLoading res.1 = false
  ∧ user res.1 = JNull
  ∧ localStorage res.2 !! "auth_token" = None
  ∧ defaults_common res.2 !! "Authorization" = None.
Proof.
  intros res.
  destruct (mount_with_token_checks_it (const_backend (reply_status 401 JNull))
              AuthProvider_initial signed_in_world "tok-123")
    as (_ & _ & Hload & Hrest); [reflexivity | discriminate |].
  simpl in Hrest. destruct Hrest as (Hu & Hls & Hdc).
  split; [exact Hload|]. split; [exact Hu|]. split; [exact Hls|exact Hdc].
Defined.

(** Three files, all accepted. *)
Lemma upload_all_accepted_witness :
  let res := DocumentsPage_upload (const_backend (reply_status 201 JNull))
               DocumentsPage_initial_filters
               {| files := [police_report; scene_photo; medical_record];
                  isUploading := false; caseId := "" |} signed_in_world in
  sent_of (appended signed_in_world res.2)
    = [Sent (upload_request "" signed_in_world police_report);
       Sent (upload_request "" signed_in_world scene_photo);
       Sent (upload_request "" signed_in_world medical_record)]
  ∧ refetches_of (appended signed_in_world res.2)
    = [Refetch (documents_key DocumentsPage_initial_filters)]
  ∧ res.1 = {| files := []; isUploading := false; caseId := "" |}.
Proof.
  intros res.
  destruct (upload_all_accepted (const_backend (reply_status 201 JNull))
              [police_report; scene_photo; medical_record] "" false
              DocumentsPage_initial_filters signed_in_world)
    as (_ & Hsent & Hre & Hst); [discriminate | intros i f _; reflexivity |].
  split; [exact Hsent|]. split; [exact Hre|exact Hst].
Defined.

(** Three files, the second rejected with a 500: the third is never sent
    and all three stay selected. *)
Lemma upload_stops_at_second_file_witness :
  let res := DocumentsPage_upload
               (scripted_backend [reply_status 201 JNull; reply_status 500 JNull;
                                  reply_status 201 JNull])
               DocumentsPage_initial_filters
               {| files := [police_report; scene_photo; medical_record];
                  isUploading := false; caseId := "c-1" |} signed_in_world in
  sent_of (appended signed_in_world res.2)
    = [Sent (upload_request "c-1" signed_in_world police_report);
       Sent (upload_request "c-1" signed_in_world scene_photo)]
  ∧ refetches_of (appended signed_in_world res.2) = []
  ∧ files res.1 = [police_report; scene_photo; medical_record].
Proof.
  intros res.
  destruct (upload_stops_at_first_rejection
              (scripted_backend [reply_status 201 JNull; reply_status 500 JNull;
                                 reply_status 201 JNull])
              [police_report; scene_photo; medical_record] 1 scene_photo "c-1" false
              DocumentsPage_initial_filters signed_in_world)
    as (Hsent & Hre & Hst).
  - reflexivity.
  - intros i f Hi Hf. destruct i as [|i]; [|lia]. injection Hf as <-. reflexivity.
  - reflexivity.
  - split; [exact Hsent|]. split; [exact Hre|]. fold res in Hst. by rewrite Hst.
Defined.

(** A complete form, once accepted and once refused by the backend. *)
Lemma case_creation_accepted_witness :
  let formData :=
    handleChange digits_parseFloat "law_firm_id" "lf-7"
      (handleChange digits_parseFloat "plaintiff_id" "p-12"
         (handleChange digits_parseFloat "title" "Doe v. Acme Freight" NewCaseForm_initial)) in
  let res := handleSubmit (const_backend (reply_status 201 JNull)) nan_of_string nan_of_value
               true formData signed_in_world in
  InvalidateQueries "cases" ∈ appended signed_in_world res.2
  ∧ InvalidateQueries "dashboard-stats" ∈ appended signed_in_world res.2
  ∧ PropCallback "onSuccess" ∈ appended signed_in_world res.2.
Proof.
  intros formData res.
  pose proof (case_creation_invalidates_only_on_success
                (const_backend (reply_status 201 JNull)) nan_of_string nan_of_value
                true formData signed_in_world eq_refl) as H.
  cbv zeta in H. fold formData in H. fold res in H.
  set (ok := reply_ok _) in H. assert (ok = true) as -> by reflexivity.
  cbv iota in H. rewrite H.
  split; [|split]; repeat (first [by left | right]).
Defined.

(** The status filter changes while a search text is set: the text and
    the page size stay. *)
Lemma filter_change_keeps_search_witness :
  let prev := CaseFilters_search "doe" CasesPage_initial_filters in
  control_change CasesStatus "active" prev !! "search" = Some (JStr "doe")
  ∧ control_change CasesStatus "active" prev !! "limit" = Some (JNum 20).
Proof.
  intros prev. split.
  - rewrite (proj2 (filter_change_keeps_other_filters CasesStatus "active" prev "search"
                      ltac:(discriminate) ltac:(discriminate))).
    reflexivity.
  - rewrite (proj2 (filter_change_keeps_other_filters CasesStatus "active" prev "limit"
                      ltac:(discriminate) ltac:(discriminate))).
    reflexivity.
Defined.

(** From page 1 to page 2 and back. *)
Lemma page_change_round_trip_witness :
  cases_key (CasesPage_onPageChange (JNum 2) CasesPage_initial_filters)
    ≠ cases_key CasesPage_initial_filters
  ∧ cases_key (CasesPage_onPageChange (JNum 1)
                 (CasesPage_onPageChange (JNum 2) CasesPage_initial_filters))
    = cases_key CasesPage_initial_filters.
Proof.
  destruct (page_change_round_trip (JNum 2) (JNum 1) CasesPage_initial_filters eq_refl)
    as (_ & Hne & Hback).
  split; [apply Hne; discriminate|exact Hback].
Defined.

(** A card subscribes before the dashboard has connected. *)
Lemma socketio_listener_lost_witness :
  SocketIoApi.on "agent_status_update" SocketIo.initial signed_in_world
    = (SocketIo.initial, signed_in_world)
  ∧ ∃ s, SocketIo.socket (SocketIo.connect SocketIo.initial signed_in_world).1 = Some s
         ∧ SocketIo.sock_handlers s = ["connect"; "disconnect"; "connect_error"].
Proof.
  destruct (socketio_listener_before_connect_is_lost SocketIo.initial
              "agent_status_update" JNull signed_in_world eq_refl)
    as (Hon & _ & _ & Hs & _).
  split; [exact Hon|]. rewrite Hon in Hs. exact Hs.
Defined.

Lemma socketio_connect_twice_witness :
  let first := SocketIo.connect SocketIo.initial signed_in_world in
  network_of (appended signed_in_world (SocketIo.connect first.1 first.2).2)
  = [SocketIoOpen "/" (Some "tok-123") ["websocket"];
     SocketIoOpen "/" (Some "tok-123") ["websocket"]].
Proof.
  intros first.
  exact (proj1 (socketio_connect_twice SocketIo.initial signed_in_world eq_refl)).
Defined.

(** The backend is unreachable: [system] has a fallback, [billing] has
    none. *)
Lemma getCategorySettings_fallback_witness :
  (∃ category,
     (getCategorySettings (const_backend NetworkError) "system" None signed_in_world).1
       = Returned category
     ∧ opt_get category "name" = JStr "system")
  ∧ (getCategorySettings (const_backend NetworkError) "billing" None signed_in_world).1
    = Threw (JsError "Category billing not found").
Proof.
  split.
  - destruct (getCategorySettings_fallback_by_name (const_backend NetworkError)
                "system" None signed_in_world {| err_response := None |} eq_refl)
      as (category & Hres & _ & Hname).
    by exists category.
  - exact (getCategorySettings_fallback_by_name (const_backend NetworkError)
             "billing" None signed_in_world {| err_response := None |} eq_refl).
Defined.

Lemma settings_backend_down_witness :
  (∃ e, (updateAgentSetting (const_backend NetworkError) "lead_intake" "auto_assign"
           (obj [("setting_value", JBool false); ("is_enabled", JBool true)]) None
           signed_in_world).1 = Threw (AxiosFailure e))
  ∧ (getAgentSettings (const_backend NetworkError) (Some "document_analysis") None
       signed_in_world).1 = Returned mockAgentSettings.
Proof.
  destruct (settings_methods_when_backend_is_down (const_backend NetworkError) show_number
              "lead_intake" "auto_assign" None (Some "document_analysis") None None
              7%float (obj [("setting_value", JBool false); ("is_enabled", JBool true)])
              false signed_in_world)
    as (Hupd & _ & _ & _ & Hget & _); [intros n r; reflexivity|].
  split; [exact Hupd|exact Hget].
Defined.

(** The health-check interval, an [integer] between 10 and 300: 45.5 is
    accepted, 5 is not. *)
Lemma numeric_setting_witness :
  validateSettingValue nan_of_string nan_of_value show_number object_string
    zero_length no_regexp never_same health_check_interval_setting (JNum 45.5)
  = Returned valid
  ∧ isValid <$> (match validateSettingValue nan_of_string nan_of_value show_number
                         object_string zero_length no_regexp never_same
                         health_check_interval_setting (JNum 5) with
                 | Returned v => Some v
                 | Threw _ => None
                 end) = Some false.
Proof.
  split.
  - rewrite (numeric_setting_is_range_checked_only nan_of_string nan_of_value show_number
               object_string zero_length no_regexp never_same
               health_check_interval_setting (obj [("min", JNum 10); ("max", JNum 300)])
               45.5 10 300 eq_refl (or_introl eq_refl) eq_refl eq_refl).
    reflexivity.
  - rewrite (numeric_setting_is_range_checked_only nan_of_string nan_of_value show_number
               object_string zero_length no_regexp never_same
               health_check_interval_setting (obj [("min", JNum 10); ("max", JNum 300)])
               5 10 300 eq_refl (or_introl eq_refl) eq_refl eq_refl).
    reflexivity.
Defined.

Lemma select_setting_witness :
  validateSettingValue nan_of_string nan_of_value show_number object_string
    zero_length no_regexp never_same log_level_setting (JStr "TRACE")
  = Returned (invalid "Log Level must be one of: DEBUG, INFO, WARNING, ERROR, CRITICAL")
  ∧ validateSettingValue nan_of_string nan_of_value show_number object_string
      zero_length no_regexp never_same log_level_setting (JStr "ERROR")
    = Returned valid.
Proof.
  assert (∀ s, s ≠ "" →
            validateSettingValue nan_of_string nan_of_value show_number object_string
              zero_length no_regexp never_same log_level_setting (JStr s)
            = Returned
                (if bool_decide (s ∈ log_level_options) then valid
                 else invalid (setting_display_name log_level_setting
                               +:+ " must be one of: "
                               +:+ String.concat ", " log_level_options))) as H.
  { intros s Hs.
    pose proof (select_setting_accepts_its_options nan_of_string nan_of_value show_number
                  object_string zero_length no_regexp never_same log_level_setting
                  (obj [("options", JArr (JStr <$> log_level_options))]) log_level_options
                  s) as Hsel.
    specialize (Hsel eq_refl). specialize (Hsel eq_refl). specialize (Hsel eq_refl).
    exact (Hsel (or_intror Hs)). }
  split.
  - etrans; [apply H; discriminate|]. vm_compute. reflexivity.
  - etrans; [apply H; discriminate|]. vm_compute. reflexivity.
Defined.

Lemma required_setting_witness :
  validateSettingValue nan_of_string nan_of_value show_number object_string
    zero_length no_regexp never_same health_check_interval_setting (JStr "")
  = Returned (invalid "Agent Health Check Interval (seconds) is required").
Proof.
  exact (required_is_checked_only_with_rules nan_of_string nan_of_value show_number
           object_string zero_length no_regexp never_same
           health_check_interval_setting (JStr "") eq_refl eq_refl).
Defined.
